(** * sqlite-web: value codec, primary-key codec, pagination and
      structural mutation views of [sqlite_web.py], embedded in Rocq.

    Python [str] values are modelled by Rocq strings whose characters are
    the code points below 256; Python [bytes] by Rocq strings whose
    characters are the byte values.  Dictionaries are [gmap]s, Werkzeug
    multi-dicts are association lists in arrival order, and exceptions are
    an explicit [result] type. *)

From Stdlib Require Import ZArith NArith String Ascii List Bool Lia.
From Stdlib Require Import DecimalString DecimalZ.
From stdpp Require Import base option list gmap strings.

Local Open Scope string_scope.
Local Open Scope Z_scope.

(** ** Python exceptions and results *)

Inductive exn :=
| KeyError (key : string)
| ValueError (msg : string)
| TypeError (msg : string)
| AttributeError (msg : string)
| BinasciiError (msg : string)
| ZeroDivisionError (msg : string)
| OverflowError (msg : string)
| BuildError (msg : string)
| DoesNotExist
| DatabaseError (msg : string).

Inductive result (A : Type) :=
| Ok (a : A)
| Raise (e : exn).
Arguments Ok {A} a.
Arguments Raise {A} e.

Definition rbind {A B} (m : result A) (k : A → result B) : result B :=
  match m with
  | Ok a => k a
  | Raise e => Raise e
  end.

Notation "'do' x <~ m ; k" := (rbind m (fun x => k))
  (at level 10, x name, m at level 100, k at level 200).

(** [try: m except Exception as exc: h exc] *)
Definition try_except {A} (m : result A) (h : exn → result A) : result A :=
  match m with
  | Ok a => Ok a
  | Raise e => h e
  end.

(** ** Python strings *)

Definition code (c : ascii) : N := N_of_ascii c.

Definition between (lo hi : N) (c : ascii) : bool :=
  ((lo <=? code c) && (code c <=? hi))%N.

Definition is_ascii_digit (c : ascii) : bool := between 48 57 c.

(** [c.isdigit()]: the decimal digits and, below 256, the superscripts
    U+00B2, U+00B3 and U+00B9. *)
Definition chr_isdigit (c : ascii) : bool :=
  is_ascii_digit c || (code c =? 178)%N || (code c =? 179)%N || (code c =? 185)%N.

(** [c.isspace()] below 256. *)
Definition chr_isspace (c : ascii) : bool :=
  between 9 13 c || between 28 32 c || (code c =? 133)%N || (code c =? 160)%N.

(** [c.lower()] below 256: A-Z and the Latin-1 capitals except U+00D7. *)
Definition chr_lower (c : ascii) : ascii :=
  if between 65 90 c || (between 192 222 c && negb (code c =? 215)%N)
  then ascii_of_N (code c + 32)
  else c.

Fixpoint str_forall (p : ascii → bool) (s : string) : bool :=
  match s with
  | EmptyString => true
  | String c s' => p c && str_forall p s'
  end.

Fixpoint str_map (f : ascii → ascii) (s : string) : string :=
  match s with
  | EmptyString => EmptyString
  | String c s' => String (f c) (str_map f s')
  end.

Fixpoint str_filter (p : ascii → bool) (s : string) : string :=
  match s with
  | EmptyString => EmptyString
  | String c s' => if p c then String c (str_filter p s') else str_filter p s'
  end.

Definition str_nonempty (s : string) : bool :=
  match s with
  | EmptyString => false
  | String _ _ => true
  end.

(** [s.isdigit()] *)
Definition isdigit (s : string) : bool := str_nonempty s && str_forall chr_isdigit s.

(** [s.lower()] *)
Definition lower (s : string) : string := str_map chr_lower s.

Fixpoint lstrip (s : string) : string :=
  match s with
  | EmptyString => EmptyString
  | String c s' => if chr_isspace c then lstrip s' else s
  end.

Fixpoint rstrip (s : string) : string :=
  match s with
  | EmptyString => EmptyString
  | String c s' =>
      match rstrip s' with
      | EmptyString => if chr_isspace c then EmptyString else String c EmptyString
      | r => String c r
      end
  end.

(** [s.strip()] *)
Definition strip (s : string) : string := lstrip (rstrip s).

Definition str_eqb (a b : string) : bool := bool_decide (a = b).

(** [sep.join(parts)] *)
Fixpoint str_join (sep : string) (parts : list string) : string :=
  match parts with
  | [] => ""
  | [p] => p
  | p :: rest => p +:+ sep +:+ str_join sep rest
  end.

Definition hex_digit (n : N) : ascii :=
  if (n <? 10)%N then ascii_of_N (n + 48) else ascii_of_N (n + 87).

Definition DQUOTE : ascii := ascii_of_N 34.

(** [c.isprintable()] below 256: not the control characters, the
    no-break space U+00A0 or the soft hyphen U+00AD. *)
Definition chr_isprintable (c : ascii) : bool :=
  between 32 126 c || (between 161 255 c && negb (code c =? 173)%N).

(** [repr(s)] of a [str]: between double quotes when the text holds a
    single quote and no double quote, between single quotes otherwise;
    the quote and the backslash are escaped, and what is not printable is
    written as an escape. *)
Definition str_repr_quote (s : string) : ascii :=
  if negb (str_forall (fun c => negb (bool_decide (c = "'"%char))) s)
     && str_forall (fun c => negb (bool_decide (c = DQUOTE))) s
  then DQUOTE else "'"%char.

Fixpoint str_repr_body (quote : ascii) (s : string) : string :=
  match s with
  | EmptyString => EmptyString
  | String c s' =>
      let rest := str_repr_body quote s' in
      if bool_decide (c = quote) || bool_decide (c = "\"%char)
      then String "\" (String c rest)
      else if (code c =? 9)%N then "\t" +:+ rest
      else if (code c =? 10)%N then "\n" +:+ rest
      else if (code c =? 13)%N then "\r" +:+ rest
      else if chr_isprintable c then String c rest
      else "\x" +:+ String (hex_digit (code c / 16)) (String (hex_digit (code c mod 16)) rest)
  end.

Definition str_repr (s : string) : string :=
  let q := str_repr_quote s in
  String q (str_repr_body q s) +:+ String q "".

(** [str(exc)]: the message, and for [KeyError] the repr of the key. *)
Definition str_exn (e : exn) : string :=
  match e with
  | KeyError k => str_repr k
  | ValueError m | TypeError m | AttributeError m | BinasciiError m
  | ZeroDivisionError m | OverflowError m | BuildError m | DatabaseError m => m
  | DoesNotExist => ""
  end.

Fixpoint is_prefix (p s : string) : bool :=
  match p, s with
  | EmptyString, _ => true
  | String a p', String b s' => bool_decide (a = b) && is_prefix p' s'
  | String _ _, EmptyString => false
  end.

(** [s.split(sep)] for a non-empty [sep]: a left-to-right scan for
    non-overlapping occurrences.  [skip] counts the characters of a matched
    separator still to be passed over, [cur] is the current piece. *)
Fixpoint str_split_go (sep : string) (skip : nat) (cur : string) (s : string) : list string :=
  match s with
  | EmptyString => [cur]
  | String c s' =>
      match skip with
      | S k => str_split_go sep k cur s'
      | O =>
          if is_prefix sep s
          then cur :: str_split_go sep (String.length sep - 1) "" s'
          else str_split_go sep 0 (cur +:+ String c "") s'
      end
  end.

Definition str_split (sep s : string) : list string := str_split_go sep 0 "" s.

(** [int(s)] for a string that passed [s.isdigit()]: the decimal value when
    every character is one of 0-9, [ValueError] for the superscript
    digits, which [isdigit] accepts and [int] does not, and for text
    longer than the interpreter's limit on integer strings (4300 digits by
    default since CPython 3.11). *)
Definition MAX_STR_DIGITS : nat := 4300.

Fixpoint digits_value (acc : Z) (s : string) : Z :=
  match s with
  | EmptyString => acc
  | String c s' => digits_value (10 * acc + (Z.of_N (code c) - 48)) s'
  end.

Definition int_of_digits (s : string) : result Z :=
  if negb (str_nonempty s && str_forall is_ascii_digit s)
  then Raise (ValueError ("invalid literal for int() with base 10: '" +:+ s +:+ "'"))
  else if (MAX_STR_DIGITS <? String.length s)%nat
  then Raise (ValueError "Exceeds the limit (4300 digits) for integer string conversion")
  else Ok (digits_value 0 s).

(** ** Values and fields *)

(** Python values held by rows and produced by the codec.  [PBytes] holds
    the byte values as characters. *)
Inductive pyvalue :=
| PNone
| PBool (b : bool)
| PInt (z : Z)
| PStr (s : string)
| PBytes (b : string).

Global Instance pyvalue_eq_dec : EqDecision pyvalue.
Proof. solve_decision. Defined.

(** The peewee field classes the introspector generates for SQLite tables
    (with [bare_fields=True]), and the local [JsonField] of [add_column]. *)
Inductive FieldClass :=
| AutoField | BigIntegerField | IntegerField
| FloatField | DecimalField
| CharField | TextField | JsonField
| BlobField | BooleanField
| DateField | DateTimeField | TimeField
| ForeignKeyField | BareField.

Global Instance FieldClass_eq_dec : EqDecision FieldClass.
Proof. solve_decision. Defined.

(** [isinstance(field, peewee.IntegerField)]: [AutoField] and
    [BigIntegerField] derive from [IntegerField]. *)
Definition isinstance_IntegerField (c : FieldClass) : bool :=
  match c with
  | AutoField | BigIntegerField | IntegerField => true
  | _ => false
  end.

Definition isinstance_AutoField (c : FieldClass) : bool :=
  match c with AutoField => true | _ => false end.
Definition isinstance_FloatField (c : FieldClass) : bool :=
  match c with FloatField => true | _ => false end.
Definition isinstance_BooleanField (c : FieldClass) : bool :=
  match c with BooleanField => true | _ => false end.
Definition isinstance_BlobField (c : FieldClass) : bool :=
  match c with BlobField => true | _ => false end.

Record Field := {
  field_name : string;       (* field.column_name *)
  field_class : FieldClass;  (* type(field) *)
  field_null : bool;         (* field.null *)
}.

Global Instance Field_eq_dec : EqDecision Field.
Proof. solve_decision. Defined.

(** What the codec calls outside this file: the built-in [float], of which
    only success or failure is observed, and the field's storage adapter
    [field.db_value], whose result is discarded. *)
Class Adapters := {
  py_float : string → result unit;
  db_value : Field → pyvalue → result unit;
}.

(** ** base64 *)

(** [table_a2b_base64] of CPython's binascii: the 6-bit value of an
    alphabet character, 0 for the pad and 255 (-1 as unsigned char) for
    everything else. *)
Definition table_a2b_base64 (c : ascii) : N :=
  if between 65 90 c then code c - 65
  else if between 97 122 c then code c - 71
  else if between 48 57 c then code c + 4
  else if (code c =? 43)%N then 62
  else if (code c =? 47)%N then 63
  else if (code c =? 61)%N then 0
  else 255.

Definition BASE64_PAD : ascii := "=".

(** [binascii.a2b_base64(data)] in its default, non-strict mode (CPython
    3.11 and later): characters outside the alphabet are skipped, pads
    are skipped unless they complete a quad, and input left in the middle
    of a quad is an error.  The bytes written so far are returned in
    front of what the rest of the input yields. *)
Fixpoint a2b_base64_loop (s : string) (quad_pos leftchar pads : N) : result string :=
  match s with
  | EmptyString =>
      if (quad_pos =? 0)%N then Ok EmptyString
      else if (quad_pos =? 1)%N
      then Raise (BinasciiError "Invalid base64-encoded string: number of data characters cannot be 1 more than a multiple of 4")
      else Raise (BinasciiError "Incorrect padding")
  | String c s' =>
      if bool_decide (c = BASE64_PAD) then
        if (2 <=? quad_pos)%N then
          if (4 <=? quad_pos + (pads + 1))%N then Ok EmptyString
          else a2b_base64_loop s' quad_pos leftchar (pads + 1)
        else a2b_base64_loop s' quad_pos leftchar pads
      else
        let this_ch := table_a2b_base64 c in
        if (64 <=? this_ch)%N then a2b_base64_loop s' quad_pos leftchar pads
        else if (quad_pos =? 0)%N then
          a2b_base64_loop s' 1 this_ch 0
        else if (quad_pos =? 1)%N then
          do r <~ a2b_base64_loop s' 2 (N.land this_ch 15) 0;
          Ok (String (ascii_of_N (N.lor (N.shiftl leftchar 2) (N.shiftr this_ch 4))) r)
        else if (quad_pos =? 2)%N then
          do r <~ a2b_base64_loop s' 3 (N.land this_ch 3) 0;
          Ok (String (ascii_of_N (N.lor (N.shiftl leftchar 4) (N.shiftr this_ch 2))) r)
        else
          do r <~ a2b_base64_loop s' 0 0 0;
          Ok (String (ascii_of_N (N.lor (N.shiftl leftchar 6) this_ch)) r)
  end.

Definition a2b_base64 (data : string) : result string := a2b_base64_loop data 0 0 0.

(** [base64.b64decode(s)] on a [str]: the text is first encoded as ASCII. *)
Definition b64decode (s : string) : result string :=
  if str_forall (between 0 127) s then a2b_base64 s
  else Raise (ValueError "string argument should contain only ASCII characters").

(** [table_b2a_base64] *)
Definition table_b2a_base64 (n : N) : ascii :=
  if (n <? 26)%N then ascii_of_N (n + 65)
  else if (n <? 52)%N then ascii_of_N (n + 71)
  else if (n <? 62)%N then ascii_of_N (n - 4)
  else if (n =? 62)%N then "+"%char
  else "/"%char.

(** The four 6-bit groups of three bytes [x], [y], [z]. *)
Definition sextet0 (x : N) : N := N.shiftr x 2.
Definition sextet1 (x y : N) : N := N.lor (N.shiftl (N.land x 3) 4) (N.shiftr y 4).
Definition sextet2 (y z : N) : N := N.lor (N.shiftl (N.land y 15) 2) (N.shiftr z 6).
Definition sextet3 (z : N) : N := N.land z 63.

(** [base64.b64encode(data)], by groups of three bytes; a last group of
    one or two bytes is filled with zero bits and padded. *)
Fixpoint b64encode (data : string) : string :=
  match data with
  | EmptyString => EmptyString
  | String b0 EmptyString =>
      String (table_b2a_base64 (sextet0 (code b0)))
     (String (table_b2a_base64 (sextet1 (code b0) 0))
     (String BASE64_PAD (String BASE64_PAD EmptyString)))
  | String b0 (String b1 EmptyString) =>
      String (table_b2a_base64 (sextet0 (code b0)))
     (String (table_b2a_base64 (sextet1 (code b0) (code b1)))
     (String (table_b2a_base64 (sextet2 (code b1) 0))
     (String BASE64_PAD EmptyString)))
  | String b0 (String b1 (String b2 rest)) =>
      String (table_b2a_base64 (sextet0 (code b0)))
     (String (table_b2a_base64 (sextet1 (code b0) (code b1)))
     (String (table_b2a_base64 (sextet2 (code b1) (code b2)))
     (String (table_b2a_base64 (sextet3 (code b2)))
     (b64encode rest))))
  end.

(** Bounded search over [0, k), to settle facts about bytes and 6-bit
    groups by evaluation. *)
Fixpoint N_below (k : nat) (p : N → bool) : bool :=
  match k with
  | O => true
  | S k' => p (N.of_nat k') && N_below k' p
  end.

(** The bit identities by which decoding undoes encoding, for bytes [x]
    and [y]. *)
Definition sextet_checks (x y : N) : bool :=
  ((sextet0 x <? 64) && (sextet1 x y <? 64) && (sextet2 x y <? 64) && (sextet3 x <? 64)
   && (N.lor (N.shiftl (sextet0 x) 2) (N.shiftr (sextet1 x y) 4) =? x)
   && (N.land (sextet1 x y) 15 =? N.shiftr y 4)
   && (N.shiftr (sextet2 x y) 2 =? N.land x 15)
   && (N.lor (N.shiftl (N.shiftr x 4) 4) (N.land x 15) =? x)
   && (N.land (sextet2 x y) 3 =? N.shiftr y 6)
   && (N.lor (N.shiftl (N.shiftr x 6) 6) (sextet3 x) =? x)
   && (N.lor (N.shiftl (sextet0 x) 2) (N.shiftr (sextet1 x 0) 4) =? x)
   && (N.shiftr (sextet2 x 0) 2 =? N.land x 15))%N.

(** Characters the decoder does not skip: the alphabet and the pad. *)
Definition b64_significant (c : ascii) : bool :=
  bool_decide (c = BASE64_PAD) || (table_a2b_base64 c <? 64)%N.

(** The characters of the base64 alphabet. *)
Definition b64_alphabet (c : ascii) : bool :=
  negb (bool_decide (c = BASE64_PAD)) && (table_a2b_base64 c <? 64)%N.

(** Text in the base64 grammar of RFC 4648: alphabet characters in groups
    of four, the last group possibly ending in one or two pads. *)
Fixpoint valid_base64 (s : string) : bool :=
  match s with
  | EmptyString => true
  | String c0 (String c1 (String c2 (String c3 rest))) =>
      b64_alphabet c0 && b64_alphabet c1 &&
      match rest with
      | EmptyString =>
          (b64_alphabet c2 && b64_alphabet c3)
          || (b64_alphabet c2 && bool_decide (c3 = BASE64_PAD))
          || (bool_decide (c2 = BASE64_PAD) && bool_decide (c3 = BASE64_PAD))
      | _ => b64_alphabet c2 && b64_alphabet c3 && valid_base64 rest
      end
  | _ => false
  end.

(** ** Value codec *)

Definition is_null_text (value : string) : bool := str_eqb (strip (lower value)) "null".

Definition bool_tokens : list string := ["1"; "0"; "true"; "false"; "t"; "f"].
Definition true_tokens : list string := ["1"; "t"; "true"].

Definition str_in (s : string) (l : list string) : bool := bool_decide (s ∈ l).

(** [minimal_validate_field(field, value)]: the pair [(value, err)], or the
    exception that leaves the function. *)
Definition minimal_validate_field `{Adapters} (field : Field) (value : string)
  : result (pyvalue * option string) :=
  if is_null_text value then
    if negb (field_null field)
    then Ok (PStr "NULL", Some "Column does not allow NULL values.")
    else Ok (PNone, None)
  else
    let checked : result (pyvalue * option string) :=
      if isinstance_IntegerField (field_class field) && negb (isdigit value) then
        Ok (PStr value, Some "Value is not a number.")
      else if isinstance_FloatField (field_class field) then
        try_except (do _u <~ py_float value; Ok (PStr value, None))
                   (fun _ => Ok (PStr value, Some "Value is not a numeric/real."))
      else if isinstance_BooleanField (field_class field) then
        if negb (str_in (lower value) bool_tokens)
        then Ok (PStr value, Some "Value must be 1, 0, true, false, t or f.")
        else Ok (PBool (str_in (lower value) true_tokens), None)
      else if isinstance_BlobField (field_class field) then
        try_except (do b <~ b64decode value; Ok (PBytes b, None))
                   (fun _ => Ok (PStr value, Some "Value must be base64-encoded binary data."))
      else Ok (PStr value, None)
    in
    do r <~ checked;
    match r with
    | (v, Some err) => Ok (v, Some err)
    | (v, None) =>
        try_except (do _u <~ db_value field v; Ok (v, None))
                   (fun exc => Ok (v, Some (str_exn exc)))
    end.

(** Adapters for closed examples: [float] on plain decimal literals (an
    optional sign, digits, at most one point), integer fields adapting
    text with [int], every other value stored as it is. *)
Definition decimal_literal (s : string) : bool :=
  let body := match strip s with
              | String c r => if bool_decide (c = "-"%char) || bool_decide (c = "+"%char)
                              then r else String c r
              | EmptyString => EmptyString
              end in
  str_forall (fun c => is_ascii_digit c || bool_decide (c = "."%char)) body
  && str_nonempty (str_filter is_ascii_digit body)
  && (String.length (str_filter (fun c => bool_decide (c = "."%char)) body) <=? 1)%nat.

Definition reference_adapters : Adapters := {|
  py_float s :=
    if decimal_literal s then Ok tt
    else Raise (ValueError ("could not convert string to float: '" +:+ s +:+ "'"));
  db_value f v :=
    match v with
    | PStr s => if isinstance_IntegerField (field_class f)
                then do _n <~ int_of_digits s; Ok tt
                else Ok tt
    | _ => Ok tt
    end;
|}.

Definition NOT_BASE64 : string := "Value must be base64-encoded binary data.".
Definition NOT_NULLABLE : string := "Column does not allow NULL values.".

Definition sample_text_field : Field :=
  {| field_name := "note"; field_class := TextField; field_null := false |}.

Definition sample_blob_field : Field :=
  {| field_name := "payload"; field_class := BlobField; field_null := false |}.

(** [if err:] on the second component: [None] and the empty string are
    falsy. *)
Definition err_truthy (err : option string) : bool :=
  match err with
  | Some msg => str_nonempty msg
  | None => false
  end.

(** ** Primary-key codec *)

(** [str(v)] for the values of [pyvalue]. *)
Definition bytes_repr_quote (b : string) : ascii :=
  if negb (str_forall (fun c => negb (bool_decide (c = "'"%char))) b)
     && str_forall (fun c => negb (bool_decide (c = DQUOTE))) b
  then DQUOTE else "'"%char.

Fixpoint bytes_repr_body (quote : ascii) (b : string) : string :=
  match b with
  | EmptyString => EmptyString
  | String c b' =>
      let rest := bytes_repr_body quote b' in
      if bool_decide (c = quote) || bool_decide (c = "\"%char)
      then String "\" (String c rest)
      else if (code c =? 9)%N then "\t" +:+ rest
      else if (code c =? 10)%N then "\n" +:+ rest
      else if (code c =? 13)%N then "\r" +:+ rest
      else if (code c <? 32)%N || (127 <=? code c)%N
      then "\x" +:+ String (hex_digit (code c / 16)) (String (hex_digit (code c mod 16)) rest)
      else String c rest
  end.

Definition bytes_repr (b : string) : string :=
  let q := bytes_repr_quote b in
  "b" +:+ String q (bytes_repr_body q b) +:+ String q "".

Definition py_str (v : pyvalue) : string :=
  match v with
  | PNone => "None"
  | PBool true => "True"
  | PBool false => "False"
  | PInt z => NilZero.string_of_int (Z.to_int z)
  | PStr s => s
  | PBytes b => bytes_repr b
  end.

(** [model._meta.primary_key]: a field, a [CompositeKey] over field names,
    or [False] when the table has none. *)
Inductive PrimaryKey :=
| SingleKey (pk : Field)
| CompositeKey (field_names : list string)
| NoKey.

(** A peewee expression, as far as [decode_pk] builds them. *)
Inductive Expression :=
| ExprEq (lhs : Field) (rhs : pyvalue)
| ExprAnd (lhs rhs : Expression)
| ExprLit (b : bool).

Record Model := {
  meta_primary_key : PrimaryKey;
  meta_columns : gmap string Field;   (* model._meta.columns *)
  meta_indexes : list (list string * bool);
}.

(** [d[k]] on a dict *)
Definition getitem {V} (d : gmap string V) (k : string) : result V :=
  match d !! k with
  | Some v => Ok v
  | None => Raise (KeyError k)
  end.

(** [[f x for x in l]] when [f] may raise: stops at the first exception. *)
Fixpoint comprehension {A B} (f : A → result B) (l : list A) : result (list B) :=
  match l with
  | [] => Ok []
  | x :: l' => do y <~ f x; do ys <~ comprehension f l'; Ok (y :: ys)
  end.

(** [sub in s] *)
Fixpoint str_contains (sub s : string) : bool :=
  is_prefix sub s ||
  match s with
  | EmptyString => false
  | String _ s' => str_contains sub s'
  end.

Definition UNEDITABLE : string := "__uneditable__".
Definition PK_DELIMITER : string := ":::".

(** [encode_pk(row, pk)] *)
Definition encode_pk (row : gmap string pyvalue) (pk : PrimaryKey) : result pyvalue :=
  match pk with
  | CompositeKey field_names =>
      try_except
        (do parts <~ comprehension (fun k => do v <~ getitem row k; Ok (py_str v)) field_names;
         Ok (PStr (str_join PK_DELIMITER parts)))
        (fun _ => Ok (PStr UNEDITABLE))
  | SingleKey pk => getitem row (field_name pk)
  | NoKey => Raise (AttributeError "'bool' object has no attribute 'column_name'")
  end.

(** [reduce(operator.and_, expressions)] *)
Definition reduce_and (expressions : list Expression) : result Expression :=
  match expressions with
  | [] => Raise (TypeError "reduce() of empty iterable with no initial value")
  | e :: es => Ok (fold_left ExprAnd es e)
  end.

(** [zip(fields, values)] *)
Fixpoint zip {A B} (l : list A) (k : list B) : list (A * B) :=
  match l, k with
  | a :: l', b :: k' => (a, b) :: zip l' k'
  | _, _ => []
  end.

(** [decode_pk(model, pk_data)] *)
Definition decode_pk (model : Model) (pk_data : pyvalue) : result Expression :=
  match meta_primary_key model with
  | CompositeKey field_names =>
      do fields <~ comprehension (getitem (meta_columns model)) field_names;
      do values <~ match pk_data with
                   | PStr s => Ok (str_split PK_DELIMITER s)
                   | PBytes _ => Raise (TypeError "a bytes-like object is required, not 'str'")
                   | _ => Raise (AttributeError "object has no attribute 'split'")
                   end;
      reduce_and (map (fun fv => ExprEq (fst fv) (PStr (snd fv))) (zip fields values))
  | SingleKey pk => Ok (ExprEq pk pk_data)
  | NoKey =>
      (* [False == pk_data] *)
      Ok (ExprLit match pk_data with
                  | PBool false | PInt 0 => true
                  | _ => false
                  end)
  end.

(** [pk_display(table_pk, pk)]: the pieces of a composite token. *)
Definition pk_display (table_pk : PrimaryKey) (pk : string) : list string :=
  match table_pk with
  | CompositeKey _ => str_split PK_DELIMITER pk
  | _ => [pk]
  end.

(** The rows an expression selects: a row satisfies [field == v] when it
    stores [v] in the field's column. *)
Fixpoint expr_holds (e : Expression) (row : gmap string pyvalue) : bool :=
  match e with
  | ExprEq f v => bool_decide (row !! field_name f = Some v)
  | ExprAnd a b => expr_holds a row && expr_holds b row
  | ExprLit b => b
  end.

Definition select_where (e : Expression) (rows : list (gmap string pyvalue))
  : list (gmap string pyvalue) :=
  filter (fun row => expr_holds e row = true) rows.

(** Text without a colon. *)
Definition colon_free (s : string) : bool :=
  str_forall (λ c, negb (bool_decide (c = ":"%char))) s.

(** Models for closed examples: a table keyed by (a, b) and a table with
    an auto-generated id. *)
Definition field_a : Field :=
  {| field_name := "a"; field_class := TextField; field_null := false |}.
Definition field_b : Field :=
  {| field_name := "b"; field_class := TextField; field_null := false |}.

Definition model_ab : Model :=
  {| meta_primary_key := CompositeKey ["a"; "b"];
     meta_columns := {[ "a" := field_a; "b" := field_b ]};
     meta_indexes := [] |}.

Definition sample_id_field : Field :=
  {| field_name := "id"; field_class := AutoField; field_null := false |}.

Definition sample_id_model : Model :=
  {| meta_primary_key := SingleKey sample_id_field;
     meta_columns := {[ "id" := sample_id_field ]};
     meta_indexes := [] |}.

(** ** Pagination of [table_content] *)

Definition ROWS_PER_PAGE : Z := 50.

(** [float(n)] on an [int]: the conversion raises [OverflowError] when
    [n] rounds to 2^1024 or beyond, which is from 2^1024 - 2^970 on. *)
Definition FLOAT_OVERFLOW : Z := 2 ^ 1024 - 2 ^ 970.

Definition float_fits (n : Z) : bool := Z.abs n <? FLOAT_OVERFLOW.

(** [int(math.ceil(total_rows / float(rows_per_page)))] once both
    operands are converted.  The quotient is taken exactly; the binary64
    division of the source agrees with it for a row count in [0, 2^53)
    and a positive page size. *)
Definition ceil_div (total_rows rows_per_page : Z) : Z :=
  - ((- total_rows) / rows_per_page).

Record Pagination := {
  page : Z;
  total_pages : Z;
  previous_page : option Z;
  next_page : option Z;
}.

(** [d.get(k) or ""] *)
Definition get_or_empty (v : option string) : string :=
  match v with
  | Some s => s
  | None => ""
  end.

(** The page arithmetic at the head of [table_content]: [page_arg] is
    [request.args.get("page")], [total_rows] the row count of the table. *)
Definition table_content_pagination (page_arg : option string)
    (total_rows rows_per_page : Z) : result Pagination :=
  let page_number := get_or_empty page_arg in
  let page_number := if str_eqb page_number "last" then "1000000" else page_number in
  do page_number <~ (if isdigit page_number then int_of_digits page_number else Ok 1);
  do total_pages <~ (if negb (float_fits rows_per_page) || negb (float_fits total_rows)
                     then Raise (OverflowError "int too large to convert to float")
                     else if rows_per_page =? 0
                     then Raise (ZeroDivisionError "float division by zero")
                     else Ok (Z.max 1 (ceil_div total_rows rows_per_page)));
  let page_number := Z.min page_number total_pages in
  let page_number := Z.max page_number 1 in
  Ok {| page := page_number;
        total_pages := total_pages;
        previous_page := if 1 <? page_number then Some (page_number - 1) else None;
        next_page := if page_number <? total_pages then Some (page_number + 1) else None |}.

(** ** The database, the model cache and the requests *)

(** peewee's [ColumnMetadata] and [IndexMetadata] *)
Record ColumnMetadata := {
  column_name : string;      (* column.name *)
  data_type : string;
  null : bool;
  primary_key : bool;
  column_default : option string;
}.

Record IndexMetadata := {
  index_name : string;
  index_columns : list string;
  index_unique : bool;
}.

Global Instance ColumnMetadata_eq_dec : EqDecision ColumnMetadata.
Proof. solve_decision. Defined.
Global Instance IndexMetadata_eq_dec : EqDecision IndexMetadata.
Proof. solve_decision. Defined.

(** A table of the live database: what the catalog says and the rows. *)
Record Table := {
  columns : list ColumnMetadata;
  indexes : list IndexMetadata;
  rows : list (gmap string pyvalue);
}.

(** The column object [add_column] builds. *)
Record NewColumn := {
  new_class : FieldClass;
  new_null : bool;
  new_default : option string;
  new_references : option (string * Field);
}.

(** The operations of the schema migrator. *)
Inductive Migration :=
| AddColumnOp (table new_name : string) (col : NewColumn)
| DropColumnOp (table dropped : string)
| RenameColumnOp (table old_name new_name : string)
| AddIndexOp (table : string) (index_columns : list string) (unique : bool)
| DropIndexOp (table index_name : string).

(** The database collaborator: running a migration in its transaction
    (the new database, or the error with the database as it was),
    generating the model of a table by introspection, and executing row
    statements inside [dataset.transaction()]. *)
Class Engine := {
  migrate : Migration → gmap string Table → result (gmap string Table);
  generate_model : string → Table → Model;
  execute_insert : string → gmap string pyvalue → gmap string Table
                   → result (Z * gmap string Table);
  execute_update : string → gmap string pyvalue → Expression → gmap string Table
                   → result (Z * gmap string Table);
  model_get : string → Expression → gmap string Table → result (gmap string pyvalue);
}.

Inductive Statement :=
| MigrateStmt (op : Migration)
| InsertStmt (table : string) (values : gmap string pyvalue)
| UpdateStmt (table : string) (values : gmap string pyvalue) (where_ : Expression).

(** The state the views act on: the live database, the cache of generated
    models ([dataset._models]), the statements handed to the engine and the
    flashed messages, oldest first. *)
Record World := {
  database : gmap string Table;
  models : gmap string Model;
  executed : list Statement;
  flashes : list (string * string);
}.

Definition set_database (db : gmap string Table) (w : World) : World :=
  {| database := db; models := models w; executed := executed w; flashes := flashes w |}.
Definition set_models (ms : gmap string Model) (w : World) : World :=
  {| database := database w; models := ms; executed := executed w; flashes := flashes w |}.
Definition log_statement (s : Statement) (w : World) : World :=
  {| database := database w; models := models w;
     executed := executed w ++ [s]; flashes := flashes w |}.

(** [flash(message, category)] *)
Definition flash (message category : string) (w : World) : World :=
  {| database := database w; models := models w;
     executed := executed w; flashes := flashes w ++ [(message, category)] |}.

(** [dataset.update_cache(table)]: the model of the table is generated anew
    from the live database.  (The models of related tables, which the
    call regenerates as well, are not followed.) *)
Definition update_cache `{Engine} (table : string) (w : World) : World :=
  match database w !! table with
  | Some t => set_models (<[table := generate_model table t]> (models w)) w
  | None => w
  end.

(** [migrate(op)]: the statement is handed to the engine; the database
    changes when it succeeds. *)
Definition run_migrate `{Engine} (op : Migration) (w : World) : result unit * World :=
  let w := log_statement (MigrateStmt op) w in
  match migrate op (database w) with
  | Ok db => (Ok tt, set_database db w)
  | Raise e => (Raise e, w)
  end.

Inductive Method := GET | POST.

Global Instance Method_eq_dec : EqDecision Method.
Proof. solve_decision. Defined.

(** A request: the method and the two multi-dicts, each as the list of
    its (key, value) pairs in arrival order. *)
Record Request := {
  method : Method;
  form : list (string * string);
  args : list (string * string);
}.

(** [md.get(key)]: the first value of the key. *)
Fixpoint md_get (md : list (string * string)) (key : string) : option string :=
  match md with
  | [] => None
  | (k, v) :: rest => if bool_decide (k = key) then Some v else md_get rest key
  end.

(** [md.getlist(key)]: all values of the key. *)
Fixpoint md_getlist (md : list (string * string)) (key : string) : list string :=
  match md with
  | [] => []
  | (k, v) :: rest =>
      if bool_decide (k = key) then v :: md_getlist rest key else md_getlist rest key
  end.

(** [md.items()]: each key once, with its first value, in the order the
    keys first arrived. *)
Fixpoint md_items_go (seen : gset string) (md : list (string * string))
  : list (string * string) :=
  match md with
  | [] => []
  | (k, v) :: rest =>
      if bool_decide (k ∈ seen) then md_items_go seen rest
      else (k, v) :: md_items_go ({[k]} ∪ seen) rest
  end.

Definition md_items (md : list (string * string)) : list (string * string) :=
  md_items_go ∅ md.

(** [get_request_data()] *)
Definition get_request_data (request : Request) : list (string * string) :=
  match method request with
  | POST => form request
  | GET => args request
  end.

(** Truth value of [d.get(key, False)] and of [d.get(key)]. *)
Definition truthy (v : option string) : bool :=
  match v with
  | Some s => str_nonempty s
  | None => false
  end.

(** What the template receives from the row forms. *)
Record Context := {
  ctx_row : gmap string pyvalue;
  ctx_edited : gset string;
  ctx_errors : gmap string string;
}.

Definition no_context : Context :=
  {| ctx_row := ∅; ctx_edited := ∅; ctx_errors := ∅ |}.

Inductive Response :=
| Redirect (endpoint : string) (page_param : option string)
| RedirectToPrevious (table : string)
| Render (template : string) (context : Context)
| Abort (status : Z).

Definition quoted (s : string) : string := String DQUOTE (s +:+ String DQUOTE "").

(** [require_table]: 404 unless the table is in [dataset.tables]. *)
Definition require_table (table : string)
    (view : World → result Response * World) (w : World) : result Response * World :=
  match database w !! table with
  | None => (Ok (Abort 404), w)
  | Some _ => view w
  end.

(** [dataset.get_columns(file, table)] and [dataset.get_indexes(file, table)] *)
Definition get_columns (table : string) (w : World) : list ColumnMetadata :=
  match database w !! table with
  | Some t => columns t
  | None => []
  end.

Definition get_indexes (table : string) (w : World) : list IndexMetadata :=
  match database w !! table with
  | Some t => indexes t
  | None => []
  end.

(** ** Structural views *)

(** [column_mapping] of [add_column] *)
Definition column_mapping : list (string * FieldClass) :=
  [("TEXT", TextField); ("INTEGER", IntegerField); ("REAL", FloatField);
   ("BLOB", BlobField); ("JSON", JsonField); ("BOOL", BooleanField);
   ("DATETIME", DateTimeField); ("DATE", DateField); ("DECIMAL", DecimalField);
   ("TIME", TimeField); ("VARCHAR", CharField)].

Fixpoint assoc {V} (l : list (string * V)) (k : string) : option V :=
  match l with
  | [] => None
  | (k', v) :: rest => if bool_decide (k' = k) then Some v else assoc rest k
  end.

(** The [try] body of [add_column] up to the migration: the column object,
    a plain one or a foreign key to [fk_table.fk_field]. *)
Definition build_column (w : World) (cls : FieldClass)
    (fk_table fk_field nullable : option string) (default : option string)
  : result NewColumn :=
  if negb (truthy fk_table) then
    Ok {| new_class := cls; new_null := truthy nullable;
          new_default := default; new_references := None |}
  else
    do m <~ getitem (models w) (get_or_empty fk_table);
    do fk <~ getitem (meta_columns m) (get_or_empty fk_field);
    Ok {| new_class := ForeignKeyField; new_null := truthy nullable;
          new_default := default;
          new_references := Some (get_or_empty fk_table, fk) |}.

(** [add_column(file, table)] *)
Definition add_column `{Engine} (table : string) (request : Request) : World → result Response * World :=
  require_table table (fun w =>
    let request_data := get_request_data request in
    let col_type := md_get request_data "type" in
    let name := get_or_empty (md_get request_data "name") in
    let fk_table := md_get request_data "fk_table" in
    let fk_field := md_get request_data "fk_field" in
    let nullable := md_get request_data "option_null" in
    let use_default := md_get request_data "use_default" in
    let default := if truthy use_default then md_get request_data "default_value" else None in
    let page := (Ok (Render "add_column.html" no_context)) in
    match method request with
    | GET => (page, w)
    | POST =>
        match (if str_nonempty name
               then col_type ≫= assoc column_mapping else None) with
        | Some cls =>
            let attempt :=
              match build_column w cls fk_table fk_field nullable default with
              | Ok col => run_migrate (AddColumnOp table name col) w
              | Raise e => (Raise e, w)
              end in
            match attempt with
            | (Raise exc, w) =>
                (page, flash ("Error attempting to add column " +:+ quoted name
                              +:+ ": " +:+ str_exn exc) "danger" w)
            | (Ok _, w) =>
                let w := flash ("Column " +:+ quoted name +:+ " was added successfully!")
                               "success" w in
                let w := update_cache table w in
                (Ok (Redirect "table_structure" None), w)
            end
        | None => (page, flash "Name and column type are required." "danger" w)
        end
    end).

(** [drop_column(file, table)] *)
Definition drop_column `{Engine} (table : string) (request : Request) : World → result Response * World :=
  require_table table (fun w =>
    let request_data := get_request_data request in
    let name := get_or_empty (md_get request_data "name") in
    let columns := get_columns table w in
    let column_names := map column_name columns in
    let page := Ok (Render "drop_column.html" no_context) in
    match method request with
    | GET => (page, w)
    | POST =>
        if bool_decide (name ∈ column_names) then
          match run_migrate (DropColumnOp table name) w with
          | (Raise exc, w) =>
              (page, flash ("Error attempting to drop column " +:+ quoted name
                            +:+ ": " +:+ str_exn exc) "danger" w)
          | (Ok _, w) =>
              let w := flash ("Column " +:+ quoted name +:+ " was dropped successfully!")
                             "success" w in
              let w := update_cache table w in
              (Ok (Redirect "table_structure" None), w)
          end
        else (page, flash "Name is required." "danger" w)
    end).

Definition RENAME_CONFLICT : string :=
  "Column name is required and cannot conflict with an existing column's name.".

(** [rename_column(file, table)] *)
Definition rename_column `{Engine} (table : string) (request : Request) : World → result Response * World :=
  require_table table (fun w =>
    let request_data := get_request_data request in
    let rename := get_or_empty (md_get request_data "rename") in
    let rename_to := get_or_empty (md_get request_data "rename_to") in
    let columns := get_columns table w in
    let column_names := map column_name columns in
    let page := Ok (Render "rename_column.html" no_context) in
    match method request with
    | GET => (page, w)
    | POST =>
        if bool_decide (rename ∈ column_names) && negb (bool_decide (rename_to ∈ column_names))
        then
          match run_migrate (RenameColumnOp table rename rename_to) w with
          | (Raise exc, w) =>
              (page, flash ("Error attempting to rename column " +:+ quoted rename
                            +:+ ": " +:+ str_exn exc) "danger" w)
          | (Ok _, w) =>
              let w := flash ("Column " +:+ quoted rename +:+ " was renamed successfully!")
                             "success" w in
              let w := update_cache table w in
              (Ok (Redirect "table_structure" None), w)
          end
        else (page, flash RENAME_CONFLICT "danger" w)
    end).

(** The objects whose [_migrator] attribute the index views read: the
    dataset has one, a list has not. *)
Inductive Migrator := SchemaMigrator.

Inductive PyObject :=
| DataSetObject
| ListObject (items : list IndexMetadata).

Definition getattr_migrator (o : PyObject) : result Migrator :=
  match o with
  | DataSetObject => Ok SchemaMigrator
  | ListObject _ => Raise (AttributeError "'list' object has no attribute '_migrator'")
  end.

(** [add_index(file, table)] *)
Definition add_index `{Engine} (table : string) (request : Request) : World → result Response * World :=
  require_table table (fun w =>
    let request_data := get_request_data request in
    let indexed_columns := md_getlist request_data "indexed_columns" in
    let unique := truthy (md_get request_data "unique") in
    let page := Ok (Render "add_index.html" no_context) in
    match method request with
    | GET => (page, w)
    | POST =>
        match indexed_columns with
        | _ :: _ =>
            let attempt :=
              match getattr_migrator DataSetObject with
              | Ok _migrator => run_migrate (AddIndexOp table indexed_columns unique) w
              | Raise e => (Raise e, w)
              end in
            match attempt with
            | (Raise exc, w) =>
                (page, flash ("Error attempting to create index: " +:+ str_exn exc) "danger" w)
            | (Ok _, w) =>
                let w := flash "Index created successfully." "success" w in
                (Ok (Redirect "table_structure" None), w)
            end
        | [] => (page, flash "One or more columns must be selected." "danger" w)
        end
    end).

(** [drop_index(file, table)] *)
Definition drop_index `{Engine} (table : string) (request : Request) : World → result Response * World :=
  require_table table (fun w =>
    let request_data := get_request_data request in
    let name := get_or_empty (md_get request_data "name") in
    let indexes := get_indexes table w in
    let index_names := map index_name indexes in
    let page := Ok (Render "drop_index.html" no_context) in
    match method request with
    | GET => (page, w)
    | POST =>
        if bool_decide (name ∈ index_names) then
          let attempt :=
            match getattr_migrator (ListObject indexes) with
            | Ok _migrator => run_migrate (DropIndexOp table name) w
            | Raise e => (Raise e, w)
            end in
          match attempt with
          | (Raise exc, w) =>
              (page, flash ("Error attempting to drop index: " +:+ str_exn exc) "danger" w)
          | (Ok _, w) =>
              let w := flash ("Index " +:+ quoted name +:+ " was dropped successfully!")
                             "success" w in
              (Ok (Redirect "table_structure" None), w)
          end
        else (page, flash "Index name is required." "danger" w)
    end).

(** ** Row views *)

(** The variables of the form loop: [edited], [row], [errors] and the
    dict of validated values ([insert] or [update]).  The source keys
    that dict by the field [model._meta.columns[column.name]]; it is keyed
    here by [column.name], the column the field writes. *)
Record FormState := {
  st_edited : gset string;
  st_row : gmap string pyvalue;
  st_errors : gmap string string;
  st_values : gmap string pyvalue;
}.

(** [for key, value in request.form.items(): ...], the loop that
    [table_insert] and [table_update] both run. *)
Fixpoint form_loop `{Adapters} (model : Model) (col_dict : gmap string ColumnMetadata)
    (items : list (string * string)) (st : FormState) : result FormState :=
  match items with
  | [] => Ok st
  | (key, value) :: rest =>
      match col_dict !! key with
      | None => form_loop model col_dict rest st
      | Some column =>
          let edited := {[column_name column]} ∪ st_edited st in
          let row := <[column_name column := PStr value]> (st_row st) in
          do field <~ getitem (meta_columns model) (column_name column);
          do checked <~ minimal_validate_field field value;
          if err_truthy (snd checked) then
            form_loop model col_dict rest
              {| st_edited := edited; st_row := row;
                 st_errors := <[key := get_or_empty (snd checked)]> (st_errors st);
                 st_values := st_values st |}
          else
            form_loop model col_dict rest
              {| st_edited := edited; st_row := row;
                 st_errors := st_errors st;
                 st_values := <[column_name column := fst checked]> (st_values st) |}
      end
  end.

Definition context_of (st : FormState) : Context :=
  {| ctx_row := st_row st; ctx_edited := st_edited st; ctx_errors := st_errors st |}.

(** [col_dict[column.name] = column] over the columns *)
Definition make_col_dict (columns : list ColumnMetadata) : gmap string ColumnMetadata :=
  foldl (λ d column, <[column_name column := column]> d) ∅ columns.

(** The first loop of [table_insert]: the columns whose field is not an
    [AutoField]. *)
Fixpoint insert_columns (model : Model) (columns : list ColumnMetadata)
  : result (list ColumnMetadata) :=
  match columns with
  | [] => Ok []
  | column :: rest =>
      do field <~ getitem (meta_columns model) (column_name column);
      do kept <~ insert_columns model rest;
      if isinstance_AutoField (field_class field) then Ok kept else Ok (column :: kept)
  end.

Definition INSERT_ERRORS : string :=
  "One or more errors prevented the row being inserted.".

(** [table_insert(file, table)] *)
Definition table_insert `{Engine} `{Adapters} (table : string) (request : Request)
  : World → result Response * World :=
  require_table table (fun w =>
    let w := update_cache table w in
    match getitem (models w) table with
    | Raise e => (Raise e, w)
    | Ok model =>
    match insert_columns model (get_columns table w) with
    | Raise e => (Raise e, w)
    | Ok columns =>
        let col_dict := make_col_dict columns in
        let row := foldl (λ r column, <[column_name column := PStr ""]> r) ∅ columns in
        match method request with
        | GET =>
            (Ok (Render "table_insert.html"
                   {| ctx_row := row; ctx_edited := dom col_dict; ctx_errors := ∅ |}), w)
        | POST =>
            match form_loop model col_dict (md_items (form request))
                    {| st_edited := ∅; st_row := row; st_errors := ∅; st_values := ∅ |} with
            | Raise e => (Raise e, w)
            | Ok st =>
                let page := Ok (Render "table_insert.html" (context_of st)) in
                if negb (bool_decide (st_errors st = ∅)) then
                  (page, flash INSERT_ERRORS "danger" w)
                else if negb (bool_decide (st_values st = ∅)) then
                  let w := log_statement (InsertStmt table (st_values st)) w in
                  match execute_insert table (st_values st) (database w) with
                  | Raise exc => (page, flash ("Insert failed: " +:+ str_exn exc) "danger" w)
                  | Ok (n, db) =>
                      (Ok (Redirect "table_content" (Some "last")),
                       flash ("Successfully inserted record (" +:+ py_str (PInt n) +:+ ").")
                             "success" (set_database db w))
                  end
                else (page, flash "No data was specified to be inserted." "warning" w)
            end
        end
    end end).

(** [str(pk_display(table_pk, pk))]: the token, or the tuple of its pieces
    (string escapes inside the pieces are not followed). *)
Definition pk_repr (table_pk : PrimaryKey) (pk : string) : string :=
  match table_pk with
  | CompositeKey _ =>
      match pk_display table_pk pk with
      | [piece] => "('" +:+ piece +:+ "',)"
      | pieces => "(" +:+ str_join ", " (map (λ p, "'" +:+ p +:+ "'") pieces) +:+ ")"
      end
  | _ => pk
  end.

(** The loop of [table_update] that fills [row] from the fetched object,
    blobs as base64 text. *)
Fixpoint update_row (obj : gmap string pyvalue) (columns : list ColumnMetadata)
    (row : gmap string pyvalue) : result (gmap string pyvalue) :=
  match columns with
  | [] => Ok row
  | column :: rest =>
      do value <~ match obj !! column_name column with
                  | Some v => Ok v
                  | None => Raise (AttributeError ("object has no attribute '"
                                                   +:+ column_name column +:+ "'"))
                  end;
      do shown <~ match value with
                  | PNone => Ok PNone
                  | PBytes b =>
                      if str_eqb (lower (data_type column)) "blob"
                      then Ok (PStr (b64encode b)) else Ok value
                  | _ =>
                      if str_eqb (lower (data_type column)) "blob"
                      then Raise (TypeError "a bytes-like object is required")
                      else Ok value
                  end;
      update_row obj rest (<[column_name column := shown]> row)
  end.

(** The rest of [table_update] once the row [obj] is fetched: the row
    shown, the form loop and the update. *)
Definition table_update_fetched `{Engine} `{Adapters} (table : string) (model : Model)
    (expr : Expression) (obj : gmap string pyvalue) (request : Request) (w : World)
  : result Response * World :=
  let columns := get_columns table w in
  match update_row obj columns ∅ with
  | Raise e => (Raise e, w)
  | Ok row =>
      let col_dict := make_col_dict columns in
      match method request with
      | GET =>
          (Ok (Render "table_update.html"
                 {| ctx_row := row; ctx_edited := ∅; ctx_errors := ∅ |}), w)
      | POST =>
          match form_loop model col_dict (md_items (form request))
                  {| st_edited := ∅; st_row := row; st_errors := ∅; st_values := ∅ |} with
          | Raise e => (Raise e, w)
          | Ok st =>
              let page := Ok (Render "table_update.html" (context_of st)) in
              if negb (bool_decide (st_errors st = ∅)) then
                (page, flash "One or more errors prevented the row being updated."
                             "danger" w)
              else if negb (bool_decide (st_values st = ∅)) then
                let w := log_statement (UpdateStmt table (st_values st) expr) w in
                match execute_update table (st_values st) expr (database w) with
                | Raise exc => (page, flash ("Update failed: " +:+ str_exn exc) "danger" w)
                | Ok (n, db) =>
                    (Ok (RedirectToPrevious table),
                     flash ("Successfully updated " +:+ py_str (PInt n) +:+ " record.")
                           "success" (set_database db w))
                end
              else (page, flash "No data was specified to be updated." "warning" w)
          end
      end
  end.

(** [table_update(file, table, pk)] *)
Definition table_update `{Engine} `{Adapters} (table pk : string) (request : Request)
  : World → result Response * World :=
  require_table table (fun w =>
    let w := update_cache table w in
    match getitem (models w) table with
    | Raise e => (Raise e, w)
    | Ok model =>
        let table_pk := meta_primary_key model in
        match table_pk with
        | NoKey =>
            (Ok (Redirect "table_content" None),
             flash "Table must have a primary key to perform update." "danger" w)
        | _ =>
            if str_eqb pk UNEDITABLE then
              (Ok (Redirect "table_content" None),
               flash "Could not encode primary key to perform update." "danger" w)
            else
              match decode_pk model (PStr pk) with
              | Raise e => (Raise e, w)
              | Ok expr =>
                  match model_get table expr (database w) with
                  | Raise DoesNotExist =>
                      (Ok (Redirect "table_content" None),
                       flash ("Could not fetch row with primary-key "
                              +:+ pk_repr table_pk pk +:+ ".") "danger" w)
                  | Raise e => (Raise e, w)
                  | Ok obj => table_update_fetched table model expr obj request w
                  end
              end
        end
    end).

(** ** A small engine for closed examples *)

Definition class_of_type (data_type : string) (pk : bool) : FieldClass :=
  let t := lower data_type in
  if str_eqb t "integer" then (if pk then AutoField else IntegerField)
  else if str_eqb t "text" then TextField
  else if str_eqb t "blob" then BlobField
  else if str_eqb t "real" then FloatField
  else if str_eqb t "bool" then BooleanField
  else BareField.

Definition type_of_class (cls : FieldClass) : string :=
  match cls with
  | AutoField | BigIntegerField | IntegerField | ForeignKeyField => "INTEGER"
  | FloatField => "REAL"
  | DecimalField => "DECIMAL"
  | CharField => "VARCHAR"
  | TextField => "TEXT"
  | JsonField => "JSON"
  | BlobField => "BLOB"
  | BooleanField => "BOOL"
  | DateField => "DATE"
  | DateTimeField => "DATETIME"
  | TimeField => "TIME"
  | BareField => ""
  end.

Definition field_of_column (c : ColumnMetadata) : Field :=
  {| field_name := column_name c;
     field_class := class_of_type (data_type c) (primary_key c);
     field_null := null c |}.

Definition reference_model (table : string) (t : Table) : Model :=
  {| meta_primary_key :=
       match filter (λ c, primary_key c = true) (columns t) with
       | [] => NoKey
       | [c] => SingleKey (field_of_column c)
       | cs => CompositeKey (map column_name cs)
       end;
     meta_columns :=
       foldl (λ d c, <[column_name c := field_of_column c]> d) ∅ (columns t);
     meta_indexes := map (λ i, (index_columns i, index_unique i)) (indexes t) |}.

Definition with_columns (cs : list ColumnMetadata) (t : Table) : Table :=
  {| columns := cs; indexes := indexes t; rows := rows t |}.
Definition with_indexes (ixs : list IndexMetadata) (t : Table) : Table :=
  {| columns := columns t; indexes := ixs; rows := rows t |}.
Definition with_rows (rs : list (gmap string pyvalue)) (t : Table) : Table :=
  {| columns := columns t; indexes := indexes t; rows := rs |}.

Definition rename_in_column (old_name new_name : string) (c : ColumnMetadata)
  : ColumnMetadata :=
  if str_eqb (column_name c) old_name
  then {| column_name := new_name; data_type := data_type c; null := null c;
          primary_key := primary_key c; column_default := column_default c |}
  else c.

Definition reference_migrate (op : Migration) (db : gmap string Table)
  : result (gmap string Table) :=
  let on_table table (change : Table → result Table) :=
    match db !! table with
    | None => Raise (DatabaseError ("no such table: " +:+ table))
    | Some t => do t' <~ change t; Ok (<[table := t']> db)
    end in
  match op with
  | AddColumnOp table new_name col =>
      on_table table (λ t,
        if negb (new_null col) && negb (bool_decide (is_Some (new_default col)))
        then Raise (ValueError (new_name +:+ " is not null but has no default"))
        else if bool_decide (new_name ∈ map column_name (columns t))
        then Raise (DatabaseError ("duplicate column name: " +:+ new_name))
        else Ok (with_columns
                   (columns t ++ [{| column_name := new_name;
                                     data_type := type_of_class (new_class col);
                                     null := new_null col; primary_key := false;
                                     column_default := new_default col |}]) t))
  | DropColumnOp table dropped =>
      on_table table (λ t,
        if bool_decide (dropped ∈ map column_name (columns t))
        then Ok (with_rows (map (delete dropped) (rows t))
                   (with_columns
                      (filter (λ c, column_name c ≠ dropped) (columns t)) t))
        else Raise (DatabaseError ("no such column: " +:+ dropped)))
  | RenameColumnOp table old_name new_name =>
      on_table table (λ t,
        if bool_decide (old_name ∈ map column_name (columns t))
           && negb (bool_decide (new_name ∈ map column_name (columns t)))
        then Ok (with_columns (map (rename_in_column old_name new_name) (columns t)) t)
        else Raise (DatabaseError ("cannot rename column: " +:+ old_name)))
  | AddIndexOp table cols unique =>
      on_table table (λ t,
        let created := table +:+ "_" +:+ str_join "_" cols in
        if bool_decide (created ∈ map index_name (indexes t))
        then Raise (DatabaseError ("index " +:+ created +:+ " already exists"))
        else if forallb (λ c, bool_decide (c ∈ map column_name (columns t))) cols
        then Ok (with_indexes
                   (indexes t ++ [{| index_name := created;
                                     index_columns := cols;
                                     index_unique := unique |}]) t)
        else Raise (DatabaseError "no such column"))
  | DropIndexOp table dropped =>
      on_table table (λ t,
        if bool_decide (dropped ∈ map index_name (indexes t))
        then Ok (with_indexes (filter (λ i, index_name i ≠ dropped) (indexes t)) t)
        else Raise (DatabaseError ("no such index: " +:+ dropped)))
  end.

Definition reference_insert (table : string) (values : gmap string pyvalue)
    (db : gmap string Table) : result (Z * gmap string Table) :=
  match db !! table with
  | None => Raise (DatabaseError ("no such table: " +:+ table))
  | Some t =>
      Ok (Z.of_nat (length (rows t)) + 1,
          <[table := with_rows (rows t ++ [values]) t]> db)
  end.

(** Matching as the engine does it for tokens that arrive as text: the
    stored value and the right-hand side agree in their string forms. *)
Fixpoint expr_matches (e : Expression) (row : gmap string pyvalue) : bool :=
  match e with
  | ExprEq f v =>
      match row !! field_name f with
      | Some x => str_eqb (py_str x) (py_str v)
      | None => false
      end
  | ExprAnd a b => expr_matches a row && expr_matches b row
  | ExprLit b => b
  end.

Definition reference_update (table : string) (values : gmap string pyvalue)
    (where_ : Expression) (db : gmap string Table) : result (Z * gmap string Table) :=
  match db !! table with
  | None => Raise (DatabaseError ("no such table: " +:+ table))
  | Some t =>
      Ok (Z.of_nat (length (filter (λ r, expr_matches where_ r = true) (rows t))),
          <[table := with_rows
                       (map (λ r, if expr_matches where_ r then values ∪ r else r) (rows t)) t]> db)
  end.

Definition reference_get (table : string) (where_ : Expression)
    (db : gmap string Table) : result (gmap string pyvalue) :=
  match db !! table with
  | None => Raise (DatabaseError ("no such table: " +:+ table))
  | Some t =>
      match filter (λ r, expr_matches where_ r = true) (rows t) with
      | r :: _ => Ok r
      | [] => Raise DoesNotExist
      end
  end.

Definition reference_engine : Engine := {|
  migrate := reference_migrate;
  generate_model := reference_model;
  execute_insert := reference_insert;
  execute_update := reference_update;
  model_get := reference_get;
|}.

(** The example database: a table [t] with columns [id], [a] and [b],
    an index on [a], and two rows. *)
Definition column_id : ColumnMetadata :=
  {| column_name := "id"; data_type := "INTEGER"; null := false;
     primary_key := true; column_default := None |}.
Definition column_a : ColumnMetadata :=
  {| column_name := "a"; data_type := "TEXT"; null := true;
     primary_key := false; column_default := None |}.
Definition column_b : ColumnMetadata :=
  {| column_name := "b"; data_type := "INTEGER"; null := true;
     primary_key := false; column_default := None |}.

Definition example_table : Table :=
  {| columns := [column_id; column_a; column_b];
     indexes := [{| index_name := "t_a"; index_columns := ["a"]; index_unique := false |}];
     rows := [{[ "id" := PInt 1; "a" := PStr "x"; "b" := PInt 10 ]};
              {[ "id" := PInt 2; "a" := PStr "y"; "b" := PInt 20 ]}] |}.

Definition example_world : World :=
  {| database := {[ "t" := example_table ]};
     models := {[ "t" := reference_model "t" example_table ]};
     executed := [];
     flashes := [] |}.

Definition post (fields : list (string * string)) : Request :=
  {| method := POST; form := fields; args := [] |}.

(** The same request with another form. *)
Definition with_form (fields : list (string * string)) (request : Request) : Request :=
  {| method := method request; form := fields; args := args request |}.

(** The column names of a table as a set, and the form entries whose key
    is one of them. *)
Definition column_set (table : string) (w : World) : gset string :=
  list_to_set (map column_name (get_columns table w)).

Definition known_entries (table : string) (w : World) (fields : list (string * string))
  : list (string * string) :=
  filter (λ kv, fst kv ∈ column_set table w) fields.

(** An entry of the form fails validation with message [msg]: its key is a
    column of [col_dict] and the codec returns the (non-empty) error for
    the field of that column. *)
Definition entry_fails `{Adapters} (model : Model) (col_dict : gmap string ColumnMetadata)
    (key value msg : string) : Prop :=
  ∃ column field v,
    col_dict !! key = Some column
    ∧ meta_columns model !! column_name column = Some field
    ∧ minimal_validate_field field value = Ok (v, Some msg)
    ∧ msg ≠ "".

(** * The rest of the application: template filters, the request
      checks, the session and the remaining row and schema views *)

(** ** More of Python's strings *)

(** [s[n:]] and [s[:n]] for [n >= 0] *)
Fixpoint str_drop (n : nat) (s : string) : string :=
  match n, s with
  | O, _ => s
  | S n', String _ s' => str_drop n' s'
  | S _, EmptyString => EmptyString
  end.

Fixpoint str_take (n : nat) (s : string) : string :=
  match n, s with
  | S n', String c s' => String c (str_take n' s')
  | _, _ => EmptyString
  end.

(** [s.startswith(prefix)] and [s.endswith(suffix)] *)
Definition startswith (s prefix : string) : bool := is_prefix prefix s.

Definition endswith (s suffix : string) : bool :=
  (String.length suffix <=? String.length s)%nat
  && str_eqb (str_drop (String.length s - String.length suffix) s) suffix.

(** [s.lstrip(chars)], [s.rstrip(chars)] and [s.strip(chars)], the set
    [chars] given by its membership test. *)
Fixpoint lstrip_chars (p : ascii → bool) (s : string) : string :=
  match s with
  | EmptyString => EmptyString
  | String c s' => if p c then lstrip_chars p s' else s
  end.

Fixpoint rstrip_chars (p : ascii → bool) (s : string) : string :=
  match s with
  | EmptyString => EmptyString
  | String c s' =>
      match rstrip_chars p s' with
      | EmptyString => if p c then EmptyString else String c EmptyString
      | r => String c r
      end
  end.

Definition strip_chars (p : ascii → bool) (s : string) : string :=
  lstrip_chars p (rstrip_chars p s).

Definition is_char (x : ascii) (c : ascii) : bool := bool_decide (c = x).

(** [s.rsplit(sep, 1)[0]] for a one-character [sep]: the text before the
    last [sep], and all of [s] when it holds none. *)
Fixpoint before_last (sep : ascii) (s : string) : option string :=
  match s with
  | EmptyString => None
  | String c s' =>
      match before_last sep s' with
      | Some r => Some (String c r)
      | None => if bool_decide (c = sep) then Some EmptyString else None
      end
  end.

Definition rsplit1_head (sep : ascii) (s : string) : string :=
  match before_last sep s with
  | Some r => r
  | None => s
  end.

(** [c.isalnum()] below 256: the digits in Python's sense and the
    fractions, the ASCII letters and the Latin-1 letters. *)
Definition chr_isalnum (c : ascii) : bool :=
  between 48 57 c || between 65 90 c || between 97 122 c
  || (code c =? 170)%N || between 178 179 c || (code c =? 181)%N
  || between 185 186 c || between 188 190 c
  || between 192 214 c || between 216 246 c || between 248 255 c.

(** [\w] and [\d] of [re] on [str] patterns *)
Definition chr_word (c : ascii) : bool := chr_isalnum c || is_char "_" c.
Definition chr_decimal (c : ascii) : bool := is_ascii_digit c.

(** The superscript digits U+00B2, U+00B3 and U+00B9: [isdigit] accepts
    them, [int] does not. *)
Definition chr_superscript (c : ascii) : bool :=
  (code c =? 178)%N || (code c =? 179)%N || (code c =? 185)%N.

(** [any(p(c) for c in s)] *)
Definition str_exists (p : ascii → bool) (s : string) : bool :=
  negb (str_forall (λ c, negb (p c)) s).

(** Printable characters other than the single quote and the backslash:
    what [repr] copies as it is between single quotes. *)
Definition plain_char (c : ascii) : bool :=
  chr_isprintable c && negb (bool_decide (c = "'"%char))
  && negb (bool_decide (c = "\"%char)).

(** ** The database file *)

(** The name [initialize_app] opens the database under. *)
Definition database_name (path : string) (read_only : bool) : string :=
  if read_only then "file:" +:+ path +:+ "?mode=ro" else "file:" +:+ path.

(** [SqliteDataSet.filename], up to [os.path.realpath]: the path that is
    handed to it. *)
Definition filename (db_file : string) : string :=
  let db_file := if startswith db_file "file:" then str_drop 5 db_file else db_file in
  rsplit1_head "?" db_file.

(** [SqliteDataSet.is_readonly] *)
Definition is_readonly (db_file : string) : bool := endswith db_file "?mode=ro".

(** ** Request checks *)

Inductive Failure :=
| RuntimeError (msg : string).

(** [_check_csrf()]: [origin] is the Origin header of the request, when it
    has one; [None] lets the request through. *)
Definition _check_csrf (origin : option string) (host : string) : option Failure :=
  match origin with
  | Some o =>
      if str_nonempty o then
        if negb (str_eqb (List.last (str_split "//" o) "") host)
        then Some (RuntimeError "CSRF not allowed")
        else None
      else None
  | None => None
  end.

(** [PrefixMiddleware] *)
Record PrefixMiddleware := {
  self_prefix : string;
  self_prefix_len : nat;
}.

Definition PrefixMiddleware_init (url_prefix : string) : PrefixMiddleware :=
  let p := "/" +:+ strip_chars (is_char "/") url_prefix in
  {| self_prefix := p; self_prefix_len := String.length p |}.

Record Environ := {
  PATH_INFO : string;
  SCRIPT_NAME : string;
}.

Inductive WsgiResult :=
| Forwarded (environ : Environ)
| Answered (status : string) (body : string).

Definition PrefixMiddleware_call (self : PrefixMiddleware) (environ : Environ) : WsgiResult :=
  if startswith (PATH_INFO environ) (self_prefix self) then
    Forwarded {| PATH_INFO := str_drop (self_prefix_len self) (PATH_INFO environ);
                 SCRIPT_NAME := self_prefix self |}
  else Answered "404" "URL does not match application prefix.".

(** ** Template filters *)

(** [markupsafe.escape(s)] *)
Definition escape_char (c : ascii) : string :=
  if is_char "&" c then "&amp;"
  else if is_char ">" c then "&gt;"
  else if is_char "<" c then "&lt;"
  else if is_char "'" c then "&#39;"
  else if is_char DQUOTE c then "&#34;"
  else String c EmptyString.

Fixpoint escape (s : string) : string :=
  match s with
  | EmptyString => EmptyString
  | String c s' => escape_char c +:+ escape s'
  end.

(** The markup of a value too long to show. *)
Definition truncated_markup (shown full : string) : string :=
  "<span class=" +:+ quoted "truncated" +:+ ">" +:+ shown +:+ "</span> "
  +:+ "<span class=" +:+ quoted "full" +:+ " style=" +:+ quoted "display:none;" +:+ ">"
  +:+ full +:+ "</span>"
  +:+ "<a class=" +:+ quoted "toggle-value" +:+ " href=" +:+ quoted "#" +:+ ">...</a>".

(** [value_filter(value, max_length)], for [max_length >= 0] *)
Definition value_filter (value : pyvalue) (max_length : nat) : pyvalue :=
  match value with
  | PInt _ | PBool _ | PNone => value
  | PBytes _ | PStr _ =>
      let text := match value with
                  | PBytes b => str_take 1024 (b64encode b)
                  | PStr s => s
                  | _ => EmptyString
                  end in
      let value := escape text in
      if (max_length <? String.length value)%nat
      then PStr (truncated_markup (str_take max_length value) value)
      else PStr value
  end.

(** Characters that open or close markup or an attribute value. *)
Definition html_special (c : ascii) : bool :=
  is_char "<" c || is_char ">" c || is_char "'" c || is_char DQUOTE c.

(** ** Export *)

(** The characters [re.sub(r"[^\w\d\-\.]+", "", filename)] keeps *)
Definition filename_char (c : ascii) : bool :=
  chr_word c || chr_decimal c || is_char "-" c || is_char "." c.

Record Download := {
  response_data : string;
  content_length : nat;
  content_type : string;
  content_disposition : string;
  expires : Z;
  pragma : string;
}.

(** [export(query, export_format, table)]; [freeze] stands for
    [get_dataset().freeze], which writes the query in the given format. *)
Definition export {Query} (freeze : Query → string → result string)
    (query : Query) (export_format : string) (table : option string) : result Download :=
  let '(download_name, mimetype) :=
    if str_eqb export_format "json" then ("export.json", "text/javascript")
    else ("export.csv", "text/csv") in
  let download_name := if truthy table
                       then get_or_empty table +:+ "-" +:+ download_name
                       else download_name in
  let download_name := str_filter filename_char download_name in
  do data <~ freeze query export_format;
  Ok {| response_data := data;
        content_length := String.length data;
        content_type := mimetype;
        content_disposition := "attachment; filename=" +:+ quoted download_name;
        expires := 0;
        pragma := "public" |}.

(** ** The session *)

(** What the application keeps in [session]: the [authorized] mark, the
    address to go back to after the login, and under [<table>.last_viewed]
    the page and ordering last shown of a table. *)
Record Session := {
  authorized : bool;
  next_url : option string;
  last_viewed : gmap string (Z * option string);
}.

(** The arguments [redirect_to_previous] builds the address of
    [table_content] from. *)
Record ContentAddress := {
  address_page : option Z;
  address_ordering : option string;
}.

(** [redirect_to_previous(file, table)] *)
Definition redirect_to_previous (table : string) (session : Session) : ContentAddress :=
  match last_viewed session !! table with
  | None => {| address_page := None; address_ordering := None |}
  | Some (page, ordering) =>
      {| address_page := if negb (page =? 0) && negb (page =? 1) then Some page else None;
         address_ordering := if truthy ordering then ordering else None |}
  end.

(** The one statement of [table_content] that writes to the session, at
    its end: [session["%s.last_viewed" % table] = (page_number, ordering)]. *)
Definition set_last_viewed (table : string) (page_number : Z) (ordering : option string)
    (session : Session) : Session :=
  {| authorized := authorized session;
     next_url := next_url session;
     last_viewed := <[table := (page_number, ordering)]> (last_viewed session) |}.

(** ** Login *)

(** What a handler answers before or instead of a view. *)
Inductive Reply :=
| GoTo (url : string)
| GoToLogin
| Page (template : string).

(** [url_for("index")]: the rule of [index] is ["/<file>/"], and no file
    is given. *)
Definition url_for_index : result string :=
  Raise (BuildError
           "Could not build url for endpoint 'index'. Did you forget to specify values ['file']?").

Record Visit := {
  visit_session : Session;
  visit_flashes : list (string * string);
}.

Definition set_authorized (b : bool) (session : Session) : Session :=
  {| authorized := b; next_url := next_url session; last_viewed := last_viewed session |}.

Definition set_next_url (url : string) (session : Session) : Session :=
  {| authorized := authorized session; next_url := Some url;
     last_viewed := last_viewed session |}.

(** [check_password()] of [install_auth_handler]: [None] lets the request
    through. *)
Definition check_password (path base_url : string) (v : Visit) : option Reply * Visit :=
  if negb (authorized (visit_session v))
     && negb (str_eqb path "/login/")
     && negb (startswith path "/static/" || startswith path "/favicon")
  then
    (Some GoToLogin,
     {| visit_session := set_next_url base_url (visit_session v);
        visit_flashes := visit_flashes v
                         ++ [("You must log-in to view the database browser.", "danger")] |})
  else (None, v).

(** [login()]; [password] is [app.config["PASSWORD"]] when it is set.  The
    session is marked before the address to go to is worked out. *)
Definition login (password : option string) (request : Request) (v : Visit)
  : result Reply * Visit :=
  match method request with
  | POST =>
      match password with
      | None => (Raise (KeyError "PASSWORD"), v)
      | Some configured =>
          if bool_decide (md_get (form request) "password" = Some configured) then
            ((if truthy (next_url (visit_session v))
              then Ok (GoTo (get_or_empty (next_url (visit_session v))))
              else do url <~ url_for_index; Ok (GoTo url)),
             {| visit_session := set_authorized true (visit_session v);
                visit_flashes := visit_flashes v |})
          else
            (Ok (Page "login.html"),
             {| visit_session := visit_session v;
                visit_flashes := visit_flashes v
                                 ++ [("The password you entered is incorrect.", "danger")] |})
      end
  | GET => (Ok (Page "login.html"), v)
  end.

(** [logout()] *)
Definition logout (v : Visit) : Reply * Visit :=
  (GoToLogin,
   {| visit_session := set_authorized false (visit_session v);
      visit_flashes := visit_flashes v |}).

(** A session and a visit at their start. *)
Definition fresh_session : Session :=
  {| authorized := false; next_url := None; last_viewed := ∅ |}.

Definition fresh_visit : Visit :=
  {| visit_session := fresh_session; visit_flashes := [] |}.

(** ** Deleting rows *)

(** More of the database collaborator: fetching the row an expression
    selects as a dict, and executing a delete inside
    [dataset.transaction()]. *)
Class RowEngine := {
  select_get : string → Expression → gmap string Table → result (gmap string pyvalue);
  execute_delete : string → Expression → gmap string Table
                   → result (Z * gmap string Table);
}.

(** The state of [table_delete]: the world of the other views and the
    delete statements handed to the engine, oldest first. *)
Record Site := {
  world : World;
  deletes : list (string * Expression);
}.

Definition on_world (f : World → World) (s : Site) : Site :=
  {| world := f (world s); deletes := deletes s |}.

Definition log_delete (table : string) (where_ : Expression) (s : Site) : Site :=
  {| world := world s; deletes := deletes s ++ [(table, where_)] |}.

(** [table_delete(file, table, pk)] *)
Definition table_delete `{Engine} `{RowEngine} (table pk : string) (request : Request)
    (s : Site) : result Response * Site :=
  match database (world s) !! table with
  | None => (Ok (Abort 404), s)
  | Some _ =>
      let s := on_world (update_cache table) s in
      match getitem (models (world s)) table with
      | Raise e => (Raise e, s)
      | Ok model =>
          let table_pk := meta_primary_key model in
          match table_pk with
          | NoKey =>
              (Ok (Redirect "table_content" None),
               on_world (flash "Table must have a primary key to perform delete." "danger") s)
          | _ =>
              if str_eqb pk UNEDITABLE then
                (Ok (Redirect "table_content" None),
                 on_world (flash "Could not encode primary key to perform delete." "danger") s)
              else
                match decode_pk model (PStr pk) with
                | Raise e => (Raise e, s)
                | Ok expr =>
                    match select_get table expr (database (world s)) with
                    | Raise DoesNotExist =>
                        (Ok (Redirect "table_content" None),
                         on_world (flash ("Could not fetch row with primary-key "
                                          +:+ pk_repr table_pk pk +:+ ".") "danger") s)
                    | Raise e => (Raise e, s)
                    | Ok row =>
                        let page :=
                          Ok (Render "table_delete.html"
                                {| ctx_row := row; ctx_edited := ∅; ctx_errors := ∅ |}) in
                        match method request with
                        | GET => (page, s)
                        | POST =>
                            let s := log_delete table expr s in
                            match execute_delete table expr (database (world s)) with
                            | Raise exc =>
                                (page, on_world (flash ("Delete failed: " +:+ str_exn exc)
                                                       "danger") s)
                            | Ok (n, db) =>
                                (Ok (RedirectToPrevious table),
                                 on_world (λ w, flash ("Successfully deleted "
                                                       +:+ py_str (PInt n) +:+ " record.")
                                                      "success" (set_database db w)) s)
                            end
                        end
                    end
                end
          end
      end
  end.

(** The reference engine's part: rows are matched as in [reference_get]. *)
Definition reference_delete (table : string) (where_ : Expression)
    (db : gmap string Table) : result (Z * gmap string Table) :=
  match db !! table with
  | None => Raise (DatabaseError ("no such table: " +:+ table))
  | Some t =>
      Ok (Z.of_nat (length (filter (λ r, expr_matches where_ r = true) (rows t))),
          <[table := with_rows (filter (λ r, expr_matches where_ r ≠ true) (rows t)) t]> db)
  end.

Definition reference_row_engine : RowEngine := {|
  select_get := reference_get;
  execute_delete := reference_delete;
|}.

Definition site_of (w : World) : Site := {| world := w; deletes := [] |}.

(** A database opened read-only: every write is refused. *)
Definition READONLY_ERROR : exn := DatabaseError "attempt to write a readonly database".

Definition readonly_engine : Engine := {|
  migrate _ _ := Raise READONLY_ERROR;
  generate_model := reference_model;
  execute_insert _ _ _ := Raise READONLY_ERROR;
  execute_update _ _ _ _ := Raise READONLY_ERROR;
  model_get := reference_get;
|}.

Definition readonly_row_engine : RowEngine := {|
  select_get := reference_get;
  execute_delete _ _ _ := Raise READONLY_ERROR;
|}.

(** From [w] to [w'] the database is the same and no success is
    reported. *)
Definition reports_no_success (w w' : World) : Prop :=
  database w' = database w
  ∧ ∀ message, (message, "success") ∈ flashes w' → (message, "success") ∈ flashes w.

(** An entry of the form passes validation with value [v]: its key is a
    column of [col_dict] and the codec returns [v] for the field of that
    column, with no error or an empty one. *)
Definition entry_passes `{Adapters} (model : Model) (col_dict : gmap string ColumnMetadata)
    (key value : string) (v : pyvalue) : Prop :=
  ∃ column field err,
    col_dict !! key = Some column
    ∧ meta_columns model !! column_name column = Some field
    ∧ minimal_validate_field field value = Ok (v, err)
    ∧ err_truthy err = false.

(** ** The search of [table_content] *)

(** How a piece of a view ends: it returns, an exception of the data
    model leaves it, or it raises [RuntimeError] itself. *)
Inductive Outcome (A : Type) :=
| Done (a : A)
| Raised (e : exn)
| Stopped (f : Failure).
Arguments Done {A} a.
Arguments Raised {A} e.
Arguments Stopped {A} f.

(** The loop of [table_content] over a posted search form: the example
    to search by, keyed by column name. *)
Fixpoint example_loop `{Adapters} (model : Model) (col_dict : gmap string ColumnMetadata)
    (items : list (string * string)) (example : gmap string string)
  : Outcome (gmap string string) :=
  match items with
  | [] => Done example
  | (key, value) :: rest =>
      if str_nonempty value then
        match col_dict !! key with
        | None => example_loop model col_dict rest example
        | Some column =>
            let example := <[column_name column := value]> example in
            match getitem (meta_columns model) (column_name column) with
            | Raise e => Raised e
            | Ok field =>
                match minimal_validate_field field value with
                | Raise e => Raised e
                | Ok (_, err) =>
                    if err_truthy err then Stopped (RuntimeError (get_or_empty err))
                    else example_loop model col_dict rest example
                end
            end
        end
      else example_loop model col_dict rest example
  end.

(** The row an empty insert form starts from. *)
Definition blank_row (columns : list ColumnMetadata) : gmap string pyvalue :=
  foldl (λ r column, <[column_name column := PStr ""]> r) ∅ columns.

(** A table keyed by the pair (a, b), with three rows. *)
Definition column_ka : ColumnMetadata :=
  {| column_name := "a"; data_type := "TEXT"; null := false;
     primary_key := true; column_default := None |}.
Definition column_kb : ColumnMetadata :=
  {| column_name := "b"; data_type := "TEXT"; null := false;
     primary_key := true; column_default := None |}.

Definition pair_table : Table :=
  {| columns := [column_ka; column_kb];
     indexes := [];
     rows := [{[ "a" := PStr "x"; "b" := PStr "1" ]};
              {[ "a" := PStr "x"; "b" := PStr "2" ]};
              {[ "a" := PStr "y"; "b" := PStr "1" ]}] |}.

Definition pair_world : World :=
  {| database := {[ "p" := pair_table ]};
     models := ∅;
     executed := [];
     flashes := [] |}.

Definition get_args (fields : list (string * string)) : Request :=
  {| method := GET; form := []; args := fields |}.

(** A table with a blob column whose only row holds text there, as SQLite
    allows. *)
Definition column_data : ColumnMetadata :=
  {| column_name := "data"; data_type := "BLOB"; null := true;
     primary_key := false; column_default := None |}.

Definition file_table : Table :=
  {| columns := [column_id; column_data];
     indexes := [];
     rows := [{[ "id" := PInt 1; "data" := PStr "hi" ]}] |}.

Definition file_world : World :=
  {| database := {[ "f" := file_table ]};
     models := ∅;
     executed := [];
     flashes := [] |}.

(** * Proofs *)

(** ** base64 *)

Lemma N_below_spec k p :
  N_below k p = true → ∀ n, (n < N.of_nat k)%N → p n = true.
Proof.
  induction k as [|k IH]; simpl; intros Hk n Hn; [lia|].
  apply andb_prop in Hk as [Hp Hk].
  destruct (N.eq_dec n (N.of_nat k)) as [->|Hne]; [done|].
  apply IH; [done|lia].
Qed.

Lemma code_lt_256 c : (code c < 256)%N.
Proof. apply N_ascii_bounded. Qed.

Lemma ascii_of_code c : ascii_of_N (code c) = c.
Proof. apply ascii_N_embedding. Qed.

Lemma sextet_checks_all : N_below 256 (fun x => N_below 256 (sextet_checks x)) = true.
Proof. vm_compute. reflexivity. Qed.

Lemma sextet_facts x y : (x < 256)%N → (y < 256)%N → sextet_checks x y = true.
Proof.
  intros Hx Hy.
  pose proof (N_below_spec 256 _ sextet_checks_all x Hx) as H1.
  exact (N_below_spec 256 _ H1 y Hy).
Qed.

Ltac split_checks H :=
  repeat match type of H with
         | (_ && _)%bool = true => let H' := fresh "Hc" in apply andb_prop in H as [H H']
         end.

Lemma alphabet_roundtrip n : (n < 64)%N →
  table_a2b_base64 (table_b2a_base64 n) = n ∧ table_b2a_base64 n ≠ BASE64_PAD.
Proof.
  intros Hn.
  pose proof (N_below_spec 64
    (fun n => (table_a2b_base64 (table_b2a_base64 n) =? n)%N
              && negb (bool_decide (table_b2a_base64 n = BASE64_PAD)))) as Hc.
  specialize (Hc eq_refl n Hn). simpl in Hc.
  apply andb_prop in Hc as [H1 H2].
  split; [by apply N.eqb_eq|].
  by apply negb_true_iff, bool_decide_eq_false in H2.
Qed.

(** One step of the decoder on an alphabet character. *)
Lemma a2b_step n s q l p : (n < 64)%N →
  a2b_base64_loop (String (table_b2a_base64 n) s) q l p =
    if (q =? 0)%N then a2b_base64_loop s 1 n 0
    else if (q =? 1)%N then
      rbind (a2b_base64_loop s 2 (N.land n 15) 0)
            (fun r => Ok (String (ascii_of_N (N.lor (N.shiftl l 2) (N.shiftr n 4))) r))
    else if (q =? 2)%N then
      rbind (a2b_base64_loop s 3 (N.land n 3) 0)
            (fun r => Ok (String (ascii_of_N (N.lor (N.shiftl l 4) (N.shiftr n 2))) r))
    else
      rbind (a2b_base64_loop s 0 0 0)
            (fun r => Ok (String (ascii_of_N (N.lor (N.shiftl l 6) n)) r)).
Proof.
  intros Hn. destruct (alphabet_roundtrip n Hn) as [Ht Hp].
  cbn [a2b_base64_loop].
  rewrite bool_decide_eq_false_2 by done.
  rewrite Ht.
  destruct (64 <=? n)%N eqn:E; [apply N.leb_le in E; lia|].
  reflexivity.
Qed.

(** A full group of three bytes decodes to these bytes. *)
Lemma a2b_group x y z rest :
  a2b_base64_loop
    (String (table_b2a_base64 (sextet0 (code x)))
    (String (table_b2a_base64 (sextet1 (code x) (code y)))
    (String (table_b2a_base64 (sextet2 (code y) (code z)))
    (String (table_b2a_base64 (sextet3 (code z))) rest)))) 0 0 0
  = rbind (a2b_base64_loop rest 0 0 0) (fun r => Ok (String x (String y (String z r)))).
Proof.
  pose proof (sextet_facts _ _ (code_lt_256 x) (code_lt_256 y)) as Hxy.
  pose proof (sextet_facts _ _ (code_lt_256 y) (code_lt_256 z)) as Hyz.
  pose proof (sextet_facts _ _ (code_lt_256 z) (code_lt_256 z)) as Hzz.
  unfold sextet_checks in Hxy, Hyz, Hzz.
  split_checks Hxy. split_checks Hyz. split_checks Hzz.
  repeat match goal with
         | H : (_ <? _)%N = true |- _ => apply N.ltb_lt in H
         | H : (_ =? _)%N = true |- _ => apply N.eqb_eq in H
         end.
  rewrite !a2b_step by assumption. cbn [N.eqb].
  destruct (a2b_base64_loop rest 0 0 0) as [r|e]; [|reflexivity].
  cbn [rbind].
  repeat match goal with
         | H : _ = _ |- _ => progress rewrite H
         end.
  by rewrite !ascii_of_code.
Qed.

Ltac use_sextet_facts x y :=
  let H := fresh "Hs" in
  pose proof (sextet_facts _ _ (code_lt_256 x) (code_lt_256 y)) as H;
  unfold sextet_checks in H; split_checks H;
  repeat match goal with
         | H : (_ <? _)%N = true |- _ => apply N.ltb_lt in H
         | H : (_ =? _)%N = true |- _ => apply N.eqb_eq in H
         end.

Lemma sextet1_0_lt x : (x < 256)%N → (sextet1 x 0 < 64)%N ∧ (sextet2 x 0 < 64)%N.
Proof.
  intros Hx.
  pose proof (N_below_spec 256
    (fun x => (sextet1 x 0 <? 64)%N && (sextet2 x 0 <? 64)%N) eq_refl x Hx) as H.
  simpl in H. apply andb_prop in H as [H1 H2].
  by apply N.ltb_lt in H1, H2.
Qed.

(** Decoding undoes encoding. *)
Lemma a2b_base64_b64encode data : a2b_base64 (b64encode data) = Ok data.
Proof.
  unfold a2b_base64.
  cut (a2b_base64_loop (b64encode data) 0 0 0 = Ok data
       ∧ (∀ x, a2b_base64_loop (b64encode (String x data)) 0 0 0 = Ok (String x data))
       ∧ (∀ x y, a2b_base64_loop (b64encode (String x (String y data))) 0 0 0
                 = Ok (String x (String y data)))); [tauto|].
  induction data as [|z data (IH0 & IH1 & IH2)].
  - split; [reflexivity|]. split.
    + intros x. cbn [b64encode].
      use_sextet_facts x x. destruct (sextet1_0_lt _ (code_lt_256 x)) as [Hlt _].
      rewrite !a2b_step by assumption. cbn.
      repeat match goal with H : _ = _ |- _ => progress rewrite H end.
      by rewrite ascii_of_code.
    + intros x y. cbn [b64encode].
      use_sextet_facts x y. use_sextet_facts y y.
      destruct (sextet1_0_lt _ (code_lt_256 y)) as [_ Hlt].
      rewrite !a2b_step by assumption. cbn.
      repeat match goal with H : _ = _ |- _ => progress rewrite H end.
      by rewrite !ascii_of_code.
  - split; [apply IH1|]. split; [intros x; apply IH2|].
    intros x y. change (b64encode (String x (String y (String z data))))
      with (String (table_b2a_base64 (sextet0 (code x)))
           (String (table_b2a_base64 (sextet1 (code x) (code y)))
           (String (table_b2a_base64 (sextet2 (code y) (code z)))
           (String (table_b2a_base64 (sextet3 (code z))) (b64encode data))))).
    rewrite a2b_group, IH0. reflexivity.
Qed.

Lemma table_b2a_ascii n : (n < 64)%N → between 0 127 (table_b2a_base64 n) = true.
Proof.
  intros Hn.
  exact (N_below_spec 64 (fun n => between 0 127 (table_b2a_base64 n)) eq_refl n Hn).
Qed.

Lemma b64encode_ascii data : str_forall (between 0 127) (b64encode data) = true.
Proof.
  cut (str_forall (between 0 127) (b64encode data) = true
       ∧ (∀ x, str_forall (between 0 127) (b64encode (String x data)) = true)
       ∧ (∀ x y, str_forall (between 0 127) (b64encode (String x (String y data))) = true));
    [tauto|].
  induction data as [|z data (IH0 & IH1 & IH2)].
  - split; [reflexivity|]. split.
    + intros x. cbn [b64encode str_forall].
      use_sextet_facts x x. destruct (sextet1_0_lt _ (code_lt_256 x)) as [Hlt _].
      rewrite !table_b2a_ascii by assumption. reflexivity.
    + intros x y. cbn [b64encode str_forall].
      use_sextet_facts x y. destruct (sextet1_0_lt _ (code_lt_256 y)) as [_ Hlt].
      rewrite !table_b2a_ascii by assumption. reflexivity.
  - split; [apply IH1|]. split; [intros x; apply IH2|].
    intros x y. cbn [b64encode str_forall]. fold b64encode.
    use_sextet_facts x y. use_sextet_facts y z. use_sextet_facts z z.
    rewrite !table_b2a_ascii by assumption. cbn [andb]. exact IH0.
Qed.

(** [b64decode(b64encode(data)) == data] *)
Lemma b64decode_b64encode data : b64decode (b64encode data) = Ok data.
Proof. unfold b64decode. by rewrite b64encode_ascii, a2b_base64_b64encode. Qed.

(** Characters outside the alphabet do not matter to the decoder. *)
Lemma a2b_base64_loop_filter s : ∀ q l p,
  a2b_base64_loop (str_filter b64_significant s) q l p = a2b_base64_loop s q l p.
Proof.
  induction s as [|c s IH]; intros q l p; [reflexivity|].
  cbn [str_filter]. unfold b64_significant at 1.
  destruct (bool_decide (c = BASE64_PAD)) eqn:Epad.
  - cbn [orb a2b_base64_loop]. rewrite Epad, !IH. reflexivity.
  - cbn [orb]. destruct (table_a2b_base64 c <? 64)%N eqn:Et.
    + cbn [a2b_base64_loop]. rewrite Epad, !IH. reflexivity.
    + rewrite IH. cbn [a2b_base64_loop]. rewrite Epad.
      apply N.ltb_ge in Et. apply N.leb_le in Et. by rewrite Et.
Qed.

Lemma a2b_base64_filter s : a2b_base64 (str_filter b64_significant s) = a2b_base64 s.
Proof. apply a2b_base64_loop_filter. Qed.

Lemma a2b_step_alphabet c s q l p : b64_alphabet c = true →
  a2b_base64_loop (String c s) q l p =
    if (q =? 0)%N then a2b_base64_loop s 1 (table_a2b_base64 c) 0
    else if (q =? 1)%N then
      rbind (a2b_base64_loop s 2 (N.land (table_a2b_base64 c) 15) 0)
            (fun r => Ok (String (ascii_of_N (N.lor (N.shiftl l 2)
                                                (N.shiftr (table_a2b_base64 c) 4))) r))
    else if (q =? 2)%N then
      rbind (a2b_base64_loop s 3 (N.land (table_a2b_base64 c) 3) 0)
            (fun r => Ok (String (ascii_of_N (N.lor (N.shiftl l 4)
                                                (N.shiftr (table_a2b_base64 c) 2))) r))
    else
      rbind (a2b_base64_loop s 0 0 0)
            (fun r => Ok (String (ascii_of_N (N.lor (N.shiftl l 6) (table_a2b_base64 c))) r)).
Proof.
  unfold b64_alphabet. intros [Hpad Hlt]%andb_prop.
  apply negb_true_iff in Hpad. apply N.ltb_lt in Hlt.
  cbn [a2b_base64_loop]. rewrite Hpad.
  destruct (64 <=? table_a2b_base64 c)%N eqn:E; [apply N.leb_le in E; lia|].
  reflexivity.
Qed.

(** Text in the base64 grammar always decodes. *)
Lemma valid_base64_decodes n : ∀ s,
  (String.length s ≤ n)%nat → valid_base64 s = true →
  ∃ b, a2b_base64_loop s 0 0 0 = Ok b.
Proof.
  induction n as [|n IH]; intros s Hlen Hvalid.
  - destruct s; [by eexists|]. cbn in Hlen. lia.
  - destruct s as [|c0 [|c1 [|c2 [|c3 rest]]]]; try discriminate; [by eexists|].
    cbn [valid_base64] in Hvalid.
    apply andb_prop in Hvalid as [[H0 H1]%andb_prop Hrest].
    rewrite (a2b_step_alphabet c0) by done. cbn [N.eqb Pos.eqb].
    rewrite (a2b_step_alphabet c1) by done. cbn [N.eqb Pos.eqb].
    destruct rest as [|c4 rest].
    + apply orb_prop in Hrest as [[Hfull|Hone]%orb_prop|Htwo].
      * apply andb_prop in Hfull as [H2 H3].
        rewrite (a2b_step_alphabet c2) by done. cbn [N.eqb Pos.eqb].
        rewrite (a2b_step_alphabet c3) by done. cbn. by eexists.
      * apply andb_prop in Hone as [H2 H3].
        rewrite (a2b_step_alphabet c2) by done.
        cbn [N.eqb Pos.eqb a2b_base64_loop]. rewrite H3. cbn. by eexists.
      * apply andb_prop in Htwo as [H2 H3].
        cbn [a2b_base64_loop]. rewrite H2, H3. cbn. by eexists.
    + apply andb_prop in Hrest as [[H2 H3]%andb_prop Hrest].
      rewrite (a2b_step_alphabet c2) by done. cbn [N.eqb Pos.eqb].
      rewrite (a2b_step_alphabet c3) by done. cbn [N.eqb Pos.eqb].
      destruct (IH (String c4 rest)) as [b ->]; [cbn in Hlen |- *; lia|done|].
      cbn. by eexists.
Qed.

Lemma alphabet_ascii c : b64_alphabet c = true ∨ c = BASE64_PAD → between 0 127 c = true.
Proof.
  intros Hc.
  assert (N_below 256 (fun n => implb (b64_alphabet (ascii_of_N n)
                                       || bool_decide (ascii_of_N n = BASE64_PAD))
                                      (between 0 127 (ascii_of_N n))) = true) as Hall
    by (vm_compute; reflexivity).
  pose proof (N_below_spec 256 _ Hall (code c) (code_lt_256 c)) as H.
  cbv beta in H. rewrite ascii_of_code in H.
  destruct Hc as [Hc | ->]; [by rewrite Hc in H|reflexivity].
Qed.

Lemma valid_base64_ascii n : ∀ s,
  (String.length s ≤ n)%nat → valid_base64 s = true → str_forall (between 0 127) s = true.
Proof.
  induction n as [|n IH]; intros s Hlen Hvalid.
  - destruct s; [done|]. cbn in Hlen. lia.
  - destruct s as [|c0 [|c1 [|c2 [|c3 rest]]]]; try discriminate; [done|].
    cbn [valid_base64] in Hvalid.
    apply andb_prop in Hvalid as [[H0 H1]%andb_prop Hrest].
    cbn [str_forall].
    rewrite (alphabet_ascii c0), (alphabet_ascii c1) by auto. cbn [andb].
    destruct rest as [|c4 rest].
    + apply orb_prop in Hrest as [[Hfull|Hone]%orb_prop|Htwo].
      * apply andb_prop in Hfull as [H2 H3].
        by rewrite (alphabet_ascii c2), (alphabet_ascii c3) by auto.
      * apply andb_prop in Hone as [H2 H3%bool_decide_eq_true].
        by rewrite (alphabet_ascii c2), (alphabet_ascii c3) by auto.
      * apply andb_prop in Htwo as [H2%bool_decide_eq_true H3%bool_decide_eq_true].
        by rewrite (alphabet_ascii c2), (alphabet_ascii c3) by auto.
    + apply andb_prop in Hrest as [[H2 H3]%andb_prop Hrest].
      rewrite (alphabet_ascii c2), (alphabet_ascii c3) by auto. cbn [andb].
      apply IH; [cbn in Hlen |- *; lia|done].
Qed.

Lemma valid_base64_b64decode s : valid_base64 s = true → ∃ b, b64decode s = Ok b.
Proof.
  intros Hvalid. unfold b64decode, a2b_base64.
  rewrite (valid_base64_ascii _ s (le_n _) Hvalid).
  exact (valid_base64_decodes _ s (le_n _) Hvalid).
Qed.

Lemma table_b2a_alphabet n : (n < 64)%N → b64_alphabet (table_b2a_base64 n) = true.
Proof.
  intros Hn. destruct (alphabet_roundtrip n Hn) as [Ht Hp].
  unfold b64_alphabet. rewrite Ht, bool_decide_eq_false_2 by done.
  by apply N.ltb_lt in Hn as ->.
Qed.

(** Every encoding is in the grammar. *)
Lemma b64encode_valid data : valid_base64 (b64encode data) = true.
Proof.
  cut (valid_base64 (b64encode data) = true
       ∧ (∀ x, valid_base64 (b64encode (String x data)) = true)
       ∧ (∀ x y, valid_base64 (b64encode (String x (String y data))) = true)); [tauto|].
  induction data as [|z data (IH0 & IH1 & IH2)].
  - split; [reflexivity|]. split.
    + intros x. cbn [b64encode valid_base64].
      use_sextet_facts x x. destruct (sextet1_0_lt _ (code_lt_256 x)) as [Hlt _].
      rewrite !table_b2a_alphabet by assumption. reflexivity.
    + intros x y. cbn [b64encode valid_base64].
      use_sextet_facts x y. destruct (sextet1_0_lt _ (code_lt_256 y)) as [_ Hlt].
      rewrite !table_b2a_alphabet by assumption. reflexivity.
  - split; [apply IH1|]. split; [intros x; apply IH2|].
    intros x y. cbn [b64encode valid_base64]. fold b64encode.
    use_sextet_facts x y. use_sextet_facts y z. use_sextet_facts z z.
    rewrite !table_b2a_alphabet by assumption. rewrite IH0.
    by destruct (b64encode data).
Qed.

(** ** Value codec *)

Lemma is_null_text_spec value : is_null_text value = true ↔ strip (lower value) = "null".
Proof. unfold is_null_text, str_eqb. apply bool_decide_eq_true. Qed.

(** What the codec returns on a blob field for text that is not the null
    literal, in terms of the decoder. *)
Lemma blob_decode_unfold `{Adapters} field value :
  field_class field = BlobField →
  is_null_text value = false →
  minimal_validate_field field value =
    match b64decode value with
    | Ok b => match db_value field (PBytes b) with
              | Ok _ => Ok (PBytes b, None)
              | Raise exc => Ok (PBytes b, Some (str_exn exc))
              end
    | Raise _ => Ok (PStr value, Some NOT_BASE64)
    end.
Proof.
  intros Hc Hn. unfold minimal_validate_field. rewrite Hn, Hc. cbn.
  destruct (b64decode value) as [b|e]; cbn; [|reflexivity].
  destruct (db_value field (PBytes b)); reflexivity.
Qed.

(** No exception leaves the codec. *)
Lemma minimal_validate_field_returns `{Adapters} (field : Field) (value : string) :
  ∃ v err, minimal_validate_field field value = Ok (v, err).
Proof.
  unfold minimal_validate_field.
  destruct (is_null_text value).
  { destruct (field_null field); cbn; eauto. }
  destruct (isinstance_IntegerField (field_class field) && negb (isdigit value)).
  { cbn. eauto. }
  destruct (isinstance_FloatField (field_class field)).
  { destruct (py_float value); cbn; [|eauto].
    destruct (db_value field (PStr value)); cbn; eauto. }
  destruct (isinstance_BooleanField (field_class field)).
  { destruct (negb (str_in (lower value) bool_tokens)); cbn; [eauto|].
    destruct (db_value field _); cbn; eauto. }
  destruct (isinstance_BlobField (field_class field)).
  { destruct (b64decode value); cbn; [|eauto].
    destruct (db_value field _); cbn; eauto. }
  cbn. destruct (db_value field _); cbn; eauto.
Qed.

(** C8: [minimal_validate_field] always returns a pair (value, error) and
    never lets an exception escape; text that is "null" once lower-cased
    and stripped decodes to the null value on a nullable column and to the
    not-nullable error on any other. *)
Theorem minimal_validate_field_total `{Adapters} (field : Field) (value : string) :
  (∃ v err, minimal_validate_field field value = Ok (v, err))
  ∧ (strip (lower value) = "null" →
     minimal_validate_field field value =
       if field_null field then Ok (PNone, None)
       else Ok (PStr "NULL", Some NOT_NULLABLE)).
Proof.
  split.
  - apply minimal_validate_field_returns.
  - intros Hnull. apply is_null_text_spec in Hnull.
    unfold minimal_validate_field. rewrite Hnull.
    destruct (field_null field); reflexivity.
Qed.

Lemma minimal_validate_field_total_witness :
  (∃ v err, @minimal_validate_field reference_adapters sample_text_field " NULL " = Ok (v, err))
  ∧ @minimal_validate_field reference_adapters sample_text_field " NULL "
    = Ok (PStr "NULL", Some NOT_NULLABLE).
Proof.
  destruct (@minimal_validate_field_total reference_adapters sample_text_field " NULL ")
    as [Hex Hnull].
  split; [exact Hex|]. apply Hnull. reflexivity.
Defined.

(** C9, as stated, fails: text that is not base64 decodes without error. *)
Lemma blob_decode_accepts_invalid_base64 :
  valid_base64 "YWJj!" = false
  ∧ is_null_text "YWJj!" = false
  ∧ @minimal_validate_field reference_adapters sample_blob_field "YWJj!"
    = Ok (PBytes "abc", None)
  ∧ ¬ (∀ value, is_null_text value = false →
         ((∃ b, @minimal_validate_field reference_adapters sample_blob_field value
                = Ok (PBytes b, None))
          ↔ valid_base64 value = true)).
Proof.
  split; [reflexivity|]. split; [reflexivity|]. split; [reflexivity|].
  intros Hiff.
  destruct (Hiff "YWJj!" eq_refl) as [Hfwd _].
  assert (valid_base64 "YWJj!" = true) as Hv by (apply Hfwd; by exists "abc").
  discriminate Hv.
Qed.

(** C9, amended: on a blob field, text that is not the null literal
    decodes to bytes whenever it is valid base64, and every base64
    encoding decodes to the bytes it encodes; the converse fails, because
    the decoder is lenient: text with a character beyond ASCII is an
    error, and any other text gives what the decoder gives on the text
    without its characters outside the base64 alphabet and the pad, bytes
    or an error.  So "not-base64!!" is an error, while "YWJj!" and
    "YWJj=", neither of them valid base64, decode to "abc" like "YWJj". *)
Theorem blob_decode_lenient `{Adapters} (field : Field) :
  field_class field = BlobField →
  (∀ b, db_value field (PBytes b) = Ok tt) →
  (∀ value, is_null_text value = false → valid_base64 value = true →
     ∃ b, minimal_validate_field field value = Ok (PBytes b, None))
  ∧ (∀ value, is_null_text value = false →
     minimal_validate_field field value =
       if str_forall (between 0 127) value then
         match a2b_base64 (str_filter b64_significant value) with
         | Ok b => Ok (PBytes b, None)
         | Raise _ => Ok (PStr value, Some NOT_BASE64)
         end
       else Ok (PStr value, Some NOT_BASE64))
  ∧ (∀ data, valid_base64 (b64encode data) = true
             ∧ (is_null_text (b64encode data) = false →
                minimal_validate_field field (b64encode data) = Ok (PBytes data, None)))
  ∧ minimal_validate_field field "not-base64!!" = Ok (PStr "not-base64!!", Some NOT_BASE64)
  ∧ minimal_validate_field field (b64encode "abc") = Ok (PBytes "abc", None)
  ∧ minimal_validate_field field "YWJj!" = Ok (PBytes "abc", None)
  ∧ valid_base64 "YWJj=" = false
  ∧ minimal_validate_field field "YWJj=" = Ok (PBytes "abc", None)
  ∧ minimal_validate_field field "YWJj" = Ok (PBytes "abc", None).
Proof.
  intros Hc Hdb.
  assert (∀ value, is_null_text value = false →
     minimal_validate_field field value =
       if str_forall (between 0 127) value then
         match a2b_base64 (str_filter b64_significant value) with
         | Ok b => Ok (PBytes b, None)
         | Raise _ => Ok (PStr value, Some NOT_BASE64)
         end
       else Ok (PStr value, Some NOT_BASE64)) as Hgen.
  { intros value Hn. rewrite (blob_decode_unfold field value Hc Hn).
    unfold b64decode. destruct (str_forall (between 0 127) value); [|reflexivity].
    rewrite a2b_base64_filter.
    destruct (a2b_base64 value) as [b|e]; [|reflexivity].
    by rewrite Hdb. }
  split.
  { intros value Hn Hvalid. rewrite (blob_decode_unfold field value Hc Hn).
    destruct (valid_base64_b64decode value Hvalid) as [b ->].
    rewrite Hdb. by exists b. }
  split; [exact Hgen|]. split.
  { intros data. split; [apply b64encode_valid|].
    intros Hn. rewrite (blob_decode_unfold field _ Hc Hn).
    by rewrite b64decode_b64encode, Hdb. }
  split; [by rewrite Hgen|]. split; [by rewrite Hgen|]. split; [by rewrite Hgen|].
  split; [reflexivity|]. split; by rewrite Hgen.
Qed.

Lemma blob_decode_lenient_witness :
  (∃ b, @minimal_validate_field reference_adapters sample_blob_field "YWJjZA=="
        = Ok (PBytes b, None))
  ∧ @minimal_validate_field reference_adapters sample_blob_field (b64encode "abc")
    = Ok (PBytes "abc", None).
Proof.
  destruct (@blob_decode_lenient reference_adapters sample_blob_field eq_refl
              (λ b, eq_refl)) as (Hvalid & _ & Hencode & _).
  split.
  - apply Hvalid; reflexivity.
  - apply (Hencode "abc"). reflexivity.
Defined.

(** ** Primary-key codec *)

Lemma comprehension_Ok {A B} (f : A → result B) l ks :
  Forall2 (λ x y, f x = Ok y) l ks → comprehension f l = Ok ks.
Proof.
  induction 1 as [|x y l ks Hxy _ IH]; [reflexivity|].
  cbn. by rewrite Hxy, IH.
Qed.

Lemma comprehension_Raise {A B} (f : A → result B) l x :
  x ∈ l → (∃ e, f x = Raise e) → ∃ e, comprehension f l = Raise e.
Proof.
  intros Hin [e He]. induction l as [|a l IH]; [by apply elem_of_nil in Hin|].
  cbn. destruct (f a) as [y|e'] eqn:Efa; [|by eexists].
  apply elem_of_cons in Hin as [->|Hin]; [congruence|].
  destruct (IH Hin) as [e'' ->]. by eexists.
Qed.

Lemma expr_holds_fold_and es : ∀ e row,
  expr_holds (fold_left ExprAnd es e) row
  = expr_holds e row && forallb (λ e', expr_holds e' row) es.
Proof.
  induction es as [|e' es IH]; intros e row; cbn.
  - by rewrite andb_true_r.
  - rewrite IH. cbn. by rewrite andb_assoc.
Qed.

(** Splitting a joined token whose pieces hold no colon gives the pieces
    back. *)
Lemma append_cons x (a b : string) : String x a +:+ b = String x (a +:+ b).
Proof. reflexivity. Qed.

Lemma append_assoc (a b c : string) : (a +:+ b) +:+ c = a +:+ (b +:+ c).
Proof. induction a as [|x a IH]; [done|]. by rewrite !append_cons, IH. Qed.

Lemma append_nil_r (a : string) : a +:+ "" = a.
Proof. induction a as [|x a IH]; [done|]. by rewrite append_cons, IH. Qed.

Lemma split_go_piece p : ∀ cur,
  colon_free p = true →
  str_split_go PK_DELIMITER 0 cur p = [cur +:+ p]
  ∧ ∀ s, str_split_go PK_DELIMITER 0 cur (p +:+ PK_DELIMITER +:+ s)
         = (cur +:+ p) :: str_split_go PK_DELIMITER 0 "" s.
Proof.
  induction p as [|c p IH]; intros cur Hp.
  - rewrite append_nil_r. split; [reflexivity|]. intros s. reflexivity.
  - cbn in Hp. apply andb_prop in Hp as [Hc Hp].
    apply negb_true_iff, bool_decide_eq_false in Hc.
    destruct (IH (cur +:+ String c "") Hp) as [IH1 IH2].
    assert ((cur +:+ String c "") +:+ p = cur +:+ String c p) as Happ
      by (by rewrite append_assoc).
    assert (∀ t, is_prefix PK_DELIMITER (String c t) = false) as Hpre.
    { intros t. cbn. rewrite bool_decide_eq_false_2; [done|congruence]. }
    split.
    + cbn [str_split_go]. rewrite Hpre, IH1, Happ. reflexivity.
    + intros s. change (String c p +:+ PK_DELIMITER +:+ s)
        with (String c (p +:+ PK_DELIMITER +:+ s)).
      cbn [str_split_go]. rewrite Hpre, IH2, Happ. reflexivity.
Qed.

Lemma str_split_join parts :
  parts ≠ [] → Forall (λ p, colon_free p = true) parts →
  str_split PK_DELIMITER (str_join PK_DELIMITER parts) = parts.
Proof.
  intros Hne Hall. unfold str_split.
  induction Hall as [|p parts Hp Hall IH]; [done|].
  destruct parts as [|q parts].
  - cbn [str_join]. by destruct (split_go_piece p "" Hp) as [-> _].
  - change (str_join PK_DELIMITER (p :: q :: parts))
      with (p +:+ PK_DELIMITER +:+ str_join PK_DELIMITER (q :: parts)).
    destruct (split_go_piece p "" Hp) as [_ ->].
    by rewrite IH.
Qed.

(** On a row that holds every key field, [encode_pk] is the join. *)
Lemma encode_pk_join (row : gmap string pyvalue) field_names vs :
  Forall2 (λ k v, row !! k = Some v) field_names vs →
  encode_pk row (CompositeKey field_names)
  = Ok (PStr (str_join PK_DELIMITER (py_str <$> vs))).
Proof.
  intros Hvs. cbn. rewrite (comprehension_Ok _ _ (py_str <$> vs)); [reflexivity|].
  induction Hvs as [|k v ks vs Hk _ IH]; [constructor|].
  cbn. constructor; [|exact IH]. unfold getitem. by rewrite Hk.
Qed.

(** C2, as stated, fails: a key field holding the delimiter is joined like
    any other, and the token is the one of a different key. *)
Lemma encode_pk_joins_delimiter :
  let row : gmap string pyvalue := {[ "a" := PStr "x:::y"; "b" := PStr "z" ]} in
  let other : gmap string pyvalue := {[ "a" := PStr "x"; "b" := PStr "y:::z" ]} in
  str_contains PK_DELIMITER "x:::y" = true
  ∧ encode_pk row (CompositeKey ["a"; "b"]) = Ok (PStr "x:::y:::z")
  ∧ encode_pk row (CompositeKey ["a"; "b"]) ≠ Ok (PStr UNEDITABLE)
  ∧ encode_pk other (CompositeKey ["a"; "b"]) = encode_pk row (CompositeKey ["a"; "b"]).
Proof. vm_compute. split; [done|]. split; [done|]. split; [discriminate|done]. Qed.

(** C2, amended: for a composite key, [encode_pk] returns the string forms
    of the key fields joined by ":::" whenever the row holds them all,
    whatever they contain; the sentinel is returned when a key field
    cannot be read from the row; and when no string form holds a colon,
    splitting the token on ":::" gives the string forms back. *)
Theorem encode_pk_composite (row : gmap string pyvalue) (field_names : list string) :
  (∀ vs, Forall2 (λ k v, row !! k = Some v) field_names vs →
     encode_pk row (CompositeKey field_names)
     = Ok (PStr (str_join PK_DELIMITER (py_str <$> vs)))
     ∧ (field_names ≠ [] → Forall (λ v, colon_free (py_str v) = true) vs →
        str_split PK_DELIMITER (str_join PK_DELIMITER (py_str <$> vs)) = py_str <$> vs))
  ∧ ((∃ k, k ∈ field_names ∧ row !! k = None) →
     encode_pk row (CompositeKey field_names) = Ok (PStr UNEDITABLE)).
Proof.
  split.
  - intros vs Hvs. split.
    + by apply encode_pk_join.
    + intros Hne Hcf. apply str_split_join.
      * destruct Hvs; [done|discriminate].
      * by apply Forall_fmap.
  - intros (k & Hin & Hk). cbn.
    destruct (comprehension_Raise
                (λ k, rbind (getitem row k) (λ v, Ok (py_str v))) field_names k Hin)
      as [e ->]; [|reflexivity].
    exists (KeyError k). unfold getitem. by rewrite Hk.
Qed.

Lemma encode_pk_composite_witness :
  let row : gmap string pyvalue := {[ "a" := PStr "x"; "b" := PInt 7 ]} in
  encode_pk row (CompositeKey ["a"; "b"]) = Ok (PStr "x:::7")
  ∧ str_split PK_DELIMITER "x:::7" = ["x"; "7"]
  ∧ encode_pk row (CompositeKey ["a"; "c"]) = Ok (PStr UNEDITABLE).
Proof.
  intros row.
  destruct (encode_pk_composite row ["a"; "b"]) as [Hjoin _].
  destruct (encode_pk_composite row ["a"; "c"]) as [_ Hmiss].
  destruct (Hjoin [PStr "x"; PInt 7]) as [Henc Hsplit].
  { repeat constructor. }
  split; [exact Henc|]. split.
  - apply Hsplit; [discriminate|]. repeat constructor.
  - apply Hmiss. exists "c". split; [|reflexivity].
    apply elem_of_cons. right. apply elem_of_cons. by left.
Defined.

(** C6: for a single-column key, decoding what [encode_pk] returns gives a
    predicate that, among rows with distinct key values, holds of the
    encoded row only; for a composite key, [encode_pk] joins the string
    forms of the fields in order with ":::" and [decode_pk] splits on
    ":::" and returns the conjunction of the equalities field by field;
    fields a="x", b="y" give "x:::y" and back a = "x" AND b = "y". *)
Theorem pk_codec_roundtrip :
  (∀ (model : Model) (pk : Field) (row : gmap string pyvalue) rows v,
     meta_primary_key model = SingleKey pk →
     row !! field_name pk = Some v →
     row ∈ rows →
     (∀ r, r ∈ rows → r !! field_name pk = Some v → r = row) →
     ∃ e, rbind (encode_pk row (meta_primary_key model)) (decode_pk model) = Ok e
          ∧ ∀ r, r ∈ select_where e rows ↔ r = row)
  ∧ (∀ (row : gmap string pyvalue) field_names vs,
       Forall2 (λ k v, row !! k = Some v) field_names vs →
       encode_pk row (CompositeKey field_names)
       = Ok (PStr (str_join PK_DELIMITER (py_str <$> vs))))
  ∧ (∀ (model : Model) field_names fields token,
       meta_primary_key model = CompositeKey field_names →
       Forall2 (λ k f, meta_columns model !! k = Some f) field_names fields →
       field_names ≠ [] →
       ∃ e, decode_pk model (PStr token) = Ok e
            ∧ ∀ row, expr_holds e row
                     = forallb (λ fv, bool_decide (row !! field_name (fst fv) = Some (PStr (snd fv))))
                               (zip fields (str_split PK_DELIMITER token)))
  ∧ encode_pk {[ "a" := PStr "x"; "b" := PStr "y" ]} (CompositeKey ["a"; "b"])
    = Ok (PStr "x:::y")
  ∧ decode_pk model_ab (PStr "x:::y")
    = Ok (ExprAnd (ExprEq field_a (PStr "x")) (ExprEq field_b (PStr "y"))).
Proof.
  split; [|split; [|split; [|split]]].
  - intros model pk row rows v Hpk Hv Hin Huniq.
    exists (ExprEq pk v). rewrite Hpk. cbn. unfold getitem. rewrite Hv. cbn.
    unfold decode_pk. rewrite Hpk. split; [reflexivity|].
    intros r. unfold select_where. rewrite list_elem_of_filter. cbn.
    rewrite bool_decide_eq_true. split.
    + intros [Hr Hrin]. by apply Huniq.
    + by intros ->.
  - intros row field_names vs Hvs. by apply encode_pk_join.
  - intros model field_names fields token Hpk Hfields Hne.
    unfold decode_pk. rewrite Hpk.
    rewrite (comprehension_Ok _ _ fields).
    2:{ eapply Forall2_impl; [exact Hfields|]. intros k f Hk. unfold getitem. by rewrite Hk. }
    cbn [rbind].
    assert (∃ c rest, str_split PK_DELIMITER token = c :: rest) as (c & rest & Hsplit).
    { unfold str_split. generalize "" as cur. generalize 0%nat as skip.
      induction token as [|ch token IH]; intros skip cur; cbn [str_split_go]; [by eauto|].
      destruct skip; [|by apply IH].
      destruct (is_prefix PK_DELIMITER (String ch token)); [by eauto|by apply IH]. }
    rewrite Hsplit.
    destruct Hfields as [|k f ks fs Hk Hrest]; [done|].
    cbn. eexists. split; [reflexivity|].
    intros row. rewrite expr_holds_fold_and. cbn. f_equal.
    induction (zip fs rest) as [|fv l IH]; [reflexivity|].
    cbn. by rewrite IH.
  - reflexivity.
  - reflexivity.
Qed.

Lemma pk_codec_roundtrip_witness :
  let r1 : gmap string pyvalue := {[ "id" := PInt 1 ]} in
  let r2 : gmap string pyvalue := {[ "id" := PInt 2 ]} in
  (∃ e, rbind (encode_pk r2 (SingleKey sample_id_field)) (decode_pk sample_id_model) = Ok e
        ∧ ∀ r, r ∈ select_where e [r1; r2] ↔ r = r2)
  ∧ (∃ e, decode_pk model_ab (PStr "x:::y") = Ok e
          ∧ ∀ row, expr_holds e row
                   = forallb (λ fv, bool_decide (row !! field_name (fst fv) = Some (PStr (snd fv))))
                             (zip [field_a; field_b] (str_split PK_DELIMITER "x:::y"))).
Proof.
  intros r1 r2.
  destruct pk_codec_roundtrip as (Hsingle & _ & Hdecode & _).
  split.
  - apply (Hsingle sample_id_model sample_id_field r2 [r1; r2] (PInt 2)).
    + reflexivity.
    + reflexivity.
    + apply elem_of_cons. right. apply elem_of_cons. by left.
    + intros r Hr Hid.
      apply elem_of_cons in Hr as [->|Hr]; [discriminate Hid|].
      apply elem_of_cons in Hr as [->|Hr]; [reflexivity|].
      by apply elem_of_nil in Hr.
  - apply (Hdecode model_ab ["a"; "b"] [field_a; field_b] "x:::y").
    + reflexivity.
    + repeat constructor.
    + discriminate.
Defined.

(** ** Pagination *)

(** [ceil_div a b] is the least [n] with [a <= n * b]. *)
Lemma ceil_div_spec a b : 0 < b →
  (ceil_div a b - 1) * b < a ∧ a ≤ ceil_div a b * b.
Proof.
  intros Hb. unfold ceil_div.
  pose proof (Z.div_mod (- a) b ltac:(lia)) as Hdm.
  pose proof (Z.mod_pos_bound (- a) b Hb) as Hmod.
  nia.
Qed.

Lemma ceil_div_nonneg a b : 0 ≤ a → 0 < b → 0 ≤ ceil_div a b.
Proof. intros Ha Hb. destruct (ceil_div_spec a b Hb). nia. Qed.

Lemma ascii_digit_isdigit c : is_ascii_digit c = true → chr_isdigit c = true.
Proof. unfold chr_isdigit. by intros ->. Qed.

Lemma ascii_digits_isdigit s :
  str_nonempty s = true → str_forall is_ascii_digit s = true → isdigit s = true.
Proof.
  intros Hne Hall. unfold isdigit. rewrite Hne. cbn.
  induction s as [|c s IH]; [done|].
  cbn in Hall |- *. apply andb_prop in Hall as [Hc Hs].
  rewrite (ascii_digit_isdigit c Hc). cbn.
  destruct s; [done|]. by apply IH.
Qed.

(** C5, as stated, fails: "last" is page 1000000 also when the table has
    more pages than that. *)
Lemma last_page_capped :
  table_content_pagination (Some "last") 1000001 1
  = Ok {| page := 1000000; total_pages := 1000001;
          previous_page := Some 999999; next_page := Some 1000001 |}
  ∧ ¬ (∀ total_rows rows_per_page, 0 ≤ total_rows → 0 < rows_per_page →
         ∃ p, table_content_pagination (Some "last") total_rows rows_per_page = Ok p
              ∧ page p = total_pages p).
Proof.
  split; [reflexivity|].
  intros Hlast.
  destruct (Hlast 1000001 1 ltac:(lia) ltac:(lia)) as (p & Hp & Heq).
  vm_compute in Hp. injection Hp as <-. discriminate Heq.
Qed.

(** C5, amended: for a row count below 2^53 and a positive page size
    below 2^1024 - 2^970 (from where on [float(rows_per_page)] raises
    [OverflowError] and no page is shown), the number of pages is
    [max(1, ceil(total_rows / rows_per_page))] and the page shown lies in
    [1, total_pages]; a missing, empty, negative or otherwise non-digit
    page argument gives page 1; a decimal argument (of at most 4300
    digits) is clamped into [1, total_pages] (so "0" gives 1); and "last"
    gives [min(1000000, total_pages)], the last page whenever there are at
    most 1000000 pages.  With 125 rows and 50 rows per page there are 3
    pages and "last" is page 3. *)
Theorem table_content_pagination_spec (total_rows rows_per_page : Z) :
  0 ≤ total_rows < 2 ^ 53 → 0 < rows_per_page < FLOAT_OVERFLOW →
  let pages := Z.max 1 (ceil_div total_rows rows_per_page) in
  ((ceil_div total_rows rows_per_page - 1) * rows_per_page < total_rows
   ∧ total_rows ≤ ceil_div total_rows rows_per_page * rows_per_page)
  ∧ (∀ page_arg p,
       table_content_pagination page_arg total_rows rows_per_page = Ok p →
       total_pages p = pages ∧ 1 ≤ page p ≤ pages)
  ∧ (∀ page_arg,
       get_or_empty page_arg ≠ "last" → isdigit (get_or_empty page_arg) = false →
       ∃ p, table_content_pagination page_arg total_rows rows_per_page = Ok p
            ∧ page p = 1)
  ∧ (∀ s, str_nonempty s = true → str_forall is_ascii_digit s = true →
       (String.length s ≤ MAX_STR_DIGITS)%nat →
       ∃ p, table_content_pagination (Some s) total_rows rows_per_page = Ok p
            ∧ page p = Z.max (Z.min (digits_value 0 s) pages) 1)
  ∧ (∃ p, table_content_pagination (Some "last") total_rows rows_per_page = Ok p
          ∧ page p = Z.min 1000000 pages
          ∧ (pages ≤ 1000000 → page p = pages))
  ∧ (∀ page_arg too_many, FLOAT_OVERFLOW ≤ too_many →
       ∃ e, table_content_pagination page_arg total_rows too_many = Raise e)
  ∧ (∃ p, table_content_pagination (Some "last") 125 50 = Ok p
          ∧ page p = 3 ∧ total_pages p = 3)
  ∧ (∃ p, table_content_pagination (Some "0") 125 50 = Ok p ∧ page p = 1)
  ∧ (∃ p, table_content_pagination (Some "-1") 125 50 = Ok p ∧ page p = 1).
Proof.
  intros Hrows Hsize pages.
  subst pages.
  assert ((rows_per_page =? 0) = false) as Hnz by (apply Z.eqb_neq; lia).
  assert (2 ^ 53 ≤ FLOAT_OVERFLOW) as Hbig by (apply Z.leb_le; vm_compute; reflexivity).
  assert (float_fits rows_per_page = true) as Hfit.
  { unfold float_fits. apply Z.ltb_lt. lia. }
  assert (float_fits total_rows = true) as Hfit'.
  { unfold float_fits. apply Z.ltb_lt. lia. }
  split; [apply ceil_div_spec; lia|]. split; [|split; [|split; [|split; [|split]]]].
  - intros page_arg p. unfold table_content_pagination. rewrite Hfit, Hfit', Hnz.
    destruct (if isdigit _ then _ else _) as [n|e]; cbn; [|discriminate].
    intros [= <-]. cbn. lia.
  - intros page_arg Hlast Hdigit. unfold table_content_pagination.
    unfold str_eqb. rewrite bool_decide_eq_false_2 by done.
    rewrite Hdigit, Hfit, Hfit', Hnz. cbn. eexists. split; [reflexivity|]. cbn. lia.
  - intros s Hne Hall Hlen. unfold table_content_pagination. cbn [get_or_empty].
    assert (str_eqb s "last" = false) as ->.
    { unfold str_eqb. apply bool_decide_eq_false. intros ->. discriminate Hall. }
    rewrite (ascii_digits_isdigit s Hne Hall). unfold int_of_digits.
    rewrite Hne, Hall, Hfit, Hfit', Hnz.
    assert ((MAX_STR_DIGITS <? String.length s)%nat = false) as ->
      by (apply Nat.ltb_ge; exact Hlen).
    cbn. eexists. split; reflexivity.
  - unfold table_content_pagination. rewrite Hfit, Hfit', Hnz.
    change (str_eqb (get_or_empty (Some "last")) "last") with true.
    change (isdigit "1000000") with true.
    change (int_of_digits "1000000") with (Ok 1000000).
    cbn [rbind negb orb]. eexists. split; [reflexivity|]. cbn [page].
    change (digits_value 0 "1000000") with 1000000. lia.
  - intros page_arg too_many Hmany. unfold table_content_pagination.
    assert (float_fits too_many = false) as ->.
    { unfold float_fits. apply Z.ltb_ge. lia. }
    destruct (if isdigit _ then _ else _) as [n|e]; cbn; by eexists.
  - split; [|split]; eexists; (split; [vm_compute; reflexivity|]); cbn; done.
Qed.

Lemma table_content_pagination_spec_witness :
  (∃ p, table_content_pagination (Some "2") 125 50 = Ok p
        ∧ page p = Z.max (Z.min 2 (Z.max 1 (ceil_div 125 50))) 1)
  ∧ (∃ p, table_content_pagination (Some "last") 125 50 = Ok p
          ∧ page p = Z.min 1000000 (Z.max 1 (ceil_div 125 50))
          ∧ (Z.max 1 (ceil_div 125 50) ≤ 1000000 → page p = Z.max 1 (ceil_div 125 50))).
Proof.
  assert (0 < 50 < FLOAT_OVERFLOW) as Hsize by (split; reflexivity).
  destruct (table_content_pagination_spec 125 50 ltac:(lia) Hsize)
    as (_ & _ & _ & Hdec & Hlast & _).
  split; [|exact Hlast].
  apply (Hdec "2" eq_refl eq_refl). unfold MAX_STR_DIGITS. cbn. lia.
Defined.

(** ** Structural views *)

Section structural.
Context `{Engine}.

Lemma run_migrate_spec op w :
  match migrate op (database w) with
  | Ok db =>
      run_migrate op w
      = (Ok tt, set_database db (log_statement (MigrateStmt op) w))
  | Raise e => run_migrate op w = (Raise e, log_statement (MigrateStmt op) w)
  end.
Proof. unfold run_migrate. cbn. by destruct (migrate op (database w)). Qed.

Lemma update_cache_database table w : database (update_cache table w) = database w.
Proof. unfold update_cache. by destruct (database w !! table). Qed.

Lemma update_cache_executed table w : executed (update_cache table w) = executed w.
Proof. unfold update_cache. by destruct (database w !! table). Qed.

Lemma update_cache_flashes table w : flashes (update_cache table w) = flashes w.
Proof. unfold update_cache. by destruct (database w !! table). Qed.

(** After [update_cache], the cached model of the table is the one
    generated from the live table. *)
Lemma update_cache_fresh table w t :
  database w !! table = Some t →
  models (update_cache table w) !! table = Some (generate_model table t).
Proof. intros Ht. unfold update_cache. rewrite Ht. cbn. apply lookup_insert_eq. Qed.

(** The three column operations rebuild the cached model when they
    succeed. *)
Lemma column_views_refresh_cache table request w w' :
  add_column table request w = (Ok (Redirect "table_structure" None), w')
  ∨ drop_column table request w = (Ok (Redirect "table_structure" None), w')
  ∨ rename_column table request w = (Ok (Redirect "table_structure" None), w') →
  ∃ op db, migrate op (database w) = Ok db
           ∧ database w' = db
           ∧ executed w' = (executed w ++ [MigrateStmt op])%list
           ∧ ∀ t, db !! table = Some t →
                  models w' !! table = Some (generate_model table t).
Proof.
  unfold add_column, drop_column, rename_column, require_table, run_migrate.
  destruct (database w !! table) as [t0|]; [|intros [?|[?|?]]; discriminate].
  destruct (method request); [intros [?|[?|?]]; discriminate|].
  intros [Hv|[Hv|Hv]].
  - destruct (if str_nonempty _ then _ else _) as [cls|]; [|discriminate].
    destruct (build_column _ _ _ _ _ _) as [col|e]; [|discriminate].
    cbn in Hv. destruct (migrate _ (database w)) as [db|e] eqn:Em; [|discriminate].
    injection Hv as <-. eexists _, db. split; [exact Em|].
    rewrite update_cache_database, update_cache_executed. cbn.
    split; [done|]. split; [done|]. intros t Ht. by apply update_cache_fresh.
  - destruct (bool_decide _); [|discriminate].
    cbn in Hv. destruct (migrate _ (database w)) as [db|e] eqn:Em; [|discriminate].
    injection Hv as <-. eexists _, db. split; [exact Em|].
    rewrite update_cache_database, update_cache_executed. cbn.
    split; [done|]. split; [done|]. intros t Ht. by apply update_cache_fresh.
  - destruct (_ && _); [|discriminate].
    cbn in Hv. destruct (migrate _ (database w)) as [db|e] eqn:Em; [|discriminate].
    injection Hv as <-. eexists _, db. split; [exact Em|].
    rewrite update_cache_database, update_cache_executed. cbn.
    split; [done|]. split; [done|]. intros t Ht. by apply update_cache_fresh.
Qed.

(** [add_index] never touches the cached models. *)
Lemma add_index_cache_untouched table request w :
  models (snd (add_index table request w)) = models w.
Proof.
  unfold add_index, require_table, run_migrate.
  destruct (database w !! table); [|done].
  destruct (method request); [done|].
  destruct (md_getlist _ _); [done|].
  cbn. by destruct (migrate _ (database w)).
Qed.

(** [drop_index] never hands a statement to the engine and never
    redirects. *)
Lemma drop_index_never_drops table request w :
  (∃ ctx msgs,
     (fst (drop_index table request w) = Ok (Render "drop_index.html" ctx)
      ∨ fst (drop_index table request w) = Ok (Abort 404))
     ∧ flashes (snd (drop_index table request w)) = (flashes w ++ msgs)%list)
  ∧ database (snd (drop_index table request w)) = database w
  ∧ executed (snd (drop_index table request w)) = executed w
  ∧ models (snd (drop_index table request w)) = models w.
Proof.
  unfold drop_index, require_table.
  destruct (database w !! table).
  2:{ cbn. split; [|done]. exists no_context, []. rewrite app_nil_r. auto. }
  destruct (method request).
  { cbn. split; [|done]. exists no_context, []. rewrite app_nil_r. auto. }
  destruct (bool_decide _); cbn; (split; [|done]); eexists no_context, [_]; auto.
Qed.
End structural.

(** C1 fails on [add_index]: the index is created and the view redirects,
    but the cached model of the table is the one from before, without the
    new index, and differs from the model of the live table. *)
Theorem add_index_leaves_cache_stale :
  let request := post [("indexed_columns", "b")] in
  let result := @add_index reference_engine "t" request example_world in
  fst result = Ok (Redirect "table_structure" None)
  ∧ map index_name (get_indexes "t" (snd result)) = ["t_a"; "t_b"]
  ∧ models (snd result) = models example_world
  ∧ (meta_indexes <$> models (snd result) !! "t") = Some [(["a"], false)]
  ∧ (meta_indexes <$> (reference_model "t" <$> database (snd result) !! "t"))
    = Some [(["a"], false); (["b"], false)].
Proof. vm_compute. repeat split. Qed.

(** C3 fails on every existing index: [drop_index] reads [_migrator] from
    the list of indexes, the attribute error is caught, and the view
    reports it; no statement reaches the engine and the index stays. *)
Theorem drop_index_fails_on_existing_index :
  let request := post [("name", "t_a")] in
  let result := @drop_index reference_engine "t" request example_world in
  "t_a" ∈ map index_name (get_indexes "t" example_world)
  ∧ fst result = Ok (Render "drop_index.html" no_context)
  ∧ flashes (snd result)
    = [("Error attempting to drop index: 'list' object has no attribute '_migrator'",
        "danger")]
  ∧ executed (snd result) = []
  ∧ map index_name (get_indexes "t" (snd result)) = ["t_a"].
Proof.
  cbv zeta. split; [|vm_compute; repeat split].
  apply elem_of_cons. by left.
Qed.

(** C7: a POST to [rename_column] in which both the old and the new name
    are columns of the table is answered with the conflict message; no
    statement is handed to the engine, and the database, its columns and
    the cached models are as before. *)
Theorem rename_column_conflict `{Engine} (table : string) (request : Request)
    (w : World) (t : Table) :
  method request = POST →
  database w !! table = Some t →
  get_or_empty (md_get (form request) "rename") ∈ map column_name (columns t) →
  get_or_empty (md_get (form request) "rename_to") ∈ map column_name (columns t) →
  rename_column table request w
  = (Ok (Render "rename_column.html" no_context), flash RENAME_CONFLICT "danger" w)
  ∧ executed (snd (rename_column table request w)) = executed w
  ∧ database (snd (rename_column table request w)) = database w
  ∧ get_columns table (snd (rename_column table request w)) = columns t
  ∧ models (snd (rename_column table request w)) = models w.
Proof.
  intros Hpost Ht Hold Hnew.
  assert (rename_column table request w
          = (Ok (Render "rename_column.html" no_context),
             flash RENAME_CONFLICT "danger" w)) as Hv.
  { unfold rename_column, require_table, get_request_data, get_columns.
    rewrite Ht, Hpost.
    rewrite (bool_decide_eq_true_2 _ Hold), (bool_decide_eq_true_2 _ Hnew).
    reflexivity. }
  rewrite Hv. cbn. unfold get_columns. cbn. by rewrite Ht.
Qed.

Lemma rename_column_conflict_witness :
  @rename_column reference_engine "t" (post [("rename", "a"); ("rename_to", "b")])
    example_world
  = (Ok (Render "rename_column.html" no_context),
     flash RENAME_CONFLICT "danger" example_world).
Proof.
  apply (@rename_column_conflict reference_engine "t"
           (post [("rename", "a"); ("rename_to", "b")]) example_world example_table).
  - reflexivity.
  - reflexivity.
  - apply elem_of_cons. right. apply elem_of_cons. by left.
  - apply elem_of_cons. right. apply elem_of_cons. right. apply elem_of_cons. by left.
Defined.

(** ** Row views *)

(** *** Multi-dict items *)

Lemma md_items_go_elem seen md k v :
  (k, v) ∈ md_items_go seen md → (k ∉ seen) ∧ ((k, v) ∈ md).
Proof.
  revert seen. induction md as [|[k0 v0] md IH]; intros seen; cbn.
  - intros Hin. by apply elem_of_nil in Hin.
  - case_bool_decide as Hseen.
    + intros Hin. destruct (IH _ Hin) as [Hk Hmd]. split; [done|].
      apply elem_of_cons. by right.
    + intros Hin. apply elem_of_cons in Hin as [Heq|Hin].
      * injection Heq as Hk Hv. subst k0 v0.
        split; [done|]. apply elem_of_cons. by left.
      * destruct (IH _ Hin) as [Hk Hmd]. split; [set_solver|].
        apply elem_of_cons. by right.
Qed.

Lemma md_items_go_NoDup seen md : NoDup (map fst (md_items_go seen md)).
Proof.
  revert seen. induction md as [|[k0 v0] md IH]; intros seen; cbn.
  - constructor.
  - case_bool_decide as Hseen; [apply IH|].
    cbn. constructor; [|apply IH].
    intros Hin. apply list_elem_of_In, in_map_iff in Hin as ([k v] & Hk & Hin).
    cbn in Hk. subst k. apply list_elem_of_In, md_items_go_elem in Hin as [Hk _].
    set_solver.
Qed.

Lemma md_items_NoDup md : NoDup (map fst (md_items md)).
Proof. apply md_items_go_NoDup. Qed.

(** Dropping entries by a test on the key commutes with [items]. *)
Lemma md_items_go_filter (P : string → Prop) `{∀ k, Decision (P k)} md :
  ∀ seen seen',
    (∀ k, P k → k ∈ seen ↔ k ∈ seen') →
    md_items_go seen (filter (λ kv, P (fst kv)) md)
    = filter (λ kv, P (fst kv)) (md_items_go seen' md).
Proof.
  induction md as [|[k0 v0] md IH]; intros seen seen' Hagree; [reflexivity|].
  rewrite filter_cons. cbn [fst md_items_go].
  destruct (decide (P k0)) as [HP|HP].
  - cbn [md_items_go]. pose proof (Hagree k0 HP) as Hk0.
    case_bool_decide as Hs; case_bool_decide as Hs'; try tauto.
    + by apply IH.
    + rewrite filter_cons. cbn [fst]. rewrite decide_True by done.
      f_equal. apply IH. intros k Hk. specialize (Hagree k Hk).
      set_solver.
  - case_bool_decide as Hs'.
    + by apply IH.
    + rewrite filter_cons. cbn [fst]. rewrite decide_False by done.
      apply IH. intros k Hk. assert (k ≠ k0) by congruence. set_solver.
Qed.

Lemma md_items_filter (P : string → Prop) `{∀ k, Decision (P k)} md :
  md_items (filter (λ kv, P (fst kv)) md) = filter (λ kv, P (fst kv)) (md_items md).
Proof. by apply md_items_go_filter. Qed.

(** *** The column dictionary *)

Lemma make_col_dict_lookup columns k c :
  make_col_dict columns !! k = Some c → c ∈ columns ∧ column_name c = k.
Proof.
  unfold make_col_dict.
  cut (∀ d : gmap string ColumnMetadata,
         foldl (λ d column, <[column_name column := column]> d) d columns !! k = Some c →
         (c ∈ columns ∧ column_name c = k) ∨ d !! k = Some c).
  { intros Hgen Hk. destruct (Hgen ∅ Hk) as [?|Hd]; [done|].
    by rewrite lookup_empty in Hd. }
  induction columns as [|c0 columns IH]; intros d; cbn; [by right|].
  intros Hk. destruct (IH _ Hk) as [[Hin Hname]|Hd].
  - left. split; [|done]. apply elem_of_cons. by right.
  - destruct (decide (column_name c0 = k)) as [Heq|Hne].
    + rewrite Heq, lookup_insert_eq in Hd. injection Hd as <-.
      left. split; [|done]. apply elem_of_cons. by left.
    + rewrite lookup_insert_ne in Hd by done. by right.
Qed.

Lemma insert_columns_kept model columns kept :
  insert_columns model columns = Ok kept →
  ∀ c, c ∈ kept → c ∈ columns ∧ is_Some (meta_columns model !! column_name c).
Proof.
  revert kept. induction columns as [|c0 columns IH]; intros kept; cbn.
  - intros [= <-] c Hc. by apply elem_of_nil in Hc.
  - unfold getitem. destruct (meta_columns model !! column_name c0) as [f|] eqn:Ef;
      [|discriminate].
    cbn. destruct (insert_columns model columns) as [kept0|]; [|discriminate].
    cbn. intros Hk c Hc.
    assert (c ∈ kept0 ∨ c = c0) as [Hin | ->].
    { destruct (isinstance_AutoField _); injection Hk as <-; [by left|].
      apply elem_of_cons in Hc as [->|Hc]; [by right|by left]. }
    + destruct (IH kept0 eq_refl c Hin) as [Hcol Hf]. split; [|done].
      apply elem_of_cons. by right.
    + split; [apply elem_of_cons; by left|]. rewrite Ef. by eexists.
Qed.

Lemma column_set_spec table w k :
  k ∈ column_set table w ↔ ∃ c, c ∈ get_columns table w ∧ column_name c = k.
Proof.
  unfold column_set. rewrite elem_of_list_to_set, list_elem_of_In, in_map_iff.
  split; intros (c & H1 & H2); exists c.
  - split; [by apply list_elem_of_In|done].
  - split; [done|by apply list_elem_of_In].
Qed.

(** *** The form loop *)

Section form_loop.
Context `{Adapters}.
Variable model : Model.
Variable col_dict : gmap string ColumnMetadata.

(** Entries whose key is not in [col_dict] can be dropped beforehand. *)
Lemma form_loop_filter (P : string → Prop) `{∀ k, Decision (P k)} items :
  (∀ k, is_Some (col_dict !! k) → P k) →
  ∀ st, form_loop model col_dict (filter (λ kv, P (fst kv)) items) st
        = form_loop model col_dict items st.
Proof.
  intros Hdom. induction items as [|[k v] items IH]; intros st; [reflexivity|].
  rewrite filter_cons. cbn [fst].
  destruct (decide (P k)) as [HP|HP].
  - cbn [form_loop]. destruct (col_dict !! k) as [column|]; [|apply IH].
    destruct (getitem _ _) as [field|]; [|reflexivity]. cbn [rbind].
    destruct (minimal_validate_field field v) as [checked|]; [|reflexivity].
    cbn [rbind]. destruct (err_truthy _); apply IH.
  - cbn [form_loop]. destruct (col_dict !! k) as [column|] eqn:Ek; [|apply IH].
    exfalso. apply HP, Hdom. by eexists.
Qed.

(** Errors recorded for keys that do not come again stay, and every
    failing entry is recorded with its message. *)
Lemma form_loop_errors items : ∀ st st',
  NoDup (map fst items) →
  form_loop model col_dict items st = Ok st' →
  (∀ k m, st_errors st !! k = Some m → k ∉ map fst items →
          st_errors st' !! k = Some m)
  ∧ (∀ k v msg, (k, v) ∈ items → entry_fails model col_dict k v msg →
                st_errors st' !! k = Some msg).
Proof.
  induction items as [|[k0 v0] items IH]; intros st st' Hnd Hloop.
  - injection Hloop as <-. split; [done|].
    intros k v msg Hin. by apply elem_of_nil in Hin.
  - cbn in Hnd. apply NoDup_cons in Hnd as [Hk0 Hnd].
    cbn [form_loop] in Hloop.
    destruct (col_dict !! k0) as [column|] eqn:Ek0.
    + unfold getitem in Hloop.
      destruct (meta_columns model !! column_name column) as [field|] eqn:Ef;
        [|discriminate].
      cbn [rbind] in Hloop.
      destruct (minimal_validate_field field v0) as [[v1 err]|] eqn:Ev;
        [|discriminate].
      cbn [rbind fst snd] in Hloop.
      destruct (err_truthy err) eqn:Et.
      * destruct (IH _ _ Hnd Hloop) as [IHa IHb]. split.
        -- intros k m Hk Hnotin. apply IHa.
           ++ cbn. rewrite lookup_insert_ne; [done|].
              intros ->. apply Hnotin. cbn. apply elem_of_cons. by left.
           ++ intros Hin. apply Hnotin. cbn. apply elem_of_cons. by right.
        -- intros k v msg Hin Hfail.
           apply elem_of_cons in Hin as [Heq|Hin]; [|by eapply IHb].
           injection Heq as -> ->.
           destruct Hfail as (column' & field' & v' & Hc & Hf & Hv & Hmsg).
           rewrite Ek0 in Hc. injection Hc as <-.
           rewrite Ef in Hf. injection Hf as <-.
           rewrite Ev in Hv. injection Hv as -> ->.
           apply IHa; [|done]. cbn. apply lookup_insert_eq.
      * destruct (IH _ _ Hnd Hloop) as [IHa IHb]. split.
        -- intros k m Hk Hnotin. apply IHa; [done|].
           intros Hin. apply Hnotin. cbn. apply elem_of_cons. by right.
        -- intros k v msg Hin Hfail.
           apply elem_of_cons in Hin as [Heq|Hin]; [|by eapply IHb].
           injection Heq as -> ->.
           destruct Hfail as (column' & field' & v' & Hc & Hf & Hv & Hmsg).
           rewrite Ek0 in Hc. injection Hc as <-.
           rewrite Ef in Hf. injection Hf as <-.
           rewrite Ev in Hv. injection Hv as -> ->.
           cbn in Et. by destruct msg.
    + destruct (IH _ _ Hnd Hloop) as [IHa IHb]. split.
      * intros k m Hk Hnotin. apply IHa; [done|].
        intros Hin. apply Hnotin. cbn. apply elem_of_cons. by right.
      * intros k v msg Hin Hfail.
        apply elem_of_cons in Hin as [Heq|Hin]; [|by eapply IHb].
        injection Heq as -> ->.
        destruct Hfail as (column' & _ & _ & Hc & _). by rewrite Ek0 in Hc.
Qed.

(** The loop touches the columns of [col_dict] only. *)
Lemma form_loop_domains (D : gset string) items : ∀ st st',
  (∀ k c, col_dict !! k = Some c → k ∈ D ∧ column_name c ∈ D) →
  form_loop model col_dict items st = Ok st' →
  dom (st_errors st) ⊆ D → dom (st_values st) ⊆ D → st_edited st ⊆ D →
  dom (st_errors st') ⊆ D ∧ dom (st_values st') ⊆ D ∧ st_edited st' ⊆ D.
Proof.
  induction items as [|[k0 v0] items IH]; intros st st' HD Hloop He Hv Hed.
  - by injection Hloop as <-.
  - cbn [form_loop] in Hloop.
    destruct (col_dict !! k0) as [column|] eqn:Ek0; [|by eapply IH].
    destruct (HD _ _ Ek0) as [Hk0 Hcol].
    destruct (getitem _ _) as [field|]; [|discriminate]. cbn [rbind] in Hloop.
    destruct (minimal_validate_field field v0) as [checked|]; [|discriminate].
    cbn [rbind] in Hloop.
    destruct (err_truthy _); (eapply IH; [done|exact Hloop|..]); cbn;
      rewrite ?dom_insert_L; set_solver.
Qed.

(** With a field for every column of [col_dict], the loop returns. *)
Lemma form_loop_returns items : ∀ st,
  (∀ k c, col_dict !! k = Some c → is_Some (meta_columns model !! column_name c)) →
  ∃ st', form_loop model col_dict items st = Ok st'.
Proof.
  induction items as [|[k0 v0] items IH]; intros st Hf; [by eexists|].
  cbn [form_loop].
  destruct (col_dict !! k0) as [column|] eqn:Ek0; [|by apply IH].
  destruct (Hf _ _ Ek0) as [field Efield]. unfold getitem. rewrite Efield.
  cbn [rbind].
  destruct (minimal_validate_field_returns field v0) as (v & err & ->).
  cbn [rbind]. destruct (err_truthy _); by apply IH.
Qed.
End form_loop.

(** *** The views *)

Section row_views.
Context `{Engine} `{Adapters}.

Lemma getitem_models_fresh table w t :
  database w !! table = Some t →
  getitem (models (update_cache table w)) table = Ok (generate_model table t).
Proof. intros Ht. unfold getitem. by rewrite (update_cache_fresh table w t Ht). Qed.

Lemma get_columns_update_cache table w :
  get_columns table (update_cache table w) = get_columns table w.
Proof. unfold get_columns. by rewrite update_cache_database. Qed.

Lemma col_dict_in_column_set table w columns :
  (∀ c, c ∈ columns → c ∈ get_columns table w) →
  ∀ k c, make_col_dict columns !! k = Some c →
         k ∈ column_set table w ∧ column_name c ∈ column_set table w.
Proof.
  intros Hsub k c Hk. apply make_col_dict_lookup in Hk as [Hin Hname].
  rewrite Hname. split; apply column_set_spec; exists c; auto.
Qed.

Lemma known_entries_items table w fields :
  md_items (known_entries table w fields) = known_entries table w (md_items fields).
Proof. exact (md_items_filter (λ k, k ∈ column_set table w) fields). Qed.

Lemma form_loop_known table w model col_dict items st :
  (∀ k, is_Some (col_dict !! k) → k ∈ column_set table w) →
  form_loop model col_dict (known_entries table w items) st
  = form_loop model col_dict items st.
Proof.
  intros Hdom.
  exact (form_loop_filter model col_dict (λ k, k ∈ column_set table w) items Hdom st).
Qed.

Lemma table_insert_known table request w :
  table_insert table (with_form (known_entries table w (form request)) request) w
  = table_insert table request w.
Proof.
  unfold table_insert, require_table.
  destruct (database w !! table); [|reflexivity]. cbv zeta.
  destruct (getitem _ table) as [model|]; [|reflexivity].
  destruct (insert_columns model _) as [columns|] eqn:Ecols; [|reflexivity].
  cbn [method with_form form]. destruct (method request); [reflexivity|].
  rewrite known_entries_items.
  rewrite form_loop_known; [reflexivity|].
  intros k [c Hc].
  eapply (col_dict_in_column_set table w columns); [|exact Hc].
  intros c' Hc'. rewrite <- (get_columns_update_cache table w).
  by eapply insert_columns_kept.
Qed.

Lemma table_update_fetched_known table model expr obj request w w1 :
  (∀ c, c ∈ get_columns table w1 → c ∈ get_columns table w) →
  table_update_fetched table model expr obj
    (with_form (known_entries table w (form request)) request) w1
  = table_update_fetched table model expr obj request w1.
Proof.
  intros Hsub. unfold table_update_fetched. cbv zeta.
  destruct (update_row _ _ _) as [row|]; [|reflexivity].
  cbn [method with_form form]. destruct (method request); [reflexivity|].
  rewrite known_entries_items.
  rewrite form_loop_known; [reflexivity|].
  intros k [c Hc].
  by eapply (col_dict_in_column_set table w (get_columns table w1)).
Qed.

Lemma table_update_known table pk request w :
  table_update table pk (with_form (known_entries table w (form request)) request) w
  = table_update table pk request w.
Proof.
  unfold table_update, require_table.
  destruct (database w !! table); [|reflexivity]. cbv zeta.
  destruct (getitem _ table) as [model|]; [|reflexivity].
  destruct (meta_primary_key model); [| |reflexivity];
    (destruct (str_eqb pk UNEDITABLE); [reflexivity|]);
    (destruct (decode_pk model (PStr pk)) as [expr|]; [|reflexivity]);
    (destruct (model_get _ _ _) as [obj|]; [|reflexivity]);
    apply table_update_fetched_known;
    intros c Hc; by rewrite <- (get_columns_update_cache table w).
Qed.
End row_views.

(** C4, amended: when an entry of a posted form for a column of the insert
    form fails validation, [table_insert] answers with the form page and
    the error flash; no statement is handed to the engine, the database is
    as before, and the page carries the error of every such failing entry.
    The columns of the insert form, [cols], are those of the table whose
    field is not an [AutoField]. *)
Theorem table_insert_rejects_invalid `{Engine} `{Adapters}
    (table : string) (request : Request) (w : World) (t : Table)
    (cols : list ColumnMetadata) (key value msg : string) :
  method request = POST →
  database w !! table = Some t →
  insert_columns (generate_model table t) (columns t) = Ok cols →
  (key, value) ∈ md_items (form request) →
  entry_fails (generate_model table t) (make_col_dict cols) key value msg →
  ∃ ctx,
    table_insert table request w
    = (Ok (Render "table_insert.html" ctx),
       flash INSERT_ERRORS "danger" (update_cache table w))
    ∧ executed (snd (table_insert table request w)) = executed w
    ∧ database (snd (table_insert table request w)) = database w
    ∧ ∀ k v m, (k, v) ∈ md_items (form request) →
               entry_fails (generate_model table t) (make_col_dict cols) k v m →
               ctx_errors ctx !! k = Some m.
Proof.
  intros Hpost Ht Hcols Hin Hfail.
  set (model := generate_model table t) in *.
  set (col_dict := make_col_dict cols) in *.
  set (st0 := {| st_edited := ∅;
                 st_row := foldl (λ r column, <[column_name column := PStr EmptyString]> r) ∅ cols;
                 st_errors := ∅; st_values := ∅ |}).
  destruct (form_loop_returns model col_dict (md_items (form request)) st0) as [st Hloop].
  { intros k c Hk. apply make_col_dict_lookup in Hk as [Hc _].
    by destruct (insert_columns_kept _ _ _ Hcols c Hc). }
  destruct (form_loop_errors model col_dict _ _ _ (md_items_NoDup _) Hloop) as [_ Herr].
  assert (table_insert table request w
          = (Ok (Render "table_insert.html" (context_of st)),
             flash INSERT_ERRORS "danger" (update_cache table w))) as Hview.
  { unfold table_insert, require_table. rewrite Ht. cbv zeta.
    rewrite (getitem_models_fresh table w t Ht).
    rewrite get_columns_update_cache. unfold get_columns at 1. rewrite Ht.
    fold model. rewrite Hcols, Hpost. fold col_dict. fold st0. rewrite Hloop.
    rewrite bool_decide_eq_false_2; [reflexivity|].
    intros Hempty. specialize (Herr _ _ _ Hin Hfail).
    rewrite Hempty, lookup_empty in Herr. discriminate Herr. }
  exists (context_of st). rewrite Hview. cbn [snd].
  split; [reflexivity|]. split; [apply update_cache_executed|].
  split; [apply update_cache_database|]. exact Herr.
Qed.

Lemma table_insert_rejects_invalid_witness :
  ∃ ctx,
    @table_insert reference_engine reference_adapters "t"
      (post [("a", "hello"); ("b", "oops")]) example_world
    = (Ok (Render "table_insert.html" ctx),
       flash INSERT_ERRORS "danger" (@update_cache reference_engine "t" example_world))
    ∧ ctx_errors ctx !! "b" = Some "Value is not a number.".
Proof.
  assert (@entry_fails reference_adapters (reference_model "t" example_table)
            (make_col_dict [column_a; column_b]) "b" "oops" "Value is not a number.")
    as Hfail.
  { exists column_b, (field_of_column column_b), (PStr "oops").
    split; [reflexivity|]. split; [reflexivity|]. split; [reflexivity|discriminate]. }
  assert (("b", "oops") ∈ md_items (form (post [("a", "hello"); ("b", "oops")]))) as Hin.
  { apply elem_of_cons. right. apply elem_of_cons. by left. }
  destruct (@table_insert_rejects_invalid reference_engine reference_adapters "t"
              (post [("a", "hello"); ("b", "oops")]) example_world example_table
              [column_a; column_b] "b" "oops" "Value is not a number."
              eq_refl eq_refl eq_refl Hin Hfail)
    as (ctx & Hview & _ & _ & Herrors).
  exists ctx. split; [exact Hview|]. exact (Herrors _ _ _ Hin Hfail).
Defined.

(** C4, as stated, fails: a value the codec refuses does not stop the
    insert when it is given for an auto-generated key.  The insert form
    leaves such a column out, and an entry for it is passed over like an
    unknown one, without being validated: with "abc" for [id], which the
    codec finds not to be a number, and "x" for [a], a row is inserted. *)
Lemma table_insert_passes_over_auto_column :
  meta_columns (reference_model "t" example_table) !! "id" = Some (field_of_column column_id)
  ∧ @minimal_validate_field reference_adapters (field_of_column column_id) "abc"
    = Ok (PStr "abc", Some "Value is not a number.")
  ∧ fst (@table_insert reference_engine reference_adapters "t"
           (post [("id", "abc"); ("a", "x")]) example_world)
    = Ok (Redirect "table_content" (Some "last"))
  ∧ executed (snd (@table_insert reference_engine reference_adapters "t"
                     (post [("id", "abc"); ("a", "x")]) example_world))
    = [InsertStmt "t" {[ "a" := PStr "x" ]}]
  ∧ ¬ (∀ request key value field v msg,
         method request = POST →
         (key, value) ∈ md_items (form request) →
         meta_columns (reference_model "t" example_table) !! key = Some field →
         @minimal_validate_field reference_adapters field value = Ok (v, Some msg) →
         msg ≠ "" →
         executed (snd (@table_insert reference_engine reference_adapters "t"
                          request example_world)) = []).
Proof.
  split; [reflexivity|]. split; [reflexivity|]. split; [reflexivity|].
  split; [reflexivity|].
  intros Hall.
  specialize (Hall (post [("id", "abc"); ("a", "x")]) "id" "abc"
                (field_of_column column_id) (PStr "abc") "Value is not a number."
                eq_refl).
  assert (executed (snd (@table_insert reference_engine reference_adapters "t"
                           (post [("id", "abc"); ("a", "x")]) example_world)) = [])
    as Hnone.
  { apply Hall; [apply elem_of_cons; by left|reflexivity|reflexivity|discriminate]. }
  vm_compute in Hnone. discriminate Hnone.
Qed.

(** ** Unknown form entries *)

Section touched_columns.
Context `{Engine} `{Adapters}.

Lemma table_insert_touches table request w resp w' :
  table_insert table request w = (resp, w') →
  (executed w' = executed w
   ∨ ∃ values, executed w' = (executed w ++ [InsertStmt table values])%list
               ∧ dom values ⊆ column_set table w)
  ∧ (∀ template ctx, resp = Ok (Render template ctx) →
       dom (ctx_errors ctx) ⊆ column_set table w
       ∧ ctx_edited ctx ⊆ column_set table w).
Proof.
  unfold table_insert, require_table.
  destruct (database w !! table) as [t|].
  2:{ intros [= <- <-]. split; [by left|]. intros ? ? [=]. }
  cbv zeta.
  destruct (getitem _ table) as [model|].
  2:{ intros [= <- <-]. rewrite update_cache_executed.
      split; [by left|]. intros ? ? [=]. }
  destruct (insert_columns model _) as [cols|] eqn:Ecols.
  2:{ intros [= <- <-]. rewrite update_cache_executed.
      split; [by left|]. intros ? ? [=]. }
  assert (∀ k c, make_col_dict cols !! k = Some c →
                 k ∈ column_set table w ∧ column_name c ∈ column_set table w) as HD.
  { apply col_dict_in_column_set. intros c Hc.
    rewrite <- (get_columns_update_cache table w).
    by eapply insert_columns_kept. }
  destruct (method request).
  { intros [= <- <-]. rewrite update_cache_executed. split; [by left|].
    intros ? ? [= <- <-]. cbn. split; [set_solver|].
    intros k Hk. apply elem_of_dom in Hk as [c Hc]. by destruct (HD _ _ Hc). }
  destruct (form_loop _ _ _ _) as [st|] eqn:Hloop.
  2:{ intros [= <- <-]. rewrite update_cache_executed.
      split; [by left|]. intros ? ? [=]. }
  destruct (form_loop_domains model _ (column_set table w) _ _ _ HD Hloop)
    as (He & Hv & Hed); [cbn; set_solver..|].
  destruct (negb (bool_decide (st_errors st = ∅))).
  { intros [= <- <-]. cbn. rewrite update_cache_executed. split; [by left|].
    by intros ? ? [= <- <-]. }
  destruct (negb (bool_decide (st_values st = ∅))).
  2:{ intros [= <- <-]. cbn. rewrite update_cache_executed. split; [by left|].
      by intros ? ? [= <- <-]. }
  destruct (execute_insert _ _ _) as [[n db]|exc]; intros [= <- <-]; cbn;
    rewrite update_cache_executed.
  - split; [right; by eexists|]. intros ? ? [=].
  - split; [right; by eexists|]. by intros ? ? [= <- <-].
Qed.

Lemma table_update_fetched_touches table model expr obj request w resp w' :
  table_update_fetched table model expr obj request w = (resp, w') →
  (executed w' = executed w
   ∨ ∃ values where_,
       executed w' = (executed w ++ [UpdateStmt table values where_])%list
       ∧ dom values ⊆ column_set table w)
  ∧ (∀ template ctx, resp = Ok (Render template ctx) →
       dom (ctx_errors ctx) ⊆ column_set table w
       ∧ ctx_edited ctx ⊆ column_set table w).
Proof.
  unfold table_update_fetched. cbv zeta.
  destruct (update_row _ _ _) as [row|].
  2:{ intros [= <- <-]. split; [by left|]. intros ? ? [=]. }
  destruct (method request).
  { intros [= <- <-]. split; [by left|]. intros ? ? [= <- <-]. cbn. set_solver. }
  destruct (form_loop _ _ _ _) as [st|] eqn:Hloop.
  2:{ intros [= <- <-]. split; [by left|]. intros ? ? [=]. }
  destruct (form_loop_domains model _ (column_set table w) _ _ _
              (col_dict_in_column_set table w _ (λ c Hc, Hc)) Hloop)
    as (He & Hv & Hed); [cbn; set_solver..|].
  destruct (negb (bool_decide (st_errors st = ∅))).
  { intros [= <- <-]. split; [by left|]. by intros ? ? [= <- <-]. }
  destruct (negb (bool_decide (st_values st = ∅))).
  2:{ intros [= <- <-]. split; [by left|]. by intros ? ? [= <- <-]. }
  destruct (execute_update _ _ _ _) as [[n db]|exc]; intros [= <- <-]; cbn.
  - split; [right; by eexists _, _|]. intros ? ? [=].
  - split; [right; by eexists _, _|]. by intros ? ? [= <- <-].
Qed.

Lemma table_update_touches table pk request w resp w' :
  table_update table pk request w = (resp, w') →
  (executed w' = executed w
   ∨ ∃ values where_,
       executed w' = (executed w ++ [UpdateStmt table values where_])%list
       ∧ dom values ⊆ column_set table w)
  ∧ (∀ template ctx, resp = Ok (Render template ctx) →
       dom (ctx_errors ctx) ⊆ column_set table w
       ∧ ctx_edited ctx ⊆ column_set table w).
Proof.
  assert (∀ (r : result Response) w0,
            executed w0 = executed w →
            (∀ template ctx, r ≠ Ok (Render template ctx)) →
            (r, w0) = (resp, w') →
            (executed w' = executed w
             ∨ ∃ values where_,
                 executed w' = (executed w ++ [UpdateStmt table values where_])%list
                 ∧ dom values ⊆ column_set table w)
            ∧ (∀ template ctx, resp = Ok (Render template ctx) →
                 dom (ctx_errors ctx) ⊆ column_set table w
                 ∧ ctx_edited ctx ⊆ column_set table w)) as Hquiet.
  { intros r w0 Hex Hctx [= <- <-]. split; [by left|].
    intros template ctx Hr. by destruct (Hctx template ctx). }
  unfold table_update, require_table.
  destruct (database w !! table) as [t|]; [|by apply Hquiet].
  cbv zeta.
  destruct (getitem _ table) as [model|];
    [|by apply Hquiet; [apply update_cache_executed|]].
  destruct (meta_primary_key model);
    [| |by apply Hquiet; [apply update_cache_executed|]];
    (destruct (str_eqb pk UNEDITABLE);
       [by apply Hquiet; [apply update_cache_executed|]|]);
    (destruct (decode_pk model (PStr pk)) as [expr|];
       [|by apply Hquiet; [apply update_cache_executed|]]);
    (destruct (model_get _ _ _) as [obj|e];
       [|by destruct e; apply Hquiet; try apply update_cache_executed]);
    intros Hview; apply table_update_fetched_touches in Hview;
    unfold column_set in Hview |- *;
    by rewrite get_columns_update_cache, update_cache_executed in Hview.
Qed.
End touched_columns.

(** C10: in [table_insert] and [table_update], form entries whose key is
    not a column of the table change nothing: the view answers and acts
    as it does on the form without them; the statement handed to the
    engine, if any, writes columns of the table only; and the errors and
    the edited set shown belong to columns of the table. *)
Theorem row_forms_ignore_unknown_columns `{Engine} `{Adapters}
    (table pk : string) (request : Request) (w : World) :
  let known := with_form (known_entries table w (form request)) request in
  table_insert table known w = table_insert table request w
  ∧ table_update table pk known w = table_update table pk request w
  ∧ (∀ resp w', table_insert table request w = (resp, w') →
       (executed w' = executed w
        ∨ ∃ values, executed w' = (executed w ++ [InsertStmt table values])%list
                    ∧ dom values ⊆ column_set table w)
       ∧ (∀ template ctx, resp = Ok (Render template ctx) →
            dom (ctx_errors ctx) ⊆ column_set table w
            ∧ ctx_edited ctx ⊆ column_set table w))
  ∧ (∀ resp w', table_update table pk request w = (resp, w') →
       (executed w' = executed w
        ∨ ∃ values where_,
            executed w' = (executed w ++ [UpdateStmt table values where_])%list
            ∧ dom values ⊆ column_set table w)
       ∧ (∀ template ctx, resp = Ok (Render template ctx) →
            dom (ctx_errors ctx) ⊆ column_set table w
            ∧ ctx_edited ctx ⊆ column_set table w)).
Proof.
  cbv zeta. split; [apply table_insert_known|]. split; [apply table_update_known|].
  split.
  - intros resp w'. apply table_insert_touches.
  - intros resp w'. apply table_update_touches.
Qed.

Lemma row_forms_ignore_unknown_columns_witness :
  let request := post [("a", "hello"); ("zzz", "1")] in
  @table_insert reference_engine reference_adapters "t"
    (with_form (known_entries "t" example_world (form request)) request) example_world
  = @table_insert reference_engine reference_adapters "t" request example_world
  ∧ (executed (snd (@table_insert reference_engine reference_adapters "t" request
                      example_world)) = executed example_world
     ∨ ∃ values,
         executed (snd (@table_insert reference_engine reference_adapters "t" request
                          example_world))
         = (executed example_world ++ [InsertStmt "t" values])%list
         ∧ dom values ⊆ column_set "t" example_world).
Proof.
  intros request.
  destruct (@row_forms_ignore_unknown_columns reference_engine reference_adapters
              "t" "1" request example_world) as (Hknown & _ & Hinsert & _).
  split; [exact Hknown|].
  destruct (Hinsert _ _ (surjective_pairing _)) as [Hstmt _]. exact Hstmt.
Defined.

(** * The rest of the application *)

(** ** Strings *)

Lemma append_nil_l (a : string) : "" +:+ a = a.
Proof. reflexivity. Qed.

Lemma str_length_app (a b : string) :
  String.length (a +:+ b) = (String.length a + String.length b)%nat.
Proof. induction a as [|x a IH]; [done|]. rewrite append_cons. cbn. by rewrite IH. Qed.

Lemma is_prefix_app p t : is_prefix p (p +:+ t) = true.
Proof.
  induction p as [|x p IH]; [done|]. rewrite append_cons. cbn.
  by rewrite bool_decide_eq_true_2, IH.
Qed.

Lemma str_drop_app p t : str_drop (String.length p) (p +:+ t) = t.
Proof. induction p as [|x p IH]; [done|]. rewrite append_cons. exact IH. Qed.

Lemma is_prefix_split p : ∀ s,
  is_prefix p s = true → p +:+ str_drop (String.length p) s = s.
Proof.
  induction p as [|x p IH]; intros [|y s]; cbn; try done.
  intros [Hx Hp]%andb_prop. apply bool_decide_eq_true in Hx as ->.
  rewrite append_cons. f_equal. by apply IH.
Qed.

Lemma str_forall_app p (a b : string) :
  str_forall p (a +:+ b) = str_forall p a && str_forall p b.
Proof.
  induction a as [|x a IH]; [done|]. rewrite append_cons. cbn.
  by rewrite IH, andb_assoc.
Qed.

Lemma str_filter_app p (a b : string) :
  str_filter p (a +:+ b) = str_filter p a +:+ str_filter p b.
Proof.
  induction a as [|x a IH]; [done|]. rewrite append_cons. cbn.
  destruct (p x); [|done]. by rewrite append_cons, IH.
Qed.

Lemma str_filter_forall p s : str_forall p (str_filter p s) = true.
Proof.
  induction s as [|x s IH]; [done|]. cbn.
  destruct (p x) eqn:E; [|done]. cbn. by rewrite E.
Qed.

Lemma str_filter_id p s : str_forall p s = true → str_filter p s = s.
Proof.
  induction s as [|x s IH]; [done|]. cbn.
  intros [-> Hs]%andb_prop. by rewrite IH.
Qed.

Lemma str_forall_impl (p q : ascii → bool) s :
  (∀ c, p c = true → q c = true) → str_forall p s = true → str_forall q s = true.
Proof.
  intros Hpq. induction s as [|x s IH]; [done|]. cbn.
  intros [Hx Hs]%andb_prop. by rewrite (Hpq x Hx), IH.
Qed.

Lemma str_forall_take p n : ∀ s,
  str_forall p s = true → str_forall p (str_take n s) = true.
Proof.
  induction n as [|n IH]; intros [|x s]; cbn; try done.
  intros [-> Hs]%andb_prop. by apply IH.
Qed.

(** A fact about every character, settled by evaluation. *)
Lemma all_chars (p : ascii → bool) :
  N_below 256 (λ n, p (ascii_of_N n)) = true → ∀ c, p c = true.
Proof.
  intros Hall c.
  pose proof (N_below_spec 256 _ Hall (code c) (code_lt_256 c)) as Hc.
  cbv beta in Hc. by rewrite ascii_of_code in Hc.
Qed.

(** ** The database file *)

Lemma before_last_none sep s :
  str_forall (λ c, negb (is_char sep c)) s = true → before_last sep s = None.
Proof.
  induction s as [|x s IH]; [done|]. cbn.
  intros [Hx Hs]%andb_prop. rewrite (IH Hs).
  unfold is_char in Hx. by destruct (bool_decide (x = sep)).
Qed.

Lemma before_last_some sep s r :
  before_last sep s = Some r → (String.length r < String.length s)%nat.
Proof.
  revert r. induction s as [|x s IH]; intros r; cbn; [done|].
  destruct (before_last sep s) as [r'|].
  - intros [= <-]. cbn. specialize (IH r' eq_refl). lia.
  - destruct (bool_decide (x = sep)); [|done]. intros [= <-]. cbn. lia.
Qed.

Lemma before_last_free sep s :
  before_last sep s = None → str_forall (λ c, negb (is_char sep c)) s = true.
Proof.
  induction s as [|x s IH]; [done|]. cbn.
  destruct (before_last sep s) as [r'|]; [done|].
  unfold is_char at 1. destruct (bool_decide (x = sep)); [done|].
  intros _. by apply IH.
Qed.

Lemma before_last_app sep f t :
  str_forall (λ c, negb (is_char sep c)) t = true →
  before_last sep (f +:+ String sep t) = Some f.
Proof.
  intros Ht. induction f as [|x f IH].
  - change (before_last sep (String sep t) = Some "").
    cbn. rewrite (before_last_none sep t Ht). by rewrite bool_decide_eq_true_2.
  - rewrite append_cons. cbn. by rewrite IH.
Qed.

Lemma endswith_app a suffix : endswith (a +:+ suffix) suffix = true.
Proof.
  unfold endswith. rewrite str_length_app.
  replace (String.length a + String.length suffix - String.length suffix)%nat
    with (String.length a) by lia.
  rewrite str_drop_app. unfold str_eqb. rewrite bool_decide_eq_true_2 by done.
  rewrite andb_true_r. apply Nat.leb_le. lia.
Qed.

(** X1: the path shown for the database is the path it was opened with when
    the database is opened read-only, whatever the path; when it is opened
    for writing, the path is cut at its last question mark, so it is
    shown in full exactly when it holds none.  A database opened
    read-only reports itself as such. *)
Theorem filename_of_database_name (path : string) :
  filename (database_name path true) = path
  ∧ is_readonly (database_name path true) = true
  ∧ filename (database_name path false) = rsplit1_head "?" path
  ∧ (filename (database_name path false) = path
     ↔ str_forall (λ c, negb (is_char "?" c)) path = true).
Proof.
  assert (∀ t, filename ("file:" +:+ t) = rsplit1_head "?" t) as Hfile.
  { intros t. unfold filename, startswith. rewrite is_prefix_app.
    change 5%nat with (String.length "file:"). by rewrite str_drop_app. }
  split; [|split; [|split]].
  - unfold database_name. rewrite Hfile. unfold rsplit1_head.
    change (path +:+ "?mode=ro") with (path +:+ String "?" "mode=ro").
    by rewrite before_last_app.
  - unfold database_name, is_readonly.
    rewrite <- append_assoc. apply endswith_app.
  - unfold database_name. apply Hfile.
  - unfold database_name. rewrite Hfile. unfold rsplit1_head. split.
    + destruct (before_last "?" path) as [r|] eqn:E.
      * intros ->. apply before_last_some in E. lia.
      * intros _. by apply before_last_free.
    + intros Hfree. by rewrite before_last_none.
Qed.

(** ** The prefix middleware *)

Lemma rstrip_chars_app_char p s x :
  p x = true → rstrip_chars p (s +:+ String x "") = rstrip_chars p s.
Proof.
  intros Hx. induction s as [|c s IH].
  - rewrite append_nil_l. cbn. by rewrite Hx.
  - rewrite append_cons. cbn. by rewrite IH.
Qed.

Lemma strip_chars_cons p s x :
  p x = true → strip_chars p (String x s) = strip_chars p s.
Proof.
  intros Hx. unfold strip_chars. cbn.
  destruct (rstrip_chars p s) as [|c r].
  - by rewrite Hx.
  - cbn [lstrip_chars]. by rewrite Hx.
Qed.

(** X2: the middleware forwards exactly the requests whose path begins
    with the prefix, and splits the path without loss: the script name is
    the prefix, and the script name followed by the new path is the path
    that came in.  Every other request is answered 404.  The prefix is
    the option's text with the slashes around it removed and one slash in
    front, so it may be given with or without them. *)
Theorem PrefixMiddleware_splits_path (url_prefix : string) (environ : Environ) :
  let self := PrefixMiddleware_init url_prefix in
  self_prefix self = "/" +:+ strip_chars (is_char "/") url_prefix
  ∧ match PrefixMiddleware_call self environ with
    | Forwarded e =>
        startswith (PATH_INFO environ) (self_prefix self) = true
        ∧ SCRIPT_NAME e = self_prefix self
        ∧ SCRIPT_NAME e +:+ PATH_INFO e = PATH_INFO environ
    | Answered status body =>
        startswith (PATH_INFO environ) (self_prefix self) = false
        ∧ status = "404"
    end
  ∧ PrefixMiddleware_init ("/" +:+ url_prefix) = self
  ∧ PrefixMiddleware_init (url_prefix +:+ "/") = self.
Proof.
  cbv zeta. split; [reflexivity|]. split; [|split].
  - unfold PrefixMiddleware_call.
    destruct (startswith _ _) eqn:E; [|done].
    split; [done|]. split; [done|]. cbn [SCRIPT_NAME PATH_INFO].
    by apply is_prefix_split.
  - unfold PrefixMiddleware_init.
    change ("/" +:+ url_prefix) with (String "/" url_prefix).
    by rewrite strip_chars_cons.
  - unfold PrefixMiddleware_init, strip_chars.
    by rewrite rstrip_chars_app_char.
Qed.

(** ** Splitting and joining *)

Lemma split_go_skip sep u : ∀ cur s,
  str_split_go sep (String.length u) cur (u +:+ s) = str_split_go sep 0 cur s.
Proof.
  induction u as [|x u IH]; intros cur s.
  - cbn. by destruct s.
  - rewrite append_cons. cbn. apply IH.
Qed.

(** Splitting a join gives the pieces back when no piece holds the first
    character of the separator. *)
Lemma split_go_piece_gen d sep' p : ∀ cur,
  str_forall (λ c, negb (is_char d c)) p = true →
  str_split_go (String d sep') 0 cur p = [cur +:+ p]
  ∧ ∀ s, str_split_go (String d sep') 0 cur (p +:+ String d sep' +:+ s)
         = (cur +:+ p) :: str_split_go (String d sep') 0 "" s.
Proof.
  induction p as [|c p IH]; intros cur Hp.
  - rewrite append_nil_r. split; [reflexivity|]. intros s.
    change ("" +:+ String d sep' +:+ s) with (String d (sep' +:+ s)).
    cbn [str_split_go].
    change (String d (sep' +:+ s)) with (String d sep' +:+ s).
    rewrite is_prefix_app. cbn [String.length Nat.sub].
    rewrite Nat.sub_0_r. by rewrite split_go_skip.
  - cbn in Hp. apply andb_prop in Hp as [Hc Hp].
    apply negb_true_iff, bool_decide_eq_false in Hc.
    destruct (IH (cur +:+ String c "") Hp) as [IH1 IH2].
    assert ((cur +:+ String c "") +:+ p = cur +:+ String c p) as Happ
      by (by rewrite append_assoc).
    assert (∀ t, is_prefix (String d sep') (String c t) = false) as Hpre.
    { intros t. cbn. rewrite bool_decide_eq_false_2; [done|congruence]. }
    split.
    + cbn [str_split_go]. rewrite Hpre, IH1, Happ. reflexivity.
    + intros s. change (String c p +:+ String d sep' +:+ s)
        with (String c (p +:+ String d sep' +:+ s)).
      cbn [str_split_go]. rewrite Hpre, IH2, Happ. reflexivity.
Qed.

Lemma str_split_join_gen d sep' parts :
  parts ≠ [] → Forall (λ p, str_forall (λ c, negb (is_char d c)) p = true) parts →
  str_split (String d sep') (str_join (String d sep') parts) = parts.
Proof.
  intros Hne Hall. unfold str_split.
  induction Hall as [|p parts Hp Hall IH]; [done|].
  destruct parts as [|q parts].
  - cbn [str_join]. by destruct (split_go_piece_gen d sep' p "" Hp) as [-> _].
  - change (str_join (String d sep') (p :: q :: parts))
      with (p +:+ String d sep' +:+ str_join (String d sep') (q :: parts)).
    destruct (split_go_piece_gen d sep' p "" Hp) as [_ ->].
    by rewrite IH.
Qed.

Lemma split_go_nonempty sep s : ∀ skip cur, str_split_go sep skip cur s ≠ [].
Proof.
  induction s as [|c s IH]; intros skip cur; cbn [str_split_go]; [done|].
  destruct skip; [|apply IH].
  destruct (is_prefix sep (String c s)); [done|apply IH].
Qed.

Lemma str_join_cons sep p parts :
  parts ≠ [] → str_join sep (p :: parts) = p +:+ sep +:+ str_join sep parts.
Proof. by destruct parts. Qed.

(** Joining what a split gives is the text that was split. *)
Lemma join_split_go sep n : ∀ s cur,
  (String.length s ≤ n)%nat → sep ≠ "" →
  str_join sep (str_split_go sep 0 cur s) = cur +:+ s.
Proof.
  induction n as [|n IH]; intros s cur Hlen Hsep.
  - destruct s; [|cbn in Hlen; lia]. cbn. by rewrite append_nil_r.
  - destruct s as [|c s]; [cbn; by rewrite append_nil_r|].
    cbn [str_split_go].
    destruct (is_prefix sep (String c s)) eqn:E.
    + destruct sep as [|d sep']; [done|].
      pose proof (is_prefix_split _ _ E) as Hs.
      cbn in E. apply andb_prop in E as [Hd _]. apply bool_decide_eq_true in Hd as ->.
      rewrite append_cons in Hs. injection Hs as Hs.
      cbn [String.length Nat.sub]. rewrite Nat.sub_0_r.
      rewrite <- Hs at 1. rewrite split_go_skip.
      rewrite str_join_cons by apply split_go_nonempty.
      rewrite IH; [|cbn in Hlen; rewrite <- Hs in Hlen; rewrite str_length_app in Hlen; lia
                   |done].
      cbn [String.length] in Hs.
      rewrite <- Hs at 2. rewrite append_cons. reflexivity.
    + rewrite IH; [|cbn in Hlen; lia|done].
      by rewrite append_assoc.
Qed.

Lemma str_join_split sep s : sep ≠ "" → str_join sep (str_split sep s) = s.
Proof. intros Hsep. unfold str_split. by rewrite (join_split_go sep _ s "" (le_n _)). Qed.

(** ** The origin check *)

(** X3: a request without an Origin header, or with an empty one, passes
    the check; an origin made of slash-free parts joined by "//", such as
    a scheme and a host, passes exactly when its last part is the host of
    the request, whatever comes before it. *)
Theorem check_csrf_compares_last_part (host : string) :
  _check_csrf None host = None
  ∧ _check_csrf (Some "") host = None
  ∧ (∀ scheme origin_host,
       str_forall (λ c, negb (is_char "/" c)) scheme = true →
       str_forall (λ c, negb (is_char "/" c)) origin_host = true →
       _check_csrf (Some (scheme +:+ "//" +:+ origin_host)) host
       = if bool_decide (origin_host = host) then None
         else Some (RuntimeError "CSRF not allowed"))
  ∧ (∀ parts,
       Forall (λ p, str_forall (λ c, negb (is_char "/" c)) p = true) parts →
       str_join "//" parts ≠ "" →
       _check_csrf (Some (str_join "//" parts)) host
       = if bool_decide (List.last parts "" = host) then None
         else Some (RuntimeError "CSRF not allowed")).
Proof.
  assert (∀ parts,
       Forall (λ p, str_forall (λ c, negb (is_char "/" c)) p = true) parts →
       str_join "//" parts ≠ "" →
       _check_csrf (Some (str_join "//" parts)) host
       = if bool_decide (List.last parts "" = host) then None
         else Some (RuntimeError "CSRF not allowed")) as Hparts.
  { intros parts Hfree Hne. unfold _check_csrf.
    assert (str_nonempty (str_join "//" parts) = true) as ->
      by (by destruct (str_join "//" parts)).
    rewrite (str_split_join_gen "/" "/" parts); [|by intros ->|done].
    unfold str_eqb. by destruct (bool_decide _). }
  split; [done|]. split; [done|]. split; [|exact Hparts].
  intros scheme origin_host Hs Hh.
  apply (Hparts [scheme; origin_host]).
  - by repeat constructor.
  - cbn. destruct scheme; discriminate.
Qed.

Lemma check_csrf_compares_last_part_witness :
  _check_csrf (Some ("http:" +:+ "//" +:+ "db.example")) "db.example" = None
  ∧ _check_csrf (Some ("http:" +:+ "//" +:+ "other.example")) "db.example"
    = Some (RuntimeError "CSRF not allowed")
  ∧ _check_csrf (Some (str_join "//" ["http:"; "other.example"; "db.example"])) "db.example"
    = None.
Proof.
  destruct (check_csrf_compares_last_part "db.example") as (_ & _ & Hhost & Hparts).
  split; [|split].
  - exact (Hhost "http:" "db.example" eq_refl eq_refl).
  - exact (Hhost "http:" "other.example" eq_refl eq_refl).
  - apply (Hparts ["http:"; "other.example"; "db.example"]).
    + repeat constructor.
    + discriminate.
Defined.

(** ** Export *)

Lemma filename_char_safe c :
  filename_char c = true →
  negb (is_char DQUOTE c || is_char "/" c || is_char "\" c || is_char " " c
        || (code c <? 32)%N || is_char ";" c) = true.
Proof.
  intros Hc.
  assert (N_below 256 (λ n, (λ c, implb (filename_char c)
    (negb (is_char DQUOTE c || is_char "/" c || is_char "\" c || is_char " " c
           || (code c <? 32)%N || is_char ";" c))) (ascii_of_N n)) = true) as Hall
    by (vm_compute; reflexivity).
  pose proof (all_chars _ Hall c) as H. cbv beta in H. by rewrite Hc in H.
Qed.

(** X4: an export answers with what the dataset wrote, or raises what it
    raised.  The download is named after the table, with every character
    removed that is not a letter, a digit, an underscore, a hyphen or a
    dot, followed by "-export.json" or "-export.csv" (anything but "json"
    is named csv); so the name holds no quote, slash, backslash, blank,
    semicolon or control character, whatever the table is called. *)
Theorem export_names_download {Query} (freeze : Query → string → result string)
    (query : Query) (export_format : string) (table : option string) :
  let base := if str_eqb export_format "json" then "export.json" else "export.csv" in
  let download_name :=
    if truthy table
    then str_filter filename_char (get_or_empty table) +:+ "-" +:+ base
    else base in
  export freeze query export_format table
  = rbind (freeze query export_format) (λ data,
      Ok {| response_data := data;
            content_length := String.length data;
            content_type := if str_eqb export_format "json"
                            then "text/javascript" else "text/csv";
            content_disposition := "attachment; filename=" +:+ quoted download_name;
            expires := 0;
            pragma := "public" |})
  ∧ str_forall filename_char download_name = true
  ∧ str_forall (λ c, negb (is_char DQUOTE c || is_char "/" c || is_char "\" c
                           || is_char " " c || (code c <? 32)%N || is_char ";" c))
               download_name = true.
Proof.
  cbv zeta.
  assert (∀ base t, str_forall filename_char base = true →
            str_filter filename_char (t +:+ "-" +:+ base)
            = str_filter filename_char t +:+ "-" +:+ base) as Hfilter.
  { intros base t Hbase. rewrite !str_filter_app.
    by rewrite (str_filter_id _ base Hbase). }
  assert (∀ base t, str_forall filename_char base = true →
            str_forall filename_char (str_filter filename_char t +:+ "-" +:+ base) = true)
    as Hkept.
  { intros base t Hbase. rewrite !str_forall_app, str_filter_forall, Hbase. reflexivity. }
  split; [|split].
  - unfold export.
    destruct (str_eqb export_format "json"); destruct (truthy table);
      rewrite ?Hfilter by reflexivity; reflexivity.
  - destruct (str_eqb export_format "json"); destruct (truthy table);
      (apply Hkept; reflexivity) || reflexivity.
  - eapply str_forall_impl; [exact filename_char_safe|].
    destruct (str_eqb export_format "json"); destruct (truthy table);
      (apply Hkept; reflexivity) || reflexivity.
Qed.

(** ** Template filters *)

Lemma escape_char_safe c : str_forall (λ c, negb (html_special c)) (escape_char c) = true.
Proof.
  assert (N_below 256 (λ n, (λ c, str_forall (λ c, negb (html_special c)) (escape_char c))
                              (ascii_of_N n)) = true) as Hall
    by (vm_compute; reflexivity).
  exact (all_chars _ Hall c).
Qed.

Lemma escape_safe s : str_forall (λ c, negb (html_special c)) (escape s) = true.
Proof.
  induction s as [|c s IH]; [done|]. cbn [escape].
  by rewrite str_forall_app, escape_char_safe, IH.
Qed.

Lemma escape_char_plain c :
  negb (is_char "&" c || html_special c) = true → escape_char c = String c "".
Proof.
  intros Hc.
  assert (N_below 256 (λ n, (λ c, implb (negb (is_char "&" c || html_special c))
                                        (str_eqb (escape_char c) (String c "")))
                              (ascii_of_N n)) = true) as Hall
    by (vm_compute; reflexivity).
  pose proof (all_chars _ Hall c) as H. cbv beta in H. rewrite Hc in H.
  by apply bool_decide_eq_true in H.
Qed.

Lemma escape_plain s :
  str_forall (λ c, negb (is_char "&" c || html_special c)) s = true → escape s = s.
Proof.
  induction s as [|c s IH]; [done|]. cbn [escape str_forall].
  intros [Hc Hs]%andb_prop. by rewrite (escape_char_plain c Hc), IH.
Qed.

(** X5: text is shown escaped: what the filter puts on the page for a text
    value, in full or cut to [max_length] characters inside the markup for
    long values, holds no angle bracket and no quote; text without any of
    the five escaped characters is shown as it is; numbers, booleans and
    NULL are handed on unchanged. *)
Theorem value_filter_escapes_text (s : string) (max_length : nat) :
  let shown := escape s in
  value_filter (PStr s) max_length
  = PStr (if (max_length <? String.length shown)%nat
          then truncated_markup (str_take max_length shown) shown
          else shown)
  ∧ str_forall (λ c, negb (html_special c)) shown = true
  ∧ str_forall (λ c, negb (html_special c)) (str_take max_length shown) = true
  ∧ (str_forall (λ c, negb (is_char "&" c || html_special c)) s = true → shown = s)
  ∧ (∀ z, value_filter (PInt z) max_length = PInt z)
  ∧ (∀ b, value_filter (PBool b) max_length = PBool b)
  ∧ value_filter PNone max_length = PNone.
Proof.
  cbv zeta. split.
  { unfold value_filter. by destruct (_ <? _)%nat. }
  split; [apply escape_safe|]. split; [apply str_forall_take, escape_safe|].
  split; [apply escape_plain|]. done.
Qed.

Lemma value_filter_escapes_text_witness :
  escape "a<b & 'c'" = "a&lt;b &amp; &#39;c&#39;"
  ∧ escape "plain text" = "plain text".
Proof.
  destruct (value_filter_escapes_text "plain text" 50) as (_ & _ & _ & Hplain & _).
  split; [reflexivity|]. apply Hplain. reflexivity.
Defined.

Lemma str_take_nil n : str_take n "" = "".
Proof. by destruct n. Qed.

Lemma str_take_length n : ∀ s, (String.length (str_take n s) ≤ n)%nat.
Proof.
  induction n as [|n IH]; intros [|c s]; cbn; try lia.
  specialize (IH s). lia.
Qed.

(** The first 4k characters of an encoding encode the first 3k bytes. *)
Lemma take_b64encode k : ∀ b,
  str_take (4 * k) (b64encode b) = b64encode (str_take (3 * k) b).
Proof.
  induction k as [|k IH]; intros b; [reflexivity|].
  replace (4 * S k)%nat with (S (S (S (S (4 * k))))) by lia.
  replace (3 * S k)%nat with (S (S (S (3 * k)))) by lia.
  destruct b as [|x [|y [|z rest]]].
  - reflexivity.
  - cbn [b64encode str_take]. by rewrite !str_take_nil.
  - cbn [b64encode str_take]. by rewrite !str_take_nil.
  - cbn [b64encode str_take]. by rewrite IH.
Qed.

Lemma b64encode_forall (p : ascii → bool) :
  (∀ n, (n < 64)%N → p (table_b2a_base64 n) = true) → p BASE64_PAD = true →
  ∀ data, str_forall p (b64encode data) = true.
Proof.
  intros Htable Hpad data.
  cut (str_forall p (b64encode data) = true
       ∧ (∀ x, str_forall p (b64encode (String x data)) = true)
       ∧ (∀ x y, str_forall p (b64encode (String x (String y data))) = true));
    [tauto|].
  induction data as [|z data (IH0 & IH1 & IH2)].
  - split; [reflexivity|]. split.
    + intros x. cbn [b64encode str_forall].
      use_sextet_facts x x. destruct (sextet1_0_lt _ (code_lt_256 x)) as [Hlt _].
      rewrite !Htable by assumption. by rewrite Hpad.
    + intros x y. cbn [b64encode str_forall].
      use_sextet_facts x y. destruct (sextet1_0_lt _ (code_lt_256 y)) as [_ Hlt].
      rewrite !Htable by assumption. by rewrite Hpad.
  - split; [apply IH1|]. split; [intros x; apply IH2|].
    intros x y. cbn [b64encode str_forall]. fold b64encode.
    use_sextet_facts x y. use_sextet_facts y z. use_sextet_facts z z.
    rewrite !Htable by assumption. cbn [andb]. exact IH0.
Qed.

Lemma b64encode_plain data :
  str_forall (λ c, negb (is_char "&" c || html_special c)) (b64encode data) = true.
Proof.
  apply b64encode_forall; [|reflexivity].
  intros n Hn.
  exact (N_below_spec 64
           (λ n, (λ c, negb (is_char "&" c || html_special c)) (table_b2a_base64 n))
           eq_refl n Hn).
Qed.

(** X6: a blob is shown by the base64 text of its first 768 bytes: cutting
    the encoding at 1024 characters gives the encoding of these bytes, it
    is at most 1024 characters long, escaping leaves it as it is, and
    decoding it gives the 768 bytes back. *)
Theorem value_filter_previews_blob (b : string) (max_length : nat) :
  let preview := b64encode (str_take 768 b) in
  str_take 1024 (b64encode b) = preview
  ∧ (String.length preview ≤ 1024)%nat
  ∧ escape preview = preview
  ∧ value_filter (PBytes b) max_length
    = PStr (if (max_length <? String.length preview)%nat
            then truncated_markup (str_take max_length preview) preview
            else preview)
  ∧ b64decode preview = Ok (str_take 768 b).
Proof.
  cbv zeta.
  assert (str_take 1024 (b64encode b) = b64encode (str_take 768 b)) as Hcut
    by exact (take_b64encode 256 b).
  assert (escape (b64encode (str_take 768 b)) = b64encode (str_take 768 b)) as Hesc
    by apply escape_plain, b64encode_plain.
  split; [exact Hcut|]. split; [rewrite <- Hcut; apply str_take_length|].
  split; [exact Hesc|]. split; [|apply b64decode_b64encode].
  unfold value_filter. rewrite Hcut, Hesc. by destruct (_ <? _)%nat.
Qed.

(** ** More on the primary-key codec *)

(** X7: the pieces [pk_display] shows, joined by the delimiter, are the
    token it was given: nothing of a token is lost in the display. *)
Theorem pk_display_join (table_pk : PrimaryKey) (pk : string) :
  str_join PK_DELIMITER (pk_display table_pk pk) = pk
  ∧ pk_display table_pk pk ≠ [].
Proof.
  destruct table_pk; cbn [pk_display]; try done.
  split; [by apply str_join_split|apply split_go_nonempty].
Qed.

Lemma zip_app_l {A B} (l : list A) (k k' : list B) :
  length l = length k → zip l (k ++ k') = zip l k.
Proof.
  revert k. induction l as [|a l IH]; intros [|b k]; cbn; try done.
  intros [= Hlen]. by rewrite IH.
Qed.

Lemma str_split_join_more parts extra :
  parts ≠ [] → Forall (λ p, colon_free p = true) parts →
  str_split PK_DELIMITER (str_join PK_DELIMITER parts +:+ PK_DELIMITER +:+ extra)
  = (parts ++ str_split PK_DELIMITER extra)%list.
Proof.
  intros Hne Hall. unfold str_split.
  induction Hall as [|p parts Hp Hall IH]; [done|].
  destruct parts as [|q parts].
  - cbn [str_join]. by destruct (split_go_piece p "" Hp) as [_ ->].
  - change (str_join PK_DELIMITER (p :: q :: parts))
      with (p +:+ PK_DELIMITER +:+ str_join PK_DELIMITER (q :: parts)).
    rewrite !append_assoc.
    destruct (split_go_piece p "" Hp) as [_ ->].
    by rewrite IH.
Qed.

Lemma split_go_absent sep s : ∀ cur,
  str_contains sep s = false → str_split_go sep 0 cur s = [cur +:+ s].
Proof.
  induction s as [|c s IH]; intros cur Habs.
  - cbn. by rewrite append_nil_r.
  - cbn [str_contains] in Habs. apply orb_false_elim in Habs as [Hpre Hrest].
    cbn [str_split_go]. rewrite Hpre, IH by done.
    by rewrite append_assoc.
Qed.

(** X8: on a composite key, [decode_pk] constrains as many key fields as
    the token has pieces and no more.  A token in which the delimiter
    does not occur constrains the first key field only, to the whole
    token.  The expression is built from the first pieces alone, as many
    as the key has fields: two tokens that split into the same first
    pieces decode alike; so a token made of that many pieces without a
    colon, followed by the delimiter and any text, decodes as the token
    does. *)
Theorem decode_pk_piece_count (model : Model) (names : list string)
    (f : Field) (fs : list Field) :
  meta_primary_key model = CompositeKey names →
  Forall2 (λ k f, meta_columns model !! k = Some f) names (f :: fs) →
  (∀ token, str_contains PK_DELIMITER token = false →
     decode_pk model (PStr token) = Ok (ExprEq f (PStr token)))
  ∧ (∀ token token',
       take (length (f :: fs)) (str_split PK_DELIMITER token)
       = take (length (f :: fs)) (str_split PK_DELIMITER token') →
       decode_pk model (PStr token) = decode_pk model (PStr token'))
  ∧ (∀ parts extra,
       length parts = length (f :: fs) →
       Forall (λ p, colon_free p = true) parts →
       decode_pk model (PStr (str_join PK_DELIMITER parts +:+ PK_DELIMITER +:+ extra))
       = decode_pk model (PStr (str_join PK_DELIMITER parts))).
Proof.
  intros Hpk Hfields.
  assert (comprehension (getitem (meta_columns model)) names = Ok (f :: fs)) as Hcomp.
  { apply comprehension_Ok. eapply Forall2_impl; [exact Hfields|].
    intros k f' Hk. unfold getitem. by rewrite Hk. }
  assert (∀ (l : list Field) (k : list string), zip l k = zip l (take (length l) k))
    as Hzip.
  { induction l as [|a l IH]; intros [|b k]; cbn; try done. by rewrite <- IH. }
  split; [|split].
  - intros token Habsent.
    unfold decode_pk. rewrite Hpk, Hcomp. cbn [rbind].
    unfold str_split. rewrite (split_go_absent _ token "" Habsent), append_nil_l.
    cbn [zip].
    replace (zip fs (@nil string)) with (@nil (Field * string)) by (by destruct fs).
    reflexivity.
  - intros token token' Hsame.
    unfold decode_pk. rewrite Hpk, Hcomp. cbn [rbind].
    by rewrite (Hzip (f :: fs) (str_split PK_DELIMITER token)), Hsame, <- Hzip.
  - intros parts extra Hlen Hfree.
    assert (parts ≠ []) as Hne by (by destruct parts).
    unfold decode_pk. rewrite Hpk, Hcomp. cbn [rbind].
    rewrite (str_split_join_more parts extra Hne Hfree).
    rewrite (str_split_join parts Hne Hfree).
    by rewrite zip_app_l.
Qed.

Lemma decode_pk_piece_count_witness :
  decode_pk model_ab (PStr "x::1") = Ok (ExprEq field_a (PStr "x::1"))
  ∧ decode_pk model_ab (PStr (str_join PK_DELIMITER ["x"; "1"] +:+ PK_DELIMITER +:+ "zzz"))
    = decode_pk model_ab (PStr (str_join PK_DELIMITER ["x"; "1"])).
Proof.
  destruct (decode_pk_piece_count model_ab ["a"; "b"] field_a [field_b] eq_refl)
    as (Hshort & _ & Hlong).
  { repeat constructor. }
  split.
  - exact (Hshort "x::1" eq_refl).
  - apply (Hlong ["x"; "1"] "zzz"); [reflexivity|repeat constructor].
Defined.

(** ** More on the pagination *)

(** X9: the links to the previous and the next page.  Whenever the page
    arithmetic returns, the page lies in [1, total_pages]; the previous
    page is missing exactly on page 1 and is the page before otherwise;
    the next page is missing exactly on the last page and is the page
    after otherwise; so the links never leave [1, total_pages]. *)
Theorem pagination_links (page_arg : option string) (total_rows rows_per_page : Z)
    (p : Pagination) :
  table_content_pagination page_arg total_rows rows_per_page = Ok p →
  1 ≤ page p ≤ total_pages p
  ∧ previous_page p = (if 1 <? page p then Some (page p - 1) else None)
  ∧ next_page p = (if page p <? total_pages p then Some (page p + 1) else None)
  ∧ (previous_page p = None ↔ page p = 1)
  ∧ (next_page p = None ↔ page p = total_pages p)
  ∧ (∀ q, previous_page p = Some q → 1 ≤ q ∧ q = page p - 1)
  ∧ (∀ q, next_page p = Some q → q ≤ total_pages p ∧ q = page p + 1).
Proof.
  unfold table_content_pagination.
  destruct (if isdigit _ then _ else _) as [n|e]; cbn [rbind]; [|discriminate].
  destruct (negb (float_fits rows_per_page) || negb (float_fits total_rows));
    cbn [rbind]; [discriminate|].
  destruct (rows_per_page =? 0); cbn [rbind]; [discriminate|].
  intros [= <-]. cbn [page total_pages previous_page next_page].
  set (pages := Z.max 1 (ceil_div total_rows rows_per_page)).
  set (shown := Z.max (Z.min n pages) 1).
  assert (1 ≤ pages) by lia. assert (1 ≤ shown ≤ pages) by lia.
  split; [done|]. split; [done|]. split; [done|].
  destruct (1 <? shown) eqn:E1; destruct (shown <? pages) eqn:E2;
    try apply Z.ltb_lt in E1; try apply Z.ltb_ge in E1;
    try apply Z.ltb_lt in E2; try apply Z.ltb_ge in E2;
    (split; [split; [intros ?; try done; lia|intros ?; try done; lia]|]);
    (split; [split; [intros ?; try done; lia|intros ?; try done; lia]|]);
    (split; intros q [= <-] || intros q [=]; lia).
Qed.

Lemma pagination_links_witness :
  ∃ p, table_content_pagination (Some "2") 125 50 = Ok p
       ∧ previous_page p = Some 1 ∧ next_page p = Some 3.
Proof.
  eexists. split; [reflexivity|].
  destruct (pagination_links (Some "2") 125 50 _ eq_refl) as (_ & Hprev & Hnext & _).
  split; [exact Hprev|exact Hnext].
Defined.

(** X10: the test on the page argument does not keep [int] from raising.
    A page argument that [isdigit] accepts and that holds one of the
    superscript digits two, three or one (U+00B2, U+00B3, U+00B9), which
    [int] refuses, or that is longer than 4300 digits, makes the page
    arithmetic raise [ValueError], whatever the table holds. *)
Theorem page_argument_can_raise (total_rows rows_per_page : Z) (s : string) :
  isdigit s = true →
  str_exists chr_superscript s = true ∨ (MAX_STR_DIGITS < String.length s)%nat →
  ∃ msg, table_content_pagination (Some s) total_rows rows_per_page
         = Raise (ValueError msg).
Proof.
  intros Hdigit Hbad. unfold table_content_pagination. cbn [get_or_empty].
  assert (str_eqb s "last" = false) as ->.
  { unfold str_eqb. apply bool_decide_eq_false. intros ->. discriminate Hdigit. }
  rewrite Hdigit. unfold int_of_digits.
  destruct (str_forall is_ascii_digit s) eqn:Eascii.
  - destruct Hbad as [Hsup|Hlong].
    + exfalso. unfold str_exists in Hsup. apply negb_true_iff in Hsup.
      rewrite (str_forall_impl is_ascii_digit _ s) in Hsup; [done| |done].
      intros c Hc. assert (N_below 256 (λ n, implb (is_ascii_digit (ascii_of_N n))
                                                 (negb (chr_superscript (ascii_of_N n))))
                           = true) as Hall by (vm_compute; reflexivity).
      pose proof (all_chars (λ c, implb (is_ascii_digit c) (negb (chr_superscript c)))
                    Hall c) as Himp.
      cbn beta in Himp. by rewrite Hc in Himp.
    + assert (str_nonempty s = true) as -> by (by destruct s).
      cbn [andb negb].
      apply Nat.ltb_lt in Hlong. rewrite Hlong. cbn [rbind]. by eexists.
  - rewrite andb_false_r. cbn [negb rbind]. by eexists.
Qed.

Lemma page_argument_can_raise_witness :
  ∃ msg, table_content_pagination (Some (String "1" (String (ascii_of_N 178) ""))) 125 50
         = Raise (ValueError msg).
Proof.
  apply (page_argument_can_raise 125 50 (String "1" (String (ascii_of_N 178) ""))).
  - reflexivity.
  - left. reflexivity.
Defined.

(** ** More on the value codec *)

(** X11: what the codec lets through.  When it returns no error, the value
    is NULL only for null text on a nullable field; a boolean only on a
    boolean field, for one of the six tokens in any letter case; bytes
    only on a blob field, and then what the text decodes to; otherwise it
    is the text itself, unchanged, which on an integer field is made of
    digits only (so no sign, blank or decimal point) and on a float field
    is text [float] accepts.  Every value but NULL has been accepted by
    the field's storage adapter. *)
Theorem minimal_validate_field_accepts `{Adapters} (field : Field) (value : string)
    (v : pyvalue) :
  minimal_validate_field field value = Ok (v, None) →
  match v with
  | PNone => is_null_text value = true ∧ field_null field = true
  | PBool b =>
      is_null_text value = false ∧ field_class field = BooleanField
      ∧ str_in (lower value) bool_tokens = true
      ∧ b = str_in (lower value) true_tokens
      ∧ db_value field v = Ok tt
  | PBytes b =>
      is_null_text value = false ∧ field_class field = BlobField
      ∧ b64decode value = Ok b
      ∧ db_value field v = Ok tt
  | PStr s =>
      s = value ∧ is_null_text value = false
      ∧ field_class field ≠ BooleanField ∧ field_class field ≠ BlobField
      ∧ (isinstance_IntegerField (field_class field) = true → isdigit value = true)
      ∧ (field_class field = FloatField → py_float value = Ok tt)
      ∧ db_value field v = Ok tt
  | PInt _ => False
  end.
Proof.
  unfold minimal_validate_field.
  destruct (is_null_text value) eqn:Enull.
  { destruct (field_null field); cbn; [|discriminate]. by intros [= <-]. }
  destruct (isinstance_IntegerField (field_class field) && negb (isdigit value)) eqn:Eint.
  { cbn. discriminate. }
  assert (isinstance_IntegerField (field_class field) = true → isdigit value = true) as Hint.
  { intros Hi. rewrite Hi in Eint. cbn in Eint. by apply negb_false_iff in Eint. }
  destruct (isinstance_FloatField (field_class field)) eqn:Efloat.
  { destruct (py_float value) as [[]|e] eqn:Ef; cbn; [|discriminate].
    destruct (db_value field (PStr value)) as [[]|e] eqn:Edb; cbn; [|discriminate].
    intros [= <-]. destruct (field_class field); try discriminate Efloat.
    repeat split; try done. }
  destruct (isinstance_BooleanField (field_class field)) eqn:Ebool.
  { destruct (str_in (lower value) bool_tokens) eqn:Etok; cbn; [|discriminate].
    destruct (db_value field _) as [[]|e] eqn:Edb; cbn; [|discriminate].
    intros [= <-]. destruct (field_class field); try discriminate Ebool.
    repeat split; done. }
  destruct (isinstance_BlobField (field_class field)) eqn:Eblob.
  { destruct (b64decode value) as [b|e] eqn:Edec; cbn; [|discriminate].
    destruct (db_value field _) as [[]|e] eqn:Edb; cbn; [|discriminate].
    intros [= <-]. destruct (field_class field); try discriminate Eblob.
    repeat split; done. }
  cbn. destruct (db_value field _) as [[]|e] eqn:Edb; cbn; [|discriminate].
  intros [= <-].
  split; [done|]. split; [done|].
  split; [intros Hc; by rewrite Hc in Ebool|].
  split; [intros Hc; by rewrite Hc in Eblob|].
  split; [exact Hint|]. split; [|done].
  intros Hc. by rewrite Hc in Efloat.
Qed.

Lemma minimal_validate_field_accepts_witness :
  @minimal_validate_field reference_adapters (field_of_column column_b) "42"
  = Ok (PStr "42", None)
  ∧ isdigit "42" = true.
Proof.
  assert (@minimal_validate_field reference_adapters (field_of_column column_b) "42"
          = Ok (PStr "42", None)) as Hv by reflexivity.
  split; [exact Hv|].
  pose proof (@minimal_validate_field_accepts reference_adapters _ _ _ Hv) as Hshape.
  cbv beta iota in Hshape.
  destruct Hshape as (_ & _ & _ & _ & Hint & _). apply Hint. reflexivity.
Defined.

(** *** Blobs in the edit form *)

Lemma str_forall_map p f s : str_forall p (str_map f s) = str_forall (λ c, p (f c)) s.
Proof. induction s as [|c s IH]; [done|]. cbn. by rewrite IH. Qed.

Lemma str_map_length f s : String.length (str_map f s) = String.length s.
Proof. induction s as [|c s IH]; [done|]. cbn. by rewrite IH. Qed.

Lemma rstrip_no_space s :
  str_forall (λ c, negb (chr_isspace c)) s = true → rstrip s = s.
Proof.
  induction s as [|c s IH]; [done|]. cbn.
  intros [Hc Hs]%andb_prop. rewrite (IH Hs).
  apply negb_true_iff in Hc. rewrite Hc. by destruct s.
Qed.

Lemma lstrip_no_space s :
  str_forall (λ c, negb (chr_isspace c)) s = true → lstrip s = s.
Proof.
  destruct s as [|c s]; [done|]. cbn.
  intros [Hc Hs]%andb_prop. apply negb_true_iff in Hc. by rewrite Hc.
Qed.

Lemma strip_no_space s :
  str_forall (λ c, negb (chr_isspace c)) s = true → strip s = s.
Proof. intros Hs. unfold strip. by rewrite (rstrip_no_space s Hs), lstrip_no_space. Qed.

Lemma lower_b64encode_no_space b :
  str_forall (λ c, negb (chr_isspace c)) (lower (b64encode b)) = true.
Proof.
  unfold lower. rewrite str_forall_map.
  apply b64encode_forall; [|reflexivity].
  intros n Hn.
  exact (N_below_spec 64
           (λ n, (λ c, negb (chr_isspace (chr_lower c))) (table_b2a_base64 n))
           eq_refl n Hn).
Qed.

Lemma b64encode_null_length b :
  is_null_text (b64encode b) = true → String.length b = 3%nat.
Proof.
  unfold is_null_text, str_eqb. rewrite bool_decide_eq_true.
  rewrite (strip_no_space _ (lower_b64encode_no_space b)).
  destruct b as [|x [|y [|z [|w rest]]]]; unfold lower; cbn [b64encode str_map].
  - discriminate.
  - intros Heq. injection Heq as _ _ Hpad _. vm_compute in Hpad. discriminate Hpad.
  - intros Heq. injection Heq as _ _ _ Hpad. vm_compute in Hpad. discriminate Hpad.
  - done.
  - intros Heq. injection Heq as _ _ _ _ Hrest. by destruct rest as [|? [|? ?]].
Qed.

(** X12: a blob in the edit form.  The form shows the bytes of a blob
    column as base64 text, and the codec reads that text back as the same
    bytes, unless it is the null literal, which happens for blobs of
    three bytes only: the three bytes 9E E9 65 are shown as "null" and
    read back as NULL. *)
Theorem blob_edit_roundtrip `{Adapters} (field : Field) (column : ColumnMetadata)
    (obj : gmap string pyvalue) (b : string) :
  field_class field = BlobField →
  (∀ b', db_value field (PBytes b') = Ok tt) →
  lower (data_type column) = "blob" →
  obj !! column_name column = Some (PBytes b) →
  update_row obj [column] ∅ = Ok {[ column_name column := PStr (b64encode b) ]}
  ∧ (is_null_text (b64encode b) = false →
     minimal_validate_field field (b64encode b) = Ok (PBytes b, None))
  ∧ (is_null_text (b64encode b) = true → String.length b = 3%nat)
  ∧ (String.length b ≠ 3%nat →
     minimal_validate_field field (b64encode b) = Ok (PBytes b, None))
  ∧ (let three := String (ascii_of_N 158) (String (ascii_of_N 233) (String "e" "")) in
     b64encode three = "null"
     ∧ minimal_validate_field field "null"
       = if field_null field then Ok (PNone, None)
         else Ok (PStr "NULL", Some NOT_NULLABLE)).
Proof.
  intros Hclass Hdb Htype Hobj.
  assert (is_null_text (b64encode b) = false →
          minimal_validate_field field (b64encode b) = Ok (PBytes b, None)) as Hback.
  { intros Hn. rewrite (blob_decode_unfold field _ Hclass Hn).
    by rewrite b64decode_b64encode, Hdb. }
  split; [|split; [exact Hback|split; [apply b64encode_null_length|split]]].
  - cbn [update_row]. rewrite Hobj. cbn [rbind].
    unfold str_eqb. rewrite Htype. rewrite bool_decide_eq_true_2 by done.
    cbn [rbind update_row]. by rewrite insert_empty.
  - intros Hlen. apply Hback.
    destruct (is_null_text (b64encode b)) eqn:E; [|done].
    by apply b64encode_null_length in E.
  - cbv zeta. split; [reflexivity|].
    unfold minimal_validate_field.
    change (is_null_text "null") with true. cbv iota.
    by destruct (field_null field).
Qed.

Lemma blob_edit_roundtrip_witness :
  let column := {| column_name := "payload"; data_type := "BLOB"; null := false;
                   primary_key := false; column_default := None |} in
  update_row {[ "payload" := PBytes "abc" ]} [column] ∅
  = Ok {[ "payload" := PStr (b64encode "abc") ]}
  ∧ @minimal_validate_field reference_adapters sample_blob_field (b64encode "abc")
    = Ok (PBytes "abc", None).
Proof.
  intros column.
  assert (({[ "payload" := PBytes "abc" ]} : gmap string pyvalue) !! column_name column
          = Some (PBytes "abc")) as Hobj by (vm_compute; reflexivity).
  destruct (@blob_edit_roundtrip reference_adapters sample_blob_field column
              {[ "payload" := PBytes "abc" ]} "abc" eq_refl (λ _, eq_refl) eq_refl Hobj)
    as (Hshow & Hback & _).
  split; [exact Hshow|]. apply Hback. reflexivity.
Defined.

(** ** More on the views *)

(** X13: every view of a table answers 404 for a table the database does
    not have, and changes nothing. *)
Theorem views_answer_404 `{Engine} `{Adapters} `{RowEngine}
    (table pk : string) (request : Request) (s : Site) :
  database (world s) !! table = None →
  add_column table request (world s) = (Ok (Abort 404), world s)
  ∧ drop_column table request (world s) = (Ok (Abort 404), world s)
  ∧ rename_column table request (world s) = (Ok (Abort 404), world s)
  ∧ add_index table request (world s) = (Ok (Abort 404), world s)
  ∧ drop_index table request (world s) = (Ok (Abort 404), world s)
  ∧ table_insert table request (world s) = (Ok (Abort 404), world s)
  ∧ table_update table pk request (world s) = (Ok (Abort 404), world s)
  ∧ table_delete table pk request s = (Ok (Abort 404), s).
Proof.
  intros Hno.
  unfold add_column, drop_column, rename_column, add_index, drop_index,
    table_insert, table_update, table_delete, require_table.
  rewrite Hno. repeat split.
Qed.

Lemma views_answer_404_witness :
  @table_delete reference_engine reference_row_engine "missing" "1"
    (post []) (site_of example_world)
  = (Ok (Abort 404), site_of example_world)
  ∧ @drop_column reference_engine "missing" (post [("name", "a")]) example_world
    = (Ok (Abort 404), example_world).
Proof.
  destruct (@views_answer_404 reference_engine reference_adapters reference_row_engine
              "missing" "1" (post []) (site_of example_world) eq_refl)
    as (_ & _ & _ & _ & _ & _ & _ & Hdelete).
  destruct (@views_answer_404 reference_engine reference_adapters reference_row_engine
              "missing" "1" (post [("name", "a")]) (site_of example_world) eq_refl)
    as (_ & Hdrop & _).
  split; [exact Hdelete|exact Hdrop].
Defined.

Section world_steps.
Context `{Engine}.

Lemma update_cache_models_other table other w :
  other ≠ table → models (update_cache table w) !! other = models w !! other.
Proof.
  intros Hne. unfold update_cache. destruct (database w !! table); [|done].
  cbn. by rewrite lookup_insert_ne.
Qed.

Lemma reports_no_success_refl w : reports_no_success w w.
Proof. by split. Qed.

Lemma reports_no_success_flash w w' message category :
  category ≠ "success" → reports_no_success w w' →
  reports_no_success w (flash message category w').
Proof.
  intros Hc [Hdb Hfl]. split; [done|]. intros m. cbn.
  rewrite elem_of_app, list_elem_of_singleton.
  intros [Hin|[= _ Hcat]]; [by apply Hfl|]. by destruct Hc.
Qed.

Lemma reports_no_success_log w w' stmt :
  reports_no_success w w' → reports_no_success w (log_statement stmt w').
Proof. intros [Hdb Hfl]. by split. Qed.

Lemma reports_no_success_cache w w' table :
  reports_no_success w w' → reports_no_success w (update_cache table w').
Proof.
  intros [Hdb Hfl]. split.
  - by rewrite update_cache_database.
  - intros m. rewrite update_cache_flashes. apply Hfl.
Qed.
End world_steps.

(** X14: a GET request changes no data.  The five schema views answer a
    GET with their form and leave the state as it is; the row views
    refresh the cached model at most: the database is as before, no
    statement is handed to the engine, and nothing is deleted. *)
Theorem get_requests_change_nothing `{Engine} `{Adapters} `{RowEngine}
    (table pk : string) (request : Request) (s : Site) :
  method request = GET →
  snd (add_column table request (world s)) = world s
  ∧ snd (drop_column table request (world s)) = world s
  ∧ snd (rename_column table request (world s)) = world s
  ∧ snd (add_index table request (world s)) = world s
  ∧ snd (drop_index table request (world s)) = world s
  ∧ (database (snd (table_insert table request (world s))) = database (world s)
     ∧ executed (snd (table_insert table request (world s))) = executed (world s))
  ∧ (database (snd (table_update table pk request (world s))) = database (world s)
     ∧ executed (snd (table_update table pk request (world s))) = executed (world s))
  ∧ (database (world (snd (table_delete table pk request s))) = database (world s)
     ∧ executed (world (snd (table_delete table pk request s))) = executed (world s)
     ∧ deletes (snd (table_delete table pk request s)) = deletes s).
Proof.
  intros Hget.
  repeat match goal with |- _ ∧ _ => split end.
  - unfold add_column, require_table.
    destruct (database (world s) !! table); [|done]. by rewrite Hget.
  - unfold drop_column, require_table.
    destruct (database (world s) !! table); [|done]. by rewrite Hget.
  - unfold rename_column, require_table.
    destruct (database (world s) !! table); [|done]. by rewrite Hget.
  - unfold add_index, require_table.
    destruct (database (world s) !! table); [|done]. by rewrite Hget.
  - unfold drop_index, require_table.
    destruct (database (world s) !! table); [|done]. by rewrite Hget.
  - unfold table_insert, require_table.
    destruct (database (world s) !! table); [|done]. cbv zeta.
    destruct (getitem _ _); [|by cbn; rewrite update_cache_database].
    destruct (insert_columns _ _); [|by cbn; rewrite update_cache_database].
    rewrite Hget. cbn. by rewrite update_cache_database.
  - unfold table_insert, require_table.
    destruct (database (world s) !! table); [|done]. cbv zeta.
    destruct (getitem _ _); [|by cbn; rewrite update_cache_executed].
    destruct (insert_columns _ _); [|by cbn; rewrite update_cache_executed].
    rewrite Hget. cbn. by rewrite update_cache_executed.
  - unfold table_update, require_table, table_update_fetched.
    destruct (database (world s) !! table); [|done]. cbv zeta.
    destruct (getitem _ _) as [model|]; [|by cbn; rewrite update_cache_database].
    destruct (meta_primary_key model);
      try (by cbn; rewrite update_cache_database);
      (destruct (str_eqb pk UNEDITABLE); [by cbn; rewrite update_cache_database|]);
      (destruct (decode_pk _ _); [|by cbn; rewrite update_cache_database]);
      (destruct (model_get _ _ _) as [obj|[]];
         try (by cbn; rewrite update_cache_database));
      (destruct (update_row _ _ _); [|by cbn; rewrite update_cache_database]);
      rewrite Hget; cbn; by rewrite update_cache_database.
  - unfold table_update, require_table, table_update_fetched.
    destruct (database (world s) !! table); [|done]. cbv zeta.
    destruct (getitem _ _) as [model|]; [|by cbn; rewrite update_cache_executed].
    destruct (meta_primary_key model);
      try (by cbn; rewrite update_cache_executed);
      (destruct (str_eqb pk UNEDITABLE); [by cbn; rewrite update_cache_executed|]);
      (destruct (decode_pk _ _); [|by cbn; rewrite update_cache_executed]);
      (destruct (model_get _ _ _) as [obj|[]];
         try (by cbn; rewrite update_cache_executed));
      (destruct (update_row _ _ _); [|by cbn; rewrite update_cache_executed]);
      rewrite Hget; cbn; by rewrite update_cache_executed.
  - unfold table_delete.
    destruct (database (world s) !! table); [|done]. cbv zeta.
    destruct (getitem _ _) as [model|]; [|by cbn; rewrite update_cache_database].
    destruct (meta_primary_key model);
      try (by cbn; rewrite update_cache_database);
      (destruct (str_eqb pk UNEDITABLE); [by cbn; rewrite update_cache_database|]);
      (destruct (decode_pk _ _); [|by cbn; rewrite update_cache_database]);
      (destruct (select_get _ _ _) as [obj|[]];
         try (by cbn; rewrite update_cache_database));
      rewrite Hget; cbn; by rewrite update_cache_database.
  - unfold table_delete.
    destruct (database (world s) !! table); [|done]. cbv zeta.
    destruct (getitem _ _) as [model|]; [|by cbn; rewrite update_cache_executed].
    destruct (meta_primary_key model);
      try (by cbn; rewrite update_cache_executed);
      (destruct (str_eqb pk UNEDITABLE); [by cbn; rewrite update_cache_executed|]);
      (destruct (decode_pk _ _); [|by cbn; rewrite update_cache_executed]);
      (destruct (select_get _ _ _) as [obj|[]];
         try (by cbn; rewrite update_cache_executed));
      rewrite Hget; cbn; by rewrite update_cache_executed.
  - unfold table_delete.
    destruct (database (world s) !! table); [|done]. cbv zeta.
    destruct (getitem _ _) as [model|]; [|done].
    destruct (meta_primary_key model); try done;
      (destruct (str_eqb pk UNEDITABLE); [done|]);
      (destruct (decode_pk _ _); [|done]);
      (destruct (select_get _ _ _) as [obj|[]]; try done);
      by rewrite Hget.
Qed.

Lemma get_requests_change_nothing_witness :
  snd (@drop_column reference_engine "t" (get_args [("name", "a")]) example_world)
  = example_world
  ∧ deletes (snd (@table_delete reference_engine reference_row_engine "t" "1"
                    (get_args []) (site_of example_world))) = [].
Proof.
  destruct (@get_requests_change_nothing reference_engine reference_adapters
              reference_row_engine "t" "1" (get_args [("name", "a")])
              (site_of example_world) eq_refl)
    as (_ & Hdrop & _).
  destruct (@get_requests_change_nothing reference_engine reference_adapters
              reference_row_engine "t" "1" (get_args [])
              (site_of example_world) eq_refl)
    as (_ & _ & _ & _ & _ & _ & _ & _ & _ & Hdelete).
  split; [exact Hdrop|exact Hdelete].
Defined.

(** ** What the schema views ask of the engine *)

(** X15: a schema view hands at most one statement to the engine, on a POST
    only and only after its own check: [add_column] for a non-empty name
    and a type of the column mapping, [drop_column] for a column of the
    table, [rename_column] from a column of the table to a name that is
    not one, [add_index] for at least one selected column. *)
Theorem structural_views_validate `{Engine} (table : string) (request : Request)
    (w : World) :
  let data := form request in
  let name := get_or_empty (md_get data "name") in
  let rename := get_or_empty (md_get data "rename") in
  let rename_to := get_or_empty (md_get data "rename_to") in
  let indexed := md_getlist data "indexed_columns" in
  (executed (snd (add_column table request w)) = executed w
   ∨ ∃ cls col,
       method request = POST
       ∧ name ≠ ""
       ∧ (md_get data "type" ≫= assoc column_mapping) = Some cls
       ∧ (new_class col = cls ∨ new_class col = ForeignKeyField)
       ∧ executed (snd (add_column table request w))
         = (executed w ++ [MigrateStmt (AddColumnOp table name col)])%list)
  ∧ (executed (snd (drop_column table request w)) = executed w
     ∨ (method request = POST
        ∧ name ∈ map column_name (get_columns table w)
        ∧ executed (snd (drop_column table request w))
          = (executed w ++ [MigrateStmt (DropColumnOp table name)])%list))
  ∧ (executed (snd (rename_column table request w)) = executed w
     ∨ (method request = POST
        ∧ rename ∈ map column_name (get_columns table w)
        ∧ (rename_to ∉ map column_name (get_columns table w))
        ∧ executed (snd (rename_column table request w))
          = (executed w ++ [MigrateStmt (RenameColumnOp table rename rename_to)])%list))
  ∧ (executed (snd (add_index table request w)) = executed w
     ∨ (method request = POST
        ∧ indexed ≠ []
        ∧ executed (snd (add_index table request w))
          = (executed w
             ++ [MigrateStmt (AddIndexOp table indexed (truthy (md_get data "unique")))])%list)).
Proof.
  cbv zeta. split; [|split; [|split]].
  - unfold add_column, require_table, get_request_data.
    destruct (database w !! table); [|by left].
    destruct (method request) eqn:Em; [by left|]. cbv zeta.
    destruct (str_nonempty (get_or_empty (md_get (form request) "name"))) eqn:Ename;
      [|by left].
    destruct (md_get (form request) "type" ≫= assoc column_mapping) as [cls|] eqn:Ecls;
      [|by left].
    destruct (build_column _ _ _ _ _ _) as [col|e] eqn:Ecol; [|by left].
    right. exists cls, col. split; [done|]. split.
    { intros Hname. by rewrite Hname in Ename. }
    split; [done|]. split.
    { unfold build_column in Ecol. destruct (negb _).
      - injection Ecol as <-. by left.
      - destruct (getitem _ _); [|done]. cbn in Ecol.
        destruct (getitem _ _); [|done]. injection Ecol as <-. by right. }
    unfold run_migrate. cbn.
    destruct (migrate _ _); cbn; [|done]. by rewrite update_cache_executed.
  - unfold drop_column, require_table, get_request_data.
    destruct (database w !! table); [|by left].
    destruct (method request) eqn:Em; [by left|]. cbv zeta.
    case_bool_decide as Hin; [|by left].
    right. split; [done|]. split; [done|].
    unfold run_migrate. cbn.
    destruct (migrate _ _); cbn; [|done]. by rewrite update_cache_executed.
  - unfold rename_column, require_table, get_request_data.
    destruct (database w !! table); [|by left].
    destruct (method request) eqn:Em; [by left|]. cbv zeta.
    case_bool_decide as Hin; [|by left].
    case_bool_decide as Hto; [by left|].
    right. split; [done|]. split; [done|]. split; [done|].
    unfold run_migrate. cbn.
    destruct (migrate _ _); cbn; [|done]. by rewrite update_cache_executed.
  - unfold add_index, require_table, get_request_data.
    destruct (database w !! table); [|by left].
    destruct (method request) eqn:Em; [by left|]. cbv zeta.
    destruct (md_getlist (form request) "indexed_columns") as [|c cs] eqn:Ecols;
      [by left|].
    right. split; [done|]. split; [done|].
    unfold run_migrate. cbn.
    by destruct (migrate _ _).
Qed.

(** X16: when the engine refuses every write, as it does for a database
    opened read-only, no view changes the database or reports a success:
    whatever the request, the database after the view is the database
    before it, and no message of category "success" is flashed. *)
Theorem refused_writes_change_nothing `{Engine} `{Adapters} `{RowEngine}
    (table pk : string) (request : Request) (s : Site) :
  (∀ op db, ∃ e, migrate op db = Raise e) →
  (∀ t values db, ∃ e, execute_insert t values db = Raise e) →
  (∀ t values where_ db, ∃ e, execute_update t values where_ db = Raise e) →
  (∀ t where_ db, ∃ e, execute_delete t where_ db = Raise e) →
  reports_no_success (world s) (snd (add_column table request (world s)))
  ∧ reports_no_success (world s) (snd (drop_column table request (world s)))
  ∧ reports_no_success (world s) (snd (rename_column table request (world s)))
  ∧ reports_no_success (world s) (snd (add_index table request (world s)))
  ∧ reports_no_success (world s) (snd (drop_index table request (world s)))
  ∧ reports_no_success (world s) (snd (table_insert table request (world s)))
  ∧ reports_no_success (world s) (snd (table_update table pk request (world s)))
  ∧ reports_no_success (world s) (world (snd (table_delete table pk request s))).
Proof.
  intros Hmigrate Hinsert Hupdate Hdelete.
  assert (∀ op w, reports_no_success (world s) w →
            ∃ e, run_migrate op w = (Raise e, log_statement (MigrateStmt op) w)) as Hrun.
  { intros op w _. unfold run_migrate. cbn.
    destruct (Hmigrate op (database w)) as [e ->]. by exists e. }
  pose proof (reports_no_success_refl (world s)) as Hrefl.
  repeat match goal with |- _ ∧ _ => split end.
  - unfold add_column, require_table.
    destruct (database (world s) !! table); [|done].
    destruct (method request); [done|]. cbv zeta.
    destruct (if str_nonempty _ then _ else _);
      [|by apply reports_no_success_flash].
    destruct (build_column _ _ _ _ _ _) as [col|];
      [|by apply reports_no_success_flash].
    destruct (Hrun (AddColumnOp table
                (get_or_empty (md_get (get_request_data request) "name")) col)
                (world s) Hrefl) as [e ->].
    by apply reports_no_success_flash, reports_no_success_log.
  - unfold drop_column, require_table.
    destruct (database (world s) !! table); [|done].
    destruct (method request); [done|]. cbv zeta.
    destruct (bool_decide _); [|by apply reports_no_success_flash].
    destruct (Hrun (DropColumnOp table
                (get_or_empty (md_get (get_request_data request) "name")))
                (world s) Hrefl) as [e ->].
    by apply reports_no_success_flash, reports_no_success_log.
  - unfold rename_column, require_table.
    destruct (database (world s) !! table); [|done].
    destruct (method request); [done|]. cbv zeta.
    destruct (_ && _); [|by apply reports_no_success_flash].
    destruct (Hrun (RenameColumnOp table
                (get_or_empty (md_get (get_request_data request) "rename"))
                (get_or_empty (md_get (get_request_data request) "rename_to")))
                (world s) Hrefl) as [e ->].
    by apply reports_no_success_flash, reports_no_success_log.
  - unfold add_index, require_table.
    destruct (database (world s) !! table); [|done].
    destruct (method request); [done|]. cbv zeta.
    destruct (md_getlist _ _) as [|c cs] eqn:Ecols;
      [by apply reports_no_success_flash|].
    cbn [getattr_migrator].
    destruct (Hrun (AddIndexOp table (c :: cs)
                (truthy (md_get (get_request_data request) "unique")))
                (world s) Hrefl) as [e ->].
    by apply reports_no_success_flash, reports_no_success_log.
  - destruct (drop_index_never_drops table request (world s))
      as ([ctx [msgs [_ Hfl]]] & Hdb & _ & _).
    split; [done|]. intros m Hin.
    unfold drop_index, require_table in Hin |- *.
    destruct (database (world s) !! table); [|done].
    destruct (method request); [done|].
    cbv zeta in Hin.
    destruct (bool_decide _); cbn in Hin;
      apply elem_of_app in Hin as [Hin|Hin]; try done;
      apply list_elem_of_singleton in Hin; discriminate Hin.
  - unfold table_insert, require_table.
    destruct (database (world s) !! table); [|done]. cbv zeta.
    pose proof (reports_no_success_cache _ _ table Hrefl) as Hcache.
    destruct (getitem _ _); [|done].
    destruct (insert_columns _ _); [|done].
    destruct (method request); [done|].
    destruct (form_loop _ _ _ _) as [st|]; [|done].
    destruct (negb (bool_decide (st_errors st = ∅)));
      [by apply reports_no_success_flash|].
    destruct (negb (bool_decide (st_values st = ∅)));
      [|by apply reports_no_success_flash].
    destruct (Hinsert table (st_values st)
                (database (log_statement (InsertStmt table (st_values st))
                             (update_cache table (world s))))) as [e ->].
    by apply reports_no_success_flash, reports_no_success_log.
  - unfold table_update, require_table, table_update_fetched.
    destruct (database (world s) !! table); [|done]. cbv zeta.
    pose proof (reports_no_success_cache _ _ table Hrefl) as Hcache.
    destruct (getitem _ _) as [model|]; [|done].
    destruct (meta_primary_key model);
      try (by apply reports_no_success_flash);
      (destruct (str_eqb pk UNEDITABLE); [by apply reports_no_success_flash|]);
      (destruct (decode_pk _ _) as [expr|]; [|done]);
      (destruct (model_get _ _ _) as [obj|[]];
         try done; try (by apply reports_no_success_flash));
      (destruct (update_row _ _ _); [|done]);
      (destruct (method request); [done|]);
      (destruct (form_loop _ _ _ _) as [st|]; [|done]);
      (destruct (negb (bool_decide (st_errors st = ∅)));
         [by apply reports_no_success_flash|]);
      (destruct (negb (bool_decide (st_values st = ∅)));
         [|by apply reports_no_success_flash]);
      (destruct (Hupdate table (st_values st) expr
                   (database (log_statement (UpdateStmt table (st_values st) expr)
                                (update_cache table (world s))))) as [e ->]);
      by apply reports_no_success_flash, reports_no_success_log.
  - unfold table_delete.
    destruct (database (world s) !! table); [|done]. cbv zeta.
    pose proof (reports_no_success_cache _ _ table Hrefl) as Hcache.
    destruct (getitem _ _) as [model|]; [|done].
    destruct (meta_primary_key model);
      try (by apply reports_no_success_flash);
      (destruct (str_eqb pk UNEDITABLE); [by apply reports_no_success_flash|]);
      (destruct (decode_pk _ _) as [expr|]; [|done]);
      (destruct (select_get _ _ _) as [obj|[]];
         try done; try (by apply reports_no_success_flash));
      (destruct (method request); [done|]);
      cbn [world log_delete on_world];
      (destruct (Hdelete table expr (database (update_cache table (world s)))) as [e ->]);
      by apply reports_no_success_flash.
Qed.

Lemma refused_writes_change_nothing_witness :
  reports_no_success example_world
    (snd (@table_insert readonly_engine reference_adapters "t"
            (post [("a", "hello")]) example_world))
  ∧ reports_no_success example_world
      (world (snd (@table_delete readonly_engine readonly_row_engine "t" "1"
                     (post []) (site_of example_world)))).
Proof.
  destruct (@refused_writes_change_nothing readonly_engine reference_adapters
              readonly_row_engine "t" "1" (post [("a", "hello")]) (site_of example_world))
    as (_ & _ & _ & _ & _ & Hinsert & _);
    [intros; by eexists..|].
  destruct (@refused_writes_change_nothing readonly_engine reference_adapters
              readonly_row_engine "t" "1" (post []) (site_of example_world))
    as (_ & _ & _ & _ & _ & _ & _ & Hdelete);
    [intros; by eexists..|].
  split; [exact Hinsert|exact Hdelete].
Defined.

(** [repr] of text that is printable and holds neither a single quote nor
    a backslash: the text between single quotes. *)
Lemma str_repr_body_plain s :
  str_forall plain_char s = true → str_repr_body "'" s = s.
Proof.
  assert (∀ c, plain_char c = true →
               (bool_decide (c = "'"%char) || bool_decide (c = "\"%char)) = false
               ∧ (code c =? 9)%N = false ∧ (code c =? 10)%N = false
               ∧ (code c =? 13)%N = false ∧ chr_isprintable c = true) as Hplain.
  { assert (N_below 256 (λ n,
              let c := ascii_of_N n in
              implb (plain_char c)
                (negb (bool_decide (c = "'"%char) || bool_decide (c = "\"%char))
                 && negb (code c =? 9)%N && negb (code c =? 10)%N
                 && negb (code c =? 13)%N && chr_isprintable c)) = true) as Hall
      by (vm_compute; reflexivity).
    intros c Hc.
    pose proof (all_chars (λ c,
              implb (plain_char c)
                (negb (bool_decide (c = "'"%char) || bool_decide (c = "\"%char))
                 && negb (code c =? 9)%N && negb (code c =? 10)%N
                 && negb (code c =? 13)%N && chr_isprintable c)) Hall c) as Himp.
    cbn beta in Himp. rewrite Hc in Himp. cbn [implb] in Himp.
    repeat (apply andb_prop in Himp as [Himp ?]).
    repeat split; try done; by apply negb_true_iff. }
  induction s as [|c s IH]; [done|].
  cbn [str_forall]. intros [Hc Hs]%andb_prop.
  destruct (Hplain c Hc) as (Hq & H9 & H10 & H13 & Hp).
  cbn [str_repr_body]. rewrite Hq, H9, H10, H13, Hp, IH by done. reflexivity.
Qed.

Lemma str_repr_plain s :
  str_forall plain_char s = true → str_repr s = "'" +:+ s +:+ "'".
Proof.
  intros Hs. unfold str_repr.
  assert (str_repr_quote s = "'"%char) as ->.
  { unfold str_repr_quote.
    rewrite (str_forall_impl plain_char _ s); [done| |done].
    intros c Hc. unfold plain_char in Hc.
    apply andb_prop in Hc as [Hc _]. by apply andb_prop in Hc as [_ Hc]. }
  rewrite (str_repr_body_plain s Hs). reflexivity.
Qed.

(** X17: a foreign-key column to a table the dataset has no model of, or to
    a field that model does not have, is not added: the lookup fails
    before any statement is built, the view reports the missing key, as
    [repr] writes it, and shows the form again; no statement reaches the
    engine.  A key of printable characters without a single quote or a
    backslash is written between single quotes. *)
Theorem add_column_unknown_reference `{Engine} (table : string) (request : Request)
    (w : World) (t : Table) (cls : FieldClass) (fk_table fk_field : string) :
  method request = POST →
  database w !! table = Some t →
  get_or_empty (md_get (form request) "name") ≠ "" →
  (md_get (form request) "type" ≫= assoc column_mapping) = Some cls →
  md_get (form request) "fk_table" = Some fk_table →
  fk_table ≠ "" →
  md_get (form request) "fk_field" = Some fk_field →
  (models w !! fk_table = None
   ∨ ∃ m, models w !! fk_table = Some m ∧ meta_columns m !! fk_field = None) →
  ∃ key,
    (key = fk_table ∨ key = fk_field)
    ∧ add_column table request w
      = (Ok (Render "add_column.html" no_context),
         flash ("Error attempting to add column "
                +:+ quoted (get_or_empty (md_get (form request) "name"))
                +:+ ": " +:+ str_repr key) "danger" w)
    ∧ (str_forall plain_char key = true → str_repr key = "'" +:+ key +:+ "'").
Proof.
  intros Hpost Ht Hname Hcls Hfk Hfkne Hfield Hmissing.
  assert (str_nonempty (get_or_empty (md_get (form request) "name")) = true) as Hne.
  { by destruct (get_or_empty (md_get (form request) "name")). }
  assert (truthy (Some fk_table) = true) as Htruthy by (by destruct fk_table).
  unfold add_column, require_table, get_request_data. rewrite Ht, Hpost. cbv zeta.
  rewrite Hne, Hcls, Hfk, Hfield. unfold build_column. rewrite Htruthy.
  cbn [negb get_or_empty]. unfold getitem.
  destruct Hmissing as [Hm|(m & Hm & Hf)].
  - exists fk_table. split; [by left|]. rewrite Hm.
    split; [reflexivity|apply str_repr_plain].
  - exists fk_field. split; [by right|]. rewrite Hm. cbn [rbind]. rewrite Hf.
    split; [reflexivity|apply str_repr_plain].
Qed.

Lemma add_column_unknown_reference_witness :
  ∃ key,
    @add_column reference_engine "t"
      (post [("name", "owner"); ("type", "INTEGER"); ("fk_table", "user's");
             ("fk_field", "id")]) example_world
    = (Ok (Render "add_column.html" no_context),
       flash ("Error attempting to add column " +:+ quoted "owner"
              +:+ ": " +:+ str_repr key) "danger" example_world).
Proof.
  destruct (@add_column_unknown_reference reference_engine "t"
              (post [("name", "owner"); ("type", "INTEGER"); ("fk_table", "user's");
                     ("fk_field", "id")])
              example_world example_table IntegerField "user's" "id")
    as (key & _ & Hview & _);
    [reflexivity|reflexivity|discriminate|reflexivity|reflexivity|discriminate
    |reflexivity|by left|].
  exists key. exact Hview.
Defined.

(** ** More on the row forms *)

Section form_values.
Context `{Adapters}.
Variable model : Model.
Variable col_dict : gmap string ColumnMetadata.

(** A form without an entry for a column of [col_dict] leaves the loop
    variables as they are. *)
Lemma form_loop_unknown items st :
  (∀ k v, (k, v) ∈ items → col_dict !! k = None) →
  form_loop model col_dict items st = Ok st.
Proof.
  induction items as [|[k v] items IH]; intros Hnone; [reflexivity|].
  cbn [form_loop]. rewrite (Hnone k v) by (apply elem_of_cons; by left).
  apply IH. intros k' v' Hin. apply (Hnone k' v'). apply elem_of_cons. by right.
Qed.

Hypothesis keyed_by_name : ∀ k c, col_dict !! k = Some c → column_name c = k.

(** When every entry for a column passes, the loop records no error and
    the validated value of every such entry, and nothing else. *)
Lemma form_loop_values items : ∀ st st',
  NoDup (map fst items) →
  (∀ k text, (k, text) ∈ items → is_Some (col_dict !! k) →
             ∃ v, entry_passes model col_dict k text v) →
  form_loop model col_dict items st = Ok st' →
  st_errors st' = st_errors st
  ∧ (∀ k v, st_values st !! k = Some v → k ∉ map fst items →
            st_values st' !! k = Some v)
  ∧ (∀ k text v, (k, text) ∈ items → entry_passes model col_dict k text v →
                 st_values st' !! k = Some v)
  ∧ (∀ k, is_Some (st_values st' !! k) →
          is_Some (st_values st !! k)
          ∨ ∃ text, (k, text) ∈ items ∧ is_Some (col_dict !! k)).
Proof.
  induction items as [|[k0 v0] items IH]; intros st st' Hnd Hpass Hloop.
  - injection Hloop as <-. split; [done|]. split; [done|]. split.
    + intros k text v Hin. by apply elem_of_nil in Hin.
    + intros k Hk. by left.
  - cbn in Hnd. apply NoDup_cons in Hnd as [Hk0 Hnd].
    assert (∀ k text, (k, text) ∈ items → is_Some (col_dict !! k) →
                      ∃ v, entry_passes model col_dict k text v) as Hpass'.
    { intros k text Hin. apply Hpass. apply elem_of_cons. by right. }
    cbn [form_loop] in Hloop.
    destruct (col_dict !! k0) as [column|] eqn:Ek0.
    + destruct (Hpass k0 v0) as (v & column' & field & err & Hc & Hf & Hv & Herr);
        [apply elem_of_cons; by left|by rewrite Ek0|].
      rewrite Ek0 in Hc. injection Hc as <-.
      pose proof (keyed_by_name _ _ Ek0) as Hname.
      unfold getitem in Hloop. rewrite Hf in Hloop. cbn [rbind] in Hloop.
      rewrite Hv in Hloop. cbn [rbind fst snd] in Hloop. rewrite Herr in Hloop.
      destruct (IH _ _ Hnd Hpass' Hloop) as (IHe & IHa & IHb & IHc).
      cbn in IHe, IHa, IHc. rewrite Hname in IHa, IHc.
      split; [done|]. split; [|split].
      * intros k v' Hk Hnotin. apply IHa.
        -- rewrite lookup_insert_ne; [done|].
           intros ->. apply Hnotin. cbn. apply elem_of_cons. by left.
        -- intros Hin. apply Hnotin. cbn. apply elem_of_cons. by right.
      * intros k text v' Hin Hp.
        apply elem_of_cons in Hin as [Heq|Hin]; [|by eapply IHb].
        injection Heq as -> ->.
        destruct Hp as (column' & field' & err' & Hc' & Hf' & Hv' & _).
        rewrite Ek0 in Hc'. injection Hc' as <-.
        rewrite Hf in Hf'. injection Hf' as <-.
        rewrite Hv in Hv'. injection Hv' as <- _.
        apply IHa; [apply lookup_insert_eq|done].
      * intros k Hk. destruct (IHc k Hk) as [Hold|(text & Hin & Hcol)].
        -- destruct (decide (k = k0)) as [->|Hne].
           ++ right. exists v0. split; [apply elem_of_cons; by left|by rewrite Ek0].
           ++ left. by rewrite lookup_insert_ne in Hold.
        -- right. exists text. split; [apply elem_of_cons; by right|done].
    + destruct (IH _ _ Hnd Hpass' Hloop) as (IHe & IHa & IHb & IHc).
      split; [done|]. split; [|split].
      * intros k v' Hk Hnotin. apply IHa; [done|].
        intros Hin. apply Hnotin. cbn. apply elem_of_cons. by right.
      * intros k text v' Hin Hp.
        apply elem_of_cons in Hin as [Heq|Hin]; [|by eapply IHb].
        injection Heq as -> ->.
        destruct Hp as (column' & _ & _ & Hc' & _). by rewrite Ek0 in Hc'.
      * intros k Hk. destruct (IHc k Hk) as [Hold|(text & Hin & Hcol)]; [by left|].
        right. exists text. split; [apply elem_of_cons; by right|done].
Qed.
End form_values.

Lemma make_col_dict_keyed columns k c :
  make_col_dict columns !! k = Some c → column_name c = k.
Proof. intros Hk. by destruct (make_col_dict_lookup _ _ _ Hk). Qed.

Lemma md_items_elem md k v : (k, v) ∈ md_items md → (k, v) ∈ md.
Proof. intros Hin. by destruct (md_items_go_elem _ _ _ _ Hin). Qed.

Lemma make_col_dict_dom columns :
  dom (make_col_dict columns) = list_to_set (map column_name columns).
Proof.
  unfold make_col_dict.
  cut (∀ d : gmap string ColumnMetadata,
         dom (foldl (λ d column, <[column_name column := column]> d) d columns)
         = list_to_set (map column_name columns) ∪ dom d).
  { intros Hgen. rewrite Hgen, dom_empty_L. set_solver. }
  induction columns as [|c cs IH]; intros d; cbn.
  - set_solver.
  - rewrite IH, dom_insert_L. set_solver.
Qed.

Lemma table_insert_unfold `{Engine} `{Adapters} (table : string) (w : World)
    (t : Table) (cols : list ColumnMetadata) :
  database w !! table = Some t →
  insert_columns (generate_model table t) (columns t) = Ok cols →
  ∀ r, table_insert table r w =
    match method r with
    | GET =>
        (Ok (Render "table_insert.html"
               {| ctx_row := blank_row cols; ctx_edited := dom (make_col_dict cols);
                  ctx_errors := ∅ |}), update_cache table w)
    | POST =>
        match form_loop (generate_model table t) (make_col_dict cols) (md_items (form r))
                {| st_edited := ∅; st_row := blank_row cols;
                   st_errors := ∅; st_values := ∅ |} with
        | Raise e => (Raise e, update_cache table w)
        | Ok st =>
            let page := Ok (Render "table_insert.html" (context_of st)) in
            if negb (bool_decide (st_errors st = ∅)) then
              (page, flash INSERT_ERRORS "danger" (update_cache table w))
            else if negb (bool_decide (st_values st = ∅)) then
              let w1 := log_statement (InsertStmt table (st_values st))
                          (update_cache table w) in
              match execute_insert table (st_values st) (database w1) with
              | Raise exc => (page, flash ("Insert failed: " +:+ str_exn exc) "danger" w1)
              | Ok (n, db) =>
                  (Ok (Redirect "table_content" (Some "last")),
                   flash ("Successfully inserted record (" +:+ py_str (PInt n) +:+ ").")
                         "success" (set_database db w1))
              end
            else (page, flash "No data was specified to be inserted." "warning"
                          (update_cache table w))
        end
    end.
Proof.
  intros Ht Hcols. intros r. unfold table_insert, require_table. rewrite Ht. cbv zeta.
    rewrite (getitem_models_fresh table w t Ht).
    rewrite get_columns_update_cache. unfold get_columns at 1. rewrite Ht.
    rewrite Hcols. reflexivity.
Qed.

(** X18: an insert without data.  A POST whose form has no entry for an
    insertable column, an empty form among them, inserts nothing: the
    view warns that no data was specified and shows the blank form; no
    statement reaches the engine.  A GET shows the blank form with every
    insertable column open for editing. *)
Theorem table_insert_without_data `{Engine} `{Adapters} (table : string)
    (request : Request) (w : World) (t : Table) (cols : list ColumnMetadata) :
  database w !! table = Some t →
  insert_columns (generate_model table t) (columns t) = Ok cols →
  (method request = POST →
   (∀ k v, (k, v) ∈ form request → k ∉ map column_name cols) →
   table_insert table request w
   = (Ok (Render "table_insert.html"
            {| ctx_row := blank_row cols; ctx_edited := ∅; ctx_errors := ∅ |}),
      flash "No data was specified to be inserted." "warning" (update_cache table w)))
  ∧ (method request = GET →
     table_insert table request w
     = (Ok (Render "table_insert.html"
              {| ctx_row := blank_row cols;
                 ctx_edited := list_to_set (map column_name cols);
                 ctx_errors := ∅ |}),
        update_cache table w)).
Proof.
  intros Ht Hcols.
  assert (∀ k, is_Some (make_col_dict cols !! k) ↔ k ∈ map column_name cols) as Hdom.
  { intros k. by rewrite <- elem_of_dom, make_col_dict_dom, elem_of_list_to_set. }
  pose proof (table_insert_unfold table w t cols Ht Hcols) as Hview.
  split.
  - intros Hpost Hnone. rewrite Hview, Hpost.
    rewrite form_loop_unknown.
    + cbn. rewrite !bool_decide_eq_true_2 by done. reflexivity.
    + intros k v Hin. apply md_items_elem in Hin.
      destruct (make_col_dict cols !! k) eqn:E; [|done].
      exfalso. apply (Hnone k v Hin). apply Hdom. by eexists.
  - intros Hget. rewrite Hview, Hget. by rewrite make_col_dict_dom.
Qed.

Lemma table_insert_without_data_witness :
  @table_insert reference_engine reference_adapters "t" (post [("zzz", "1")])
    example_world
  = (Ok (Render "table_insert.html"
           {| ctx_row := blank_row [column_a; column_b]; ctx_edited := ∅;
              ctx_errors := ∅ |}),
     flash "No data was specified to be inserted." "warning"
       (@update_cache reference_engine "t" example_world)).
Proof.
  destruct (@table_insert_without_data reference_engine reference_adapters "t"
              (post [("zzz", "1")]) example_world example_table [column_a; column_b]
              eq_refl eq_refl) as [Hpost _].
  apply Hpost; [reflexivity|].
  intros k v Hin Hcol.
  apply elem_of_cons in Hin as [[= -> ->]|Hin]; [|by apply elem_of_nil in Hin].
  apply elem_of_cons in Hcol as [[=]|Hcol].
  apply elem_of_cons in Hcol as [[=]|Hcol]. by apply elem_of_nil in Hcol.
Defined.

(** X19: what an insert writes.  When every entry of the form for an
    insertable column passes validation, and there is at least one, the
    view hands exactly one insert to the engine; it writes the validated
    value of every such entry (the first value of a repeated key) and no
    other column.  When the engine accepts it, the view redirects to the
    last page and reports the row count the engine returned; when the
    engine refuses, the database is as before and the view reports the
    engine's message. *)
Theorem table_insert_writes_validated `{Engine} `{Adapters} (table : string)
    (request : Request) (w : World) (t : Table) (cols : list ColumnMetadata) :
  method request = POST →
  database w !! table = Some t →
  insert_columns (generate_model table t) (columns t) = Ok cols →
  (∀ k text, (k, text) ∈ md_items (form request) → k ∈ map column_name cols →
     ∃ v, entry_passes (generate_model table t) (make_col_dict cols) k text v) →
  (∃ k text, (k, text) ∈ md_items (form request) ∧ k ∈ map column_name cols) →
  ∃ values,
    (∀ k text v, (k, text) ∈ md_items (form request) →
       entry_passes (generate_model table t) (make_col_dict cols) k text v →
       values !! k = Some v)
    ∧ (∀ k, is_Some (values !! k) →
         ∃ text, (k, text) ∈ md_items (form request) ∧ k ∈ map column_name cols)
    ∧ executed (snd (table_insert table request w))
      = (executed w ++ [InsertStmt table values])%list
    ∧ match execute_insert table values (database w) with
      | Ok (n, db) =>
          fst (table_insert table request w) = Ok (Redirect "table_content" (Some "last"))
          ∧ database (snd (table_insert table request w)) = db
          ∧ flashes (snd (table_insert table request w))
            = (flashes w ++ [("Successfully inserted record (" +:+ py_str (PInt n) +:+ ").",
                              "success")])%list
      | Raise exc =>
          (∃ ctx, fst (table_insert table request w) = Ok (Render "table_insert.html" ctx))
          ∧ database (snd (table_insert table request w)) = database w
          ∧ flashes (snd (table_insert table request w))
            = (flashes w ++ [("Insert failed: " +:+ str_exn exc, "danger")])%list
      end.
Proof.
  intros Hpost Ht Hcols Hpass (k1 & text1 & Hin1 & Hcol1).
  assert (∀ k, is_Some (make_col_dict cols !! k) ↔ k ∈ map column_name cols) as Hdom.
  { intros k. by rewrite <- elem_of_dom, make_col_dict_dom, elem_of_list_to_set. }
  set (model := generate_model table t) in *.
  set (col_dict := make_col_dict cols) in *.
  set (st0 := {| st_edited := ∅; st_row := blank_row cols;
                 st_errors := ∅; st_values := ∅ |}).
  destruct (form_loop_returns model col_dict (md_items (form request)) st0) as [st Hloop].
  { intros k c Hk. apply make_col_dict_lookup in Hk as [Hc _].
    by destruct (insert_columns_kept _ _ _ Hcols c Hc). }
  destruct (form_loop_values model col_dict (make_col_dict_keyed cols)
              (md_items (form request)) st0 st (md_items_NoDup _)) as (He & _ & Hb & Hc);
    [|exact Hloop|].
  { intros k text Hin Hk. apply Hpass; [done|]. by apply Hdom. }
  exists (st_values st).
  assert (st_values st ≠ ∅) as Hne.
  { destruct (Hpass k1 text1 Hin1 Hcol1) as [v Hv].
    intros Hempty. specialize (Hb _ _ _ Hin1 Hv).
    rewrite Hempty, lookup_empty in Hb. discriminate Hb. }
  split; [exact Hb|]. split.
  { intros k Hk. destruct (Hc k Hk) as [Hold|(text & Hin & Hcol)].
    - cbn in Hold. rewrite lookup_empty in Hold. by destruct Hold.
    - exists text. split; [done|]. by apply Hdom. }
  rewrite (table_insert_unfold table w t cols Ht Hcols), Hpost.
  fold model col_dict st0. rewrite Hloop. cbv zeta.
  rewrite He. cbn [st_errors st0]. rewrite bool_decide_eq_true_2 by done.
  rewrite bool_decide_eq_false_2 by done. cbn [negb].
  cbn [database log_statement]. rewrite update_cache_database.
  destruct (execute_insert table (st_values st) (database w)) as [[n db]|exc]; cbn.
  - rewrite update_cache_executed, update_cache_flashes. done.
  - rewrite update_cache_executed, update_cache_flashes, update_cache_database.
    split; [done|]. split; [by eexists|]. by split.
Qed.

Lemma table_insert_writes_validated_witness :
  ∃ values,
    executed (snd (@table_insert reference_engine reference_adapters "t"
                     (post [("a", "hello"); ("b", "42")]) example_world))
    = [InsertStmt "t" values]
    ∧ values !! "a" = Some (PStr "hello")
    ∧ values !! "b" = Some (PStr "42").
Proof.
  assert (@entry_passes reference_adapters (reference_model "t" example_table)
            (make_col_dict [column_a; column_b]) "a" "hello" (PStr "hello")) as Ha.
  { exists column_a, (field_of_column column_a), None. by repeat split. }
  assert (@entry_passes reference_adapters (reference_model "t" example_table)
            (make_col_dict [column_a; column_b]) "b" "42" (PStr "42")) as Hb.
  { exists column_b, (field_of_column column_b), None. by repeat split. }
  assert (("a", "hello") ∈ md_items (form (post [("a", "hello"); ("b", "42")]))) as Hina.
  { apply elem_of_cons. by left. }
  assert (("b", "42") ∈ md_items (form (post [("a", "hello"); ("b", "42")]))) as Hinb.
  { apply elem_of_cons. right. apply elem_of_cons. by left. }
  destruct (@table_insert_writes_validated reference_engine reference_adapters "t"
              (post [("a", "hello"); ("b", "42")]) example_world example_table
              [column_a; column_b] eq_refl eq_refl eq_refl)
    as (values & Hvalues & _ & Hexec & _).
  - intros k text Hin _.
    apply elem_of_cons in Hin as [[= -> ->]|Hin]; [eexists; exact Ha|].
    apply elem_of_cons in Hin as [[= -> ->]|Hin]; [eexists; exact Hb|].
    by apply elem_of_nil in Hin.
  - exists "a", "hello". split; [exact Hina|]. apply elem_of_cons. by left.
  - exists values. split; [exact Hexec|].
    split; [exact (Hvalues _ _ _ Hina Ha)|exact (Hvalues _ _ _ Hinb Hb)].
Defined.

(** ** Updates and deletes follow the token *)

(** X20: an update or a delete reaches the engine only on a POST, for a
    table with a primary key, for a token that is not the uneditable mark
    and decodes, and after the row the token selects was found; its WHERE
    clause is then the expression [decode_pk] returned for the token, and
    it is the only statement of the request. *)
Theorem row_statements_follow_the_token `{Engine} `{Adapters} `{RowEngine}
    (table pk : string) (request : Request) (s : Site) :
  (executed (snd (table_update table pk request (world s))) = executed (world s)
   ∨ ∃ t expr obj values,
       method request = POST
       ∧ database (world s) !! table = Some t
       ∧ meta_primary_key (generate_model table t) ≠ NoKey
       ∧ pk ≠ UNEDITABLE
       ∧ decode_pk (generate_model table t) (PStr pk) = Ok expr
       ∧ model_get table expr (database (world s)) = Ok obj
       ∧ values ≠ ∅
       ∧ executed (snd (table_update table pk request (world s)))
         = (executed (world s) ++ [UpdateStmt table values expr])%list)
  ∧ (deletes (snd (table_delete table pk request s)) = deletes s
     ∨ ∃ t expr row,
         method request = POST
         ∧ database (world s) !! table = Some t
         ∧ meta_primary_key (generate_model table t) ≠ NoKey
         ∧ pk ≠ UNEDITABLE
         ∧ decode_pk (generate_model table t) (PStr pk) = Ok expr
         ∧ select_get table expr (database (world s)) = Ok row
         ∧ deletes (snd (table_delete table pk request s))
           = (deletes s ++ [(table, expr)])%list).
Proof.
  split.
  - unfold table_update, require_table, table_update_fetched.
    destruct (database (world s) !! table) as [t|] eqn:Et; [|by left]. cbv zeta.
    rewrite (getitem_models_fresh table (world s) t Et).
    rewrite update_cache_database.
    destruct (meta_primary_key (generate_model table t)) eqn:Epk;
      try (left; cbn; by rewrite update_cache_executed);
      (unfold str_eqb; case_bool_decide as Hpk;
         [left; cbn; by rewrite update_cache_executed|]);
      (destruct (decode_pk _ _) as [expr|] eqn:Edec;
         [|left; cbn; by rewrite update_cache_executed]);
      (destruct (model_get _ _ _) as [obj|[]] eqn:Eget;
         try (left; cbn; by rewrite update_cache_executed));
      (destruct (update_row _ _ _); [|left; cbn; by rewrite update_cache_executed]);
      (destruct (method request) eqn:Em; [left; cbn; by rewrite update_cache_executed|]);
      (destruct (form_loop _ _ _ _) as [st|];
         [|left; cbn; by rewrite update_cache_executed]);
      (destruct (negb (bool_decide (st_errors st = ∅)));
         [left; cbn; by rewrite update_cache_executed|]);
      (case_bool_decide as Hvalues; cbn [negb];
         [left; cbn; by rewrite update_cache_executed|]);
      right; exists t, expr, obj, (st_values st);
      (split; [done|]); (split; [done|]); (split; [by rewrite Epk|]); (split; [done|]);
      (split; [done|]); (split; [done|]); (split; [done|]);
      cbn [database log_statement]; rewrite update_cache_database;
      destruct (execute_update _ _ _ _) as [[n db]|exc]; cbn;
      by rewrite update_cache_executed.
  - unfold table_delete.
    destruct (database (world s) !! table) as [t|] eqn:Et; [|by left]. cbv zeta.
    cbn [world on_world].
    rewrite (getitem_models_fresh table (world s) t Et).
    rewrite update_cache_database.
    destruct (meta_primary_key (generate_model table t)) eqn:Epk;
      try (by left);
      (unfold str_eqb; case_bool_decide as Hpk; [by left|]);
      (destruct (decode_pk _ _) as [expr|] eqn:Edec; [|by left]);
      (destruct (select_get _ _ _) as [row|[]] eqn:Eget; try (by left));
      (destruct (method request) eqn:Em; [by left|]);
      right; exists t, expr, row;
      (split; [done|]); (split; [done|]); (split; [by rewrite Epk|]); (split; [done|]);
      (split; [done|]); (split; [done|]);
      cbn [world log_delete on_world]; rewrite update_cache_database;
      by destruct (execute_delete _ _ _) as [[n db]|exc].
Qed.

(** X21: what a delete does.  On a POST for a token that decodes to an
    expression selecting a row, the view hands one delete to the engine,
    with that expression as its WHERE clause.  When the engine accepts it,
    the view goes back to the page last viewed and reports the row count
    the engine returned; when the engine refuses, the database is as
    before and the view shows the row again with the engine's message. *)
Theorem table_delete_deletes_selected `{Engine} `{RowEngine}
    (table pk : string) (request : Request) (s : Site) (t : Table)
    (expr : Expression) (row : gmap string pyvalue) :
  method request = POST →
  database (world s) !! table = Some t →
  meta_primary_key (generate_model table t) ≠ NoKey →
  pk ≠ UNEDITABLE →
  decode_pk (generate_model table t) (PStr pk) = Ok expr →
  select_get table expr (database (world s)) = Ok row →
  deletes (snd (table_delete table pk request s)) = (deletes s ++ [(table, expr)])%list
  ∧ executed (world (snd (table_delete table pk request s))) = executed (world s)
  ∧ match execute_delete table expr (database (world s)) with
    | Ok (n, db) =>
        fst (table_delete table pk request s) = Ok (RedirectToPrevious table)
        ∧ database (world (snd (table_delete table pk request s))) = db
        ∧ flashes (world (snd (table_delete table pk request s)))
          = (flashes (world s)
             ++ [("Successfully deleted " +:+ py_str (PInt n) +:+ " record.", "success")])%list
    | Raise exc =>
        fst (table_delete table pk request s)
        = Ok (Render "table_delete.html"
                {| ctx_row := row; ctx_edited := ∅; ctx_errors := ∅ |})
        ∧ database (world (snd (table_delete table pk request s))) = database (world s)
        ∧ flashes (world (snd (table_delete table pk request s)))
          = (flashes (world s) ++ [("Delete failed: " +:+ str_exn exc, "danger")])%list
    end.
Proof.
  intros Hpost Ht Hkey Hpk Hdec Hget.
  unfold table_delete. rewrite Ht. cbv zeta. cbn [world on_world].
  rewrite (getitem_models_fresh table (world s) t Ht), update_cache_database.
  unfold str_eqb. rewrite bool_decide_eq_false_2 by done.
  rewrite Hdec, Hget, Hpost. cbn [world log_delete on_world].
  rewrite update_cache_database.
  destruct (meta_primary_key (generate_model table t)); [| |done];
    destruct (execute_delete table expr (database (world s))) as [[n db]|exc]; cbn;
    rewrite ?update_cache_executed, ?update_cache_flashes, ?update_cache_database;
    done.
Qed.

(** On the table keyed by (a, b), the token "x" has one piece: the delete
    it asks for removes both rows whose [a] is "x". *)
Lemma table_delete_deletes_selected_witness :
  let result := @table_delete reference_engine reference_row_engine "p" "x"
                  (post []) (site_of pair_world) in
  deletes (snd result) = [("p", ExprEq (field_of_column column_ka) (PStr "x"))]
  ∧ fst result = Ok (RedirectToPrevious "p")
  ∧ (rows <$> database (world (snd result)) !! "p")
    = Some [{[ "a" := PStr "y"; "b" := PStr "1" ]}]
  ∧ flashes (world (snd result)) = [("Successfully deleted 2 record.", "success")].
Proof.
  intros result.
  destruct (@table_delete_deletes_selected reference_engine reference_row_engine
              "p" "x" (post []) (site_of pair_world) pair_table
              (ExprEq (field_of_column column_ka) (PStr "x"))
              {[ "a" := PStr "x"; "b" := PStr "1" ]})
    as (Hdel & _ & Hok);
    [reflexivity|reflexivity|discriminate|discriminate|reflexivity|reflexivity|].
  split; [exact Hdel|].
  change (execute_delete "p" (ExprEq (field_of_column column_ka) (PStr "x"))
            (database (world (site_of pair_world))))
    with (reference_delete "p" (ExprEq (field_of_column column_ka) (PStr "x"))
            (database pair_world)) in Hok.
  vm_compute reference_delete in Hok.
  destruct Hok as (Hresp & Hdb & Hfl).
  split; [exact Hresp|]. split; [|exact Hfl].
  subst result. rewrite Hdb. reflexivity.
Defined.

(** ** The session *)

Lemma pagination_page_positive page_arg total_rows rows_per_page p :
  table_content_pagination page_arg total_rows rows_per_page = Ok p → 1 ≤ page p.
Proof.
  unfold table_content_pagination.
  destruct (if isdigit _ then _ else _) as [n|e]; cbn [rbind]; [|discriminate].
  destruct (negb (float_fits rows_per_page) || negb (float_fits total_rows));
    cbn [rbind]; [discriminate|].
  destruct (rows_per_page =? 0); cbn [rbind]; [discriminate|].
  intros [= <-]. cbn. lia.
Qed.

(** X22: going back to where one was.  The entry [table_content] writes at
    its end, the page it shows and the ordering it was asked for under the
    table's name, makes [redirect_to_previous] address that page: the
    page is left out when it is the first, the ordering when it is
    missing or empty.  Writing the entry leaves what is kept for other
    tables, the login mark and the address to return to as they are.  For
    a table never viewed the address has neither page nor ordering. *)
Theorem redirect_to_previous_returns (table : string) (page_arg ordering : option string)
    (total_rows rows_per_page : Z) (p : Pagination) (session : Session) :
  table_content_pagination page_arg total_rows rows_per_page = Ok p →
  redirect_to_previous table (set_last_viewed table (page p) ordering session)
  = {| address_page := if page p =? 1 then None else Some (page p);
       address_ordering := if truthy ordering then ordering else None |}
  ∧ (∀ other, other ≠ table →
       redirect_to_previous other (set_last_viewed table (page p) ordering session)
       = redirect_to_previous other session)
  ∧ authorized (set_last_viewed table (page p) ordering session) = authorized session
  ∧ next_url (set_last_viewed table (page p) ordering session) = next_url session
  ∧ (last_viewed session !! table = None →
     redirect_to_previous table session
     = {| address_page := None; address_ordering := None |}).
Proof.
  intros Ep.
  pose proof (pagination_page_positive _ _ _ _ Ep) as Hpos.
  split; [|split; [|split; [done|split; [done|]]]].
  - unfold redirect_to_previous, set_last_viewed. cbn [last_viewed].
    rewrite lookup_insert_eq.
    destruct (page p =? 0) eqn:E0; [apply Z.eqb_eq in E0; lia|].
    by destruct (page p =? 1).
  - intros other Hne. unfold redirect_to_previous, set_last_viewed. cbn [last_viewed].
    by rewrite lookup_insert_ne.
  - intros Hnone. unfold redirect_to_previous. by rewrite Hnone.
Qed.

Lemma redirect_to_previous_returns_witness :
  ∃ p,
    table_content_pagination (Some "2") 125 50 = Ok p
    ∧ redirect_to_previous "t" (set_last_viewed "t" (page p) (Some "-a") fresh_session)
      = {| address_page := Some 2; address_ordering := Some "-a" |}.
Proof.
  eexists. split; [vm_compute; reflexivity|].
  destruct (redirect_to_previous_returns "t" (Some "2") (Some "-a") 125 50 _
              fresh_session eq_refl) as [Hback _].
  exact Hback.
Defined.

(** ** The password gate *)

(** X23: the password gate.  A request passes the gate exactly when the
    session is authorized or the path is the login page or begins with
    "/static/" or "/favicon"; any other request is sent to the login page,
    with a message, and its address is kept.  A POST to the login page
    with the configured password marks the session authorized, after
    which every request passes; with any other password, or none, the
    session stays as it is and a message is flashed.  After a logout
    the gate is closed again. *)
Theorem password_gate (configured : string) (request : Request) (v : Visit)
    (path base_url : string) :
  let exempt := str_eqb path "/login/"
                || startswith path "/static/" || startswith path "/favicon" in
  (fst (check_password path base_url v) = None
   ↔ authorized (visit_session v) = true ∨ exempt = true)
  ∧ (authorized (visit_session v) = false → exempt = false →
     check_password path base_url v
     = (Some GoToLogin,
        {| visit_session := set_next_url base_url (visit_session v);
           visit_flashes := (visit_flashes v
                             ++ [("You must log-in to view the database browser.",
                                  "danger")])%list |}))
  ∧ (method request = POST → md_get (form request) "password" = Some configured →
     authorized (visit_session (snd (login (Some configured) request v))) = true
     ∧ visit_flashes (snd (login (Some configured) request v)) = visit_flashes v
     ∧ ∀ path' base_url',
         check_password path' base_url' (snd (login (Some configured) request v))
         = (None, snd (login (Some configured) request v)))
  ∧ (method request = POST → md_get (form request) "password" ≠ Some configured →
     login (Some configured) request v
     = (Ok (Page "login.html"),
        {| visit_session := visit_session v;
           visit_flashes := (visit_flashes v
                             ++ [("The password you entered is incorrect.",
                                  "danger")])%list |}))
  ∧ (method request = GET →
     login (Some configured) request v = (Ok (Page "login.html"), v))
  ∧ (method request = POST → login None request v = (Raise (KeyError "PASSWORD"), v))
  ∧ (fst (logout v) = GoToLogin
     ∧ authorized (visit_session (snd (logout v))) = false
     ∧ (exempt = false →
        fst (check_password path base_url (snd (logout v))) = Some GoToLogin)).
Proof.
  cbv zeta.
  repeat match goal with |- _ ∧ _ => split end.
  - unfold check_password.
    destruct (authorized (visit_session v)), (str_eqb path "/login/"),
      (startswith path "/static/"), (startswith path "/favicon");
      cbn; split; try done; try (intros _; by left); try (intros _; by right);
      by intros [|].
  - intros Hauth Hexempt. unfold check_password. rewrite Hauth.
    apply orb_false_elim in Hexempt as [Hexempt Hfav].
    apply orb_false_elim in Hexempt as [Hlogin Hstatic].
    by rewrite Hlogin, Hstatic, Hfav.
  - intros Hpost Hpw. unfold login.
    rewrite Hpost, (bool_decide_eq_true_2 _ Hpw). cbn [snd].
    split; [done|]. split; [done|]. intros path' base_url'. reflexivity.
  - intros Hpost Hpw. unfold login.
    by rewrite Hpost, (bool_decide_eq_false_2 _ Hpw).
  - intros Hget. unfold login. by rewrite Hget.
  - intros Hpost. unfold login. by rewrite Hpost.
  - reflexivity.
  - reflexivity.
  - intros Hexempt. unfold check_password, logout. cbn [snd visit_session authorized
      set_authorized negb andb].
    apply orb_false_elim in Hexempt as [Hexempt Hfav].
    apply orb_false_elim in Hexempt as [Hlogin Hstatic].
    by rewrite Hlogin, Hstatic, Hfav.
Qed.

Lemma password_gate_witness :
  fst (check_password "/t/" "http://db.example/t/" fresh_visit) = Some GoToLogin
  ∧ (∀ path' base_url',
       check_password path' base_url'
         (snd (login (Some "secret") (post [("password", "secret")]) fresh_visit))
       = (None, snd (login (Some "secret") (post [("password", "secret")]) fresh_visit)))
  ∧ authorized (visit_session (snd (login (Some "secret") (post [("password", "guess")])
                                      fresh_visit))) = false.
Proof.
  destruct (password_gate "secret" (post [("password", "secret")]) fresh_visit
              "/t/" "http://db.example/t/")
    as (_ & Hblocked & Hlogin & _).
  destruct (password_gate "secret" (post [("password", "guess")]) fresh_visit
              "/t/" "http://db.example/t/")
    as (_ & _ & _ & Hwrong & _).
  split; [by rewrite Hblocked|]. split.
  - by destruct (Hlogin eq_refl eq_refl) as (_ & _ & Hpass).
  - rewrite Hwrong; [reflexivity|reflexivity|discriminate].
Defined.

(** X24: after the login, back to the page asked for.  A request stopped by
    the gate leaves its address in the session; the login that follows
    with the configured password redirects to that address.  Without a
    kept address, or with an empty one, the login does not answer: the
    address of the index page cannot be built without a file, and
    [BuildError] leaves the view. *)
Theorem login_returns_to_page (configured : string) (request : Request) (v : Visit)
    (path base_url : string) :
  method request = POST →
  md_get (form request) "password" = Some configured →
  (authorized (visit_session v) = false →
   str_eqb path "/login/" || startswith path "/static/" || startswith path "/favicon"
   = false →
   base_url ≠ "" →
   fst (login (Some configured) request (snd (check_password path base_url v)))
   = Ok (GoTo base_url))
  ∧ (∀ url, next_url (visit_session v) = Some url → url ≠ "" →
       fst (login (Some configured) request v) = Ok (GoTo url))
  ∧ (next_url (visit_session v) = None ∨ next_url (visit_session v) = Some "" →
     ∃ msg, fst (login (Some configured) request v) = Raise (BuildError msg)).
Proof.
  intros Hpost Hpw. split; [|split].
  - intros Hauth Hexempt Hne. unfold check_password. rewrite Hauth.
    apply orb_false_elim in Hexempt as [Hexempt Hfav].
    apply orb_false_elim in Hexempt as [Hlogin Hstatic].
    rewrite Hlogin, Hstatic, Hfav. cbn [negb andb orb snd].
    unfold login. rewrite Hpost, (bool_decide_eq_true_2 _ Hpw).
    cbn. by destruct base_url.
  - intros url Hurl Hne. unfold login. rewrite Hpost, (bool_decide_eq_true_2 _ Hpw).
    rewrite Hurl. cbn. by destruct url.
  - intros Hnone. unfold login. rewrite Hpost, (bool_decide_eq_true_2 _ Hpw).
    destruct Hnone as [->| ->]; cbn; by eexists.
Qed.

Lemma login_returns_to_page_witness :
  fst (login (Some "secret") (post [("password", "secret")])
         (snd (check_password "/t/" "http://db.example/t/" fresh_visit)))
  = Ok (GoTo "http://db.example/t/")
  ∧ ∃ msg, fst (login (Some "secret") (post [("password", "secret")]) fresh_visit)
           = Raise (BuildError msg).
Proof.
  destruct (login_returns_to_page "secret" (post [("password", "secret")]) fresh_visit
              "/t/" "http://db.example/t/" eq_refl eq_refl) as (Hback & _ & Hfails).
  split; [apply Hback; [reflexivity|reflexivity|discriminate]|].
  apply Hfails. by left.
Defined.

(** ** The search form *)

Section search.
Context `{Adapters}.
Variable model : Model.
Variable col_dict : gmap string ColumnMetadata.
Hypothesis keyed_by_name : ∀ k c, col_dict !! k = Some c → column_name c = k.
Hypothesis fields_known :
  ∀ k c, col_dict !! k = Some c → is_Some (meta_columns model !! column_name c).

(** The loop never ends with an exception of the data model. *)
Lemma example_loop_ends items : ∀ example,
  (∃ found, example_loop model col_dict items example = Done found)
  ∨ (∃ msg, example_loop model col_dict items example = Stopped (RuntimeError msg)).
Proof.
  induction items as [|[k v] items IH]; intros example; cbn [example_loop].
  - left. by eexists.
  - destruct (str_nonempty v); [|apply IH].
    destruct (col_dict !! k) as [column|] eqn:Ek; [|apply IH].
    destruct (fields_known _ _ Ek) as [field Ef]. unfold getitem. rewrite Ef.
    destruct (minimal_validate_field_returns field v) as (v' & err & ->).
    destruct (err_truthy err); [right; by eexists|apply IH].
Qed.

Lemma example_loop_done items : ∀ example found,
  NoDup (map fst items) →
  example_loop model col_dict items example = Done found →
  (∀ k text, (k, text) ∈ items → text ≠ "" → ∀ msg,
     ¬ entry_fails model col_dict k text msg)
  ∧ (∀ k text, found !! k = Some text ↔
       (example !! k = Some text ∧ ¬ (∃ t, (k, t) ∈ items ∧ t ≠ "" ∧ is_Some (col_dict !! k)))
       ∨ ((k, text) ∈ items ∧ text ≠ "" ∧ is_Some (col_dict !! k))).
Proof.
  induction items as [|[k0 v0] items IH]; intros example found Hnd; cbn [example_loop].
  - intros [= <-]. split.
    + intros k text Hin. by apply elem_of_nil in Hin.
    + intros k text. split.
      * intros Hk. left. split; [done|]. intros (t & Hin & _).
        by apply elem_of_nil in Hin.
      * intros [[Hk _]|[Hin _]]; [done|]. by apply elem_of_nil in Hin.
  - cbn in Hnd. apply NoDup_cons in Hnd as [Hk0 Hnd].
    assert (∀ t, (k0, t) ∈ items → False) as Hfresh.
    { intros t Hin. apply Hk0. apply list_elem_of_In, in_map_iff.
      exists (k0, t). split; [done|]. by apply list_elem_of_In. }
    destruct (str_nonempty v0) eqn:Ev0.
    + destruct (col_dict !! k0) as [column|] eqn:Ek0.
      * pose proof (keyed_by_name _ _ Ek0) as Hname.
        unfold getitem.
        destruct (meta_columns model !! column_name column) as [field|] eqn:Ef;
          [|discriminate].
        destruct (minimal_validate_field field v0) as [[v' err]|] eqn:Em;
          [|discriminate].
        destruct (err_truthy err) eqn:Eerr; [discriminate|].
        intros Hloop. destruct (IH _ _ Hnd Hloop) as [IHa IHb]. split.
        -- intros k text Hin Hne msg Hfail.
           apply elem_of_cons in Hin as [Heq|Hin]; [|by eapply IHa].
           injection Heq as -> ->.
           destruct Hfail as (column' & field' & v'' & Hc & Hf & Hv & Hmsg).
           rewrite Ek0 in Hc. injection Hc as <-.
           rewrite Ef in Hf. injection Hf as <-.
           rewrite Em in Hv. injection Hv as -> ->.
           cbn in Eerr. by destruct msg.
        -- intros k text. rewrite IHb. rewrite Hname.
           destruct (decide (k = k0)) as [->|Hne].
           ++ rewrite lookup_insert_eq. split.
              ** intros [[[= <-] _]|[Hin _]]; [|by destruct (Hfresh text)].
                 right. split; [apply elem_of_cons; by left|].
                 split; [by destruct v0|by rewrite Ek0].
              ** intros [[_ Hno]|(Hin & Ht & _)].
                 { exfalso. apply Hno. exists v0.
                   split; [apply elem_of_cons; by left|].
                   split; [by destruct v0|by rewrite Ek0]. }
                 apply elem_of_cons in Hin as [[= ->]|Hin]; [|by destruct (Hfresh text)].
                 left. split; [done|]. intros (t & Hin & _). by destruct (Hfresh t).
           ++ rewrite lookup_insert_ne by done. split.
              ** intros [[Hk Hno]|(Hin & Ht & Hc)].
                 { left. split; [done|]. intros (t & Hin & Ht & Hc). apply Hno.
                   exists t. apply elem_of_cons in Hin as [[=]|Hin]; [congruence|done]. }
                 right. split; [apply elem_of_cons; by right|done].
              ** intros [[Hk Hno]|(Hin & Ht & Hc)].
                 { left. split; [done|]. intros (t & Hin & Ht & Hc). apply Hno.
                   exists t. split; [apply elem_of_cons; by right|done]. }
                 apply elem_of_cons in Hin as [[=]|Hin]; [congruence|].
                 by right.
      * intros Hloop. destruct (IH _ _ Hnd Hloop) as [IHa IHb]. split.
        -- intros k text Hin Hne msg Hfail.
           apply elem_of_cons in Hin as [Heq|Hin]; [|by eapply IHa].
           injection Heq as -> ->.
           destruct Hfail as (column' & _ & _ & Hc & _). by rewrite Ek0 in Hc.
        -- intros k text. rewrite IHb. split.
           ++ intros [[Hk Hno]|(Hin & Ht & Hc)].
              { left. split; [done|]. intros (t & Hin & Ht & Hc). apply Hno.
                exists t. apply elem_of_cons in Hin as [[= -> ->]|Hin]; [|done].
                rewrite Ek0 in Hc. by destruct Hc. }
              right. split; [apply elem_of_cons; by right|done].
           ++ intros [[Hk Hno]|(Hin & Ht & Hc)].
              { left. split; [done|]. intros (t & Hin & Ht & Hc). apply Hno.
                exists t. split; [apply elem_of_cons; by right|done]. }
              apply elem_of_cons in Hin as [[= -> ->]|Hin]; [|by right].
              rewrite Ek0 in Hc. by destruct Hc.
    + intros Hloop. destruct (IH _ _ Hnd Hloop) as [IHa IHb]. split.
      * intros k text Hin Hne msg Hfail.
        apply elem_of_cons in Hin as [Heq|Hin]; [|by eapply IHa].
        injection Heq as -> ->. by destruct v0.
      * intros k text. rewrite IHb. split.
        -- intros [[Hk Hno]|(Hin & Ht & Hc)].
           { left. split; [done|]. intros (t & Hin & Ht & Hc). apply Hno.
             exists t. apply elem_of_cons in Hin as [[= -> ->]|Hin]; [|done].
             by destruct v0. }
           right. split; [apply elem_of_cons; by right|done].
        -- intros [[Hk Hno]|(Hin & Ht & Hc)].
           { left. split; [done|]. intros (t & Hin & Ht & Hc). apply Hno.
             exists t. split; [apply elem_of_cons; by right|done]. }
           apply elem_of_cons in Hin as [[= -> ->]|Hin]; [|by right].
           by destruct v0.
Qed.
End search.

(** X25: the search form of [table_content].  The example searched by
    holds the text of each non-empty entry for a column of the table, as
    it was typed: not the value the codec decoded from it.  The search is
    all or nothing: when one such entry fails validation, the view raises
    [RuntimeError] and no search is made.  Empty entries and entries for
    unknown columns are passed over. *)
Theorem search_example_keeps_text `{Adapters} (model : Model)
    (col_dict : gmap string ColumnMetadata) (fields : list (string * string)) :
  (∀ k c, col_dict !! k = Some c → column_name c = k) →
  (∀ k c, col_dict !! k = Some c → is_Some (meta_columns model !! column_name c)) →
  ((∃ example, example_loop model col_dict (md_items fields) ∅ = Done example)
   ∨ (∃ msg, example_loop model col_dict (md_items fields) ∅
             = Stopped (RuntimeError msg)))
  ∧ (∀ example, example_loop model col_dict (md_items fields) ∅ = Done example →
       ∀ k text, example !! k = Some text
                 ↔ (k, text) ∈ md_items fields ∧ text ≠ "" ∧ is_Some (col_dict !! k))
  ∧ (∀ k text msg, (k, text) ∈ md_items fields → text ≠ "" →
       entry_fails model col_dict k text msg →
       ∃ msg', example_loop model col_dict (md_items fields) ∅
               = Stopped (RuntimeError msg')).
Proof.
  intros Hkeyed Hfields.
  pose proof (example_loop_ends model col_dict Hfields (md_items fields) ∅) as Hends.
  split; [exact Hends|]. split.
  - intros example Hloop k text.
    destruct (example_loop_done model col_dict Hkeyed (md_items fields) ∅ example
                (md_items_NoDup _) Hloop) as [_ Hfound].
    rewrite Hfound, lookup_empty. split.
    + intros [[[=] _]|?]; done.
    + intros ?. by right.
  - intros k text msg Hin Hne Hfail.
    destruct Hends as [[example Hloop]|Hstop]; [|done].
    destruct (example_loop_done model col_dict Hkeyed (md_items fields) ∅ example
                (md_items_NoDup _) Hloop) as [Hnone _].
    by destruct (Hnone k text Hin Hne msg).
Qed.

Lemma search_example_keeps_text_witness :
  let model := reference_model "t" example_table in
  let col_dict := make_col_dict (columns example_table) in
  (∀ example,
     @example_loop reference_adapters model col_dict
       (md_items [("a", "null"); ("b", ""); ("zzz", "1")]) ∅ = Done example →
     example !! "a" = Some "null")
  ∧ ∃ msg', @example_loop reference_adapters model col_dict
              (md_items [("a", "x"); ("b", "-5")]) ∅ = Stopped (RuntimeError msg').
Proof.
  intros model col_dict.
  assert (∀ k c, col_dict !! k = Some c → column_name c = k) as Hkeyed
    by apply make_col_dict_keyed.
  assert (∀ k c, col_dict !! k = Some c → is_Some (meta_columns model !! column_name c))
    as Hfields.
  { intros k c Hk. apply make_col_dict_lookup in Hk as [Hc _].
    repeat (apply elem_of_cons in Hc as [->|Hc]; [by eexists|]).
    by apply elem_of_nil in Hc. }
  split.
  - intros example Hloop.
    destruct (@search_example_keeps_text reference_adapters model col_dict
                [("a", "null"); ("b", ""); ("zzz", "1")] Hkeyed Hfields)
      as (_ & Hfound & _).
    apply (Hfound example Hloop). split; [apply elem_of_cons; by left|].
    split; [discriminate|by eexists].
  - destruct (@search_example_keeps_text reference_adapters model col_dict
                [("a", "x"); ("b", "-5")] Hkeyed Hfields) as (_ & _ & Hstop).
    apply (Hstop "b" "-5" "Value is not a number.").
    + apply elem_of_cons. right. apply elem_of_cons. by left.
    + discriminate.
    + exists column_b, (field_of_column column_b), (PStr "-5").
      split; [reflexivity|]. split; [reflexivity|]. split; [reflexivity|discriminate].
Defined.

(** ** What an update writes *)

Lemma form_loop_passes_returns `{Adapters} (model : Model)
    (col_dict : gmap string ColumnMetadata) items : ∀ st,
  (∀ k text, (k, text) ∈ items → is_Some (col_dict !! k) →
             ∃ v, entry_passes model col_dict k text v) →
  ∃ st', form_loop model col_dict items st = Ok st'.
Proof.
  induction items as [|[k0 v0] items IH]; intros st Hpass; [by eexists|].
  assert (∀ k text, (k, text) ∈ items → is_Some (col_dict !! k) →
                    ∃ v, entry_passes model col_dict k text v) as Hpass'.
  { intros k text Hin. apply Hpass. apply elem_of_cons. by right. }
  cbn [form_loop].
  destruct (col_dict !! k0) as [column|] eqn:Ek0; [|by apply IH].
  destruct (Hpass k0 v0) as (v & column' & field & err & Hc & Hf & Hv & Herr);
    [apply elem_of_cons; by left|by rewrite Ek0|].
  rewrite Ek0 in Hc. injection Hc as <-.
  unfold getitem. rewrite Hf. cbn [rbind]. rewrite Hv. cbn [rbind snd].
  rewrite Herr. by apply IH.
Qed.

(** X26: what an update writes.  On a POST for a token that selects a row,
    when every entry of the form for a column of the table passes
    validation, and there is at least one, the view hands exactly one
    update to the engine: it sets each such column to its validated value
    (the first value of a repeated key) and no other column, and its WHERE
    clause is the decoded token.  When the engine accepts it, the view
    goes back to the page last viewed and reports the row count the engine
    returned; when the engine refuses, the database is as before and the
    view reports the engine's message. *)
Theorem table_update_writes_validated `{Engine} `{Adapters} (table pk : string)
    (request : Request) (w : World) (t : Table) (expr : Expression)
    (obj row : gmap string pyvalue) :
  method request = POST →
  database w !! table = Some t →
  meta_primary_key (generate_model table t) ≠ NoKey →
  pk ≠ UNEDITABLE →
  decode_pk (generate_model table t) (PStr pk) = Ok expr →
  model_get table expr (database w) = Ok obj →
  update_row obj (columns t) ∅ = Ok row →
  (∀ k text, (k, text) ∈ md_items (form request) → k ∈ map column_name (columns t) →
     ∃ v, entry_passes (generate_model table t) (make_col_dict (columns t)) k text v) →
  (∃ k text, (k, text) ∈ md_items (form request) ∧ k ∈ map column_name (columns t)) →
  ∃ values,
    (∀ k text v, (k, text) ∈ md_items (form request) →
       entry_passes (generate_model table t) (make_col_dict (columns t)) k text v →
       values !! k = Some v)
    ∧ (∀ k, is_Some (values !! k) →
         ∃ text, (k, text) ∈ md_items (form request) ∧ k ∈ map column_name (columns t))
    ∧ executed (snd (table_update table pk request w))
      = (executed w ++ [UpdateStmt table values expr])%list
    ∧ match execute_update table values expr (database w) with
      | Ok (n, db) =>
          fst (table_update table pk request w) = Ok (RedirectToPrevious table)
          ∧ database (snd (table_update table pk request w)) = db
          ∧ flashes (snd (table_update table pk request w))
            = (flashes w ++ [("Successfully updated " +:+ py_str (PInt n) +:+ " record.",
                              "success")])%list
      | Raise exc =>
          (∃ ctx, fst (table_update table pk request w) = Ok (Render "table_update.html" ctx))
          ∧ database (snd (table_update table pk request w)) = database w
          ∧ flashes (snd (table_update table pk request w))
            = (flashes w ++ [("Update failed: " +:+ str_exn exc, "danger")])%list
      end.
Proof.
  intros Hpost Ht Hkey Hpk Hdec Hget Hrow Hpass (k1 & text1 & Hin1 & Hcol1).
  assert (∀ k, is_Some (make_col_dict (columns t) !! k) ↔ k ∈ map column_name (columns t))
    as Hdom.
  { intros k. by rewrite <- elem_of_dom, make_col_dict_dom, elem_of_list_to_set. }
  set (model := generate_model table t) in *.
  set (col_dict := make_col_dict (columns t)) in *.
  set (st0 := {| st_edited := ∅; st_row := row; st_errors := ∅; st_values := ∅ |}).
  assert (∀ k text, (k, text) ∈ md_items (form request) → is_Some (col_dict !! k) →
                    ∃ v, entry_passes model col_dict k text v) as Hpass'.
  { intros k text Hin Hk. apply Hpass; [done|]. by apply Hdom. }
  destruct (form_loop_passes_returns model col_dict (md_items (form request)) st0 Hpass')
    as [st Hloop].
  destruct (form_loop_values model col_dict (make_col_dict_keyed (columns t))
              (md_items (form request)) st0 st (md_items_NoDup _) Hpass' Hloop)
    as (He & _ & Hb & Hc).
  exists (st_values st).
  assert (st_values st ≠ ∅) as Hne.
  { destruct (Hpass k1 text1 Hin1 Hcol1) as [v Hv].
    intros Hempty. specialize (Hb _ _ _ Hin1 Hv).
    rewrite Hempty, lookup_empty in Hb. discriminate Hb. }
  split; [exact Hb|]. split.
  { intros k Hk. destruct (Hc k Hk) as [Hold|(text & Hin & Hcol)].
    - cbn in Hold. rewrite lookup_empty in Hold. by destruct Hold.
    - exists text. split; [done|]. by apply Hdom. }
  assert (table_update table pk request w
          = table_update_fetched table model expr obj request (update_cache table w))
    as ->.
  { unfold table_update, require_table. rewrite Ht. cbv zeta.
    rewrite (getitem_models_fresh table w t Ht), update_cache_database.
    fold model. unfold str_eqb. rewrite bool_decide_eq_false_2 by done.
    rewrite Hdec, Hget. by destruct (meta_primary_key model). }
  unfold table_update_fetched. rewrite get_columns_update_cache.
  unfold get_columns. rewrite Ht, Hrow, Hpost. fold col_dict st0. rewrite Hloop.
  cbv zeta. rewrite He. cbn [st_errors st0]. rewrite bool_decide_eq_true_2 by done.
  rewrite bool_decide_eq_false_2 by done. cbn [negb].
  cbn [database log_statement]. rewrite update_cache_database.
  destruct (execute_update table (st_values st) expr (database w)) as [[n db]|exc]; cbn.
  - by rewrite update_cache_executed, update_cache_flashes.
  - rewrite update_cache_executed, update_cache_flashes, update_cache_database.
    split; [done|]. split; [by eexists|]. by split.
Qed.

Lemma table_update_writes_validated_witness :
  ∃ values,
    executed (snd (@table_update reference_engine reference_adapters "t" "2"
                     (post [("a", "changed")]) example_world))
    = [UpdateStmt "t" values (ExprEq (field_of_column column_id) (PStr "2"))]
    ∧ values !! "a" = Some (PStr "changed").
Proof.
  assert (@entry_passes reference_adapters (reference_model "t" example_table)
            (make_col_dict (columns example_table)) "a" "changed" (PStr "changed")) as Ha.
  { exists column_a, (field_of_column column_a), None. by repeat split. }
  assert (("a", "changed") ∈ md_items (form (post [("a", "changed")]))) as Hina.
  { apply elem_of_cons. by left. }
  destruct (@table_update_writes_validated reference_engine reference_adapters "t" "2"
              (post [("a", "changed")]) example_world example_table
              (ExprEq (field_of_column column_id) (PStr "2"))
              {[ "id" := PInt 2; "a" := PStr "y"; "b" := PInt 20 ]}
              {[ "id" := PInt 2; "a" := PStr "y"; "b" := PInt 20 ]})
    as (values & Hvalues & _ & Hexec & _).
  - reflexivity.
  - reflexivity.
  - discriminate.
  - discriminate.
  - reflexivity.
  - vm_compute. reflexivity.
  - vm_compute. reflexivity.
  - intros k text Hin _.
    apply elem_of_cons in Hin as [[= -> ->]|Hin]; [eexists; exact Ha|].
    by apply elem_of_nil in Hin.
  - exists "a", "changed". split; [exact Hina|].
    apply elem_of_cons. right. apply elem_of_cons. by left.
  - exists values. split; [exact Hexec|]. exact (Hvalues _ _ _ Hina Ha).
Defined.

(** ** The row shown in the edit form *)

Lemma update_row_type_error obj columns : ∀ row,
  (∀ c, c ∈ columns → is_Some (obj !! column_name c)) →
  (∃ c v, c ∈ columns ∧ lower (data_type c) = "blob"
          ∧ obj !! column_name c = Some v ∧ v ≠ PNone ∧ ∀ b, v ≠ PBytes b) →
  ∃ msg, update_row obj columns row = Raise (TypeError msg).
Proof.
  induction columns as [|c0 columns IH];
    intros row Hall (c & v & Hin & Hblob & Hv & Hnone & Hbytes).
  { by apply elem_of_nil in Hin. }
  cbn [update_row].
  destruct (Hall c0) as [v0 Hv0]; [apply elem_of_cons; by left|].
  rewrite Hv0. cbn [rbind].
  destruct (decide (c = c0)) as [->|Hne].
  - rewrite Hv0 in Hv. injection Hv as ->.
    unfold str_eqb. rewrite Hblob, bool_decide_eq_true_2 by done.
    destruct v as [|bo|z|text|b]; [done| | | |by destruct (Hbytes b)];
      cbn [rbind]; by eexists.
  - apply elem_of_cons in Hin as [->|Hin]; [done|].
    assert (∀ row', ∃ msg, update_row obj columns row' = Raise (TypeError msg)) as Hrest.
    { intros row'. apply IH.
      - intros c' Hc'. apply Hall. apply elem_of_cons. by right.
      - by exists c, v. }
    destruct v0; cbn [rbind];
      try (destruct (str_eqb (lower (data_type c0)) "blob"); cbn [rbind];
           try (by eexists));
      apply Hrest.
Qed.

(** X27: the edit form needs bytes in a blob column.  When the row fetched
    for [table_update] holds, in a column declared as a blob, a value that
    is neither NULL nor bytes (SQLite stores text or numbers in such a
    column as well), [base64.b64encode] raises [TypeError]; the error
    leaves the view, for a GET as for a POST, so the row cannot be opened
    for editing, and nothing is written, flashed or logged. *)
Theorem edit_form_needs_bytes `{Engine} `{Adapters} (table pk : string)
    (request : Request) (w : World) (t : Table) (expr : Expression)
    (obj : gmap string pyvalue) :
  database w !! table = Some t →
  meta_primary_key (generate_model table t) ≠ NoKey →
  pk ≠ UNEDITABLE →
  decode_pk (generate_model table t) (PStr pk) = Ok expr →
  model_get table expr (database w) = Ok obj →
  (∀ c, c ∈ columns t → is_Some (obj !! column_name c)) →
  (∃ c v, c ∈ columns t ∧ lower (data_type c) = "blob"
          ∧ obj !! column_name c = Some v ∧ v ≠ PNone ∧ ∀ b, v ≠ PBytes b) →
  (∃ msg, fst (table_update table pk request w) = Raise (TypeError msg))
  ∧ database (snd (table_update table pk request w)) = database w
  ∧ executed (snd (table_update table pk request w)) = executed w
  ∧ flashes (snd (table_update table pk request w)) = flashes w.
Proof.
  intros Ht Hkey Hpk Hdec Hget Hall Hbad.
  set (model := generate_model table t) in *.
  assert (table_update table pk request w
          = table_update_fetched table model expr obj request (update_cache table w))
    as ->.
  { unfold table_update, require_table. rewrite Ht. cbv zeta.
    rewrite (getitem_models_fresh table w t Ht), update_cache_database.
    fold model. unfold str_eqb. rewrite bool_decide_eq_false_2 by done.
    rewrite Hdec, Hget. by destruct (meta_primary_key model). }
  unfold table_update_fetched. rewrite get_columns_update_cache.
  unfold get_columns. rewrite Ht. cbv zeta.
  destruct (update_row_type_error obj (columns t) ∅ Hall Hbad) as [msg ->].
  cbn [fst snd].
  rewrite update_cache_database, update_cache_executed, update_cache_flashes.
  split; [by exists msg|]. by repeat split.
Qed.

Lemma edit_form_needs_bytes_witness :
  ∃ msg, fst (@table_update reference_engine reference_adapters "f" "1"
                (get_args []) file_world) = Raise (TypeError msg).
Proof.
  refine (proj1 (@edit_form_needs_bytes reference_engine reference_adapters "f" "1"
                   (get_args []) file_world file_table
                   (ExprEq (field_of_column column_id) (PStr "1"))
                   {[ "id" := PInt 1; "data" := PStr "hi" ]} _ _ _ _ _ _ _)).
  - reflexivity.
  - discriminate.
  - discriminate.
  - vm_compute. reflexivity.
  - vm_compute. reflexivity.
  - intros c Hc.
    apply elem_of_cons in Hc as [->|Hc]; [by eexists|].
    apply elem_of_cons in Hc as [->|Hc]; [by eexists|].
    by apply elem_of_nil in Hc.
  - exists column_data, (PStr "hi").
    split; [apply elem_of_cons; right; apply elem_of_cons; by left|].
    split; [vm_compute; reflexivity|]. by repeat split.
Defined.

(** ** What the form page shows again *)

Section form_row.
Context `{Adapters}.
Variable model : Model.
Variable col_dict : gmap string ColumnMetadata.
Hypothesis keyed_by_name : ∀ k c, col_dict !! k = Some c → column_name c = k.

(** The loop puts the text of every entry for a column into the row, as
    it was typed, and marks the column as edited, whether the entry
    passes or not; the other keys of the row stay. *)
Lemma form_loop_row items : ∀ st st',
  NoDup (map fst items) →
  form_loop model col_dict items st = Ok st' →
  (∀ k, k ∉ map fst items → st_row st' !! k = st_row st !! k)
  ∧ (∀ k, k ∈ st_edited st → k ∈ st_edited st')
  ∧ (∀ k text, (k, text) ∈ items → is_Some (col_dict !! k) →
               st_row st' !! k = Some (PStr text) ∧ k ∈ st_edited st').
Proof.
  induction items as [|[k0 v0] items IH]; intros st st' Hnd Hloop.
  - injection Hloop as <-. split; [done|]. split; [done|].
    intros k text Hin. by apply elem_of_nil in Hin.
  - cbn in Hnd. apply NoDup_cons in Hnd as [Hk0 Hnd].
    cbn [form_loop] in Hloop.
    destruct (col_dict !! k0) as [column|] eqn:Ek0.
    + pose proof (keyed_by_name _ _ Ek0) as Hname. rewrite Hname in Hloop.
      destruct (getitem (meta_columns model) k0) as [field|]; [|discriminate].
      cbn [rbind] in Hloop.
      destruct (minimal_validate_field field v0) as [checked|]; [|discriminate].
      cbn [rbind] in Hloop.
      assert (∃ errors values,
                form_loop model col_dict items
                  {| st_edited := {[k0]} ∪ st_edited st;
                     st_row := <[k0 := PStr v0]> (st_row st);
                     st_errors := errors; st_values := values |} = Ok st')
        as (errors & values & Hloop').
      { destruct (err_truthy (snd checked)); by eexists _, _. }
      destruct (IH _ _ Hnd Hloop') as (IHa & IHb & IHc). cbn in IHa, IHb.
      split; [|split].
      * intros k Hk. rewrite IHa.
        -- apply lookup_insert_ne. intros ->. apply Hk. cbn. apply elem_of_cons. by left.
        -- intros Hin. apply Hk. cbn. apply elem_of_cons. by right.
      * intros k Hk. apply IHb. set_solver.
      * intros k text Hin Hk.
        apply elem_of_cons in Hin as [Heq|Hin]; [|by apply IHc].
        injection Heq as -> ->. split.
        -- rewrite (IHa _ Hk0). apply lookup_insert_eq.
        -- apply IHb. set_solver.
    + destruct (IH _ _ Hnd Hloop) as (IHa & IHb & IHc).
      split; [|split].
      * intros k Hk. apply IHa. intros Hin. apply Hk. cbn. apply elem_of_cons. by right.
      * done.
      * intros k text Hin Hk.
        apply elem_of_cons in Hin as [Heq|Hin]; [|by apply IHc].
        injection Heq as -> ->. rewrite Ek0 in Hk. by destruct Hk.
Qed.
End form_row.

(** X28: a posted edit with an entry that fails validation changes nothing.
    [table_update] answers with the edit form and the error flash; no
    statement is handed to the engine and the database is as before.  The
    page carries the message of every failing entry under its key, shows
    every entry for a column with the text as it was typed, passing or
    not, marked as edited, and shows the other columns as fetched. *)
Theorem table_update_rejects_invalid `{Engine} `{Adapters} (table pk : string)
    (request : Request) (w : World) (t : Table) (expr : Expression)
    (obj row : gmap string pyvalue) (key value msg : string) :
  method request = POST →
  database w !! table = Some t →
  meta_primary_key (generate_model table t) ≠ NoKey →
  pk ≠ UNEDITABLE →
  decode_pk (generate_model table t) (PStr pk) = Ok expr →
  model_get table expr (database w) = Ok obj →
  update_row obj (columns t) ∅ = Ok row →
  (∀ c, c ∈ columns t →
        is_Some (meta_columns (generate_model table t) !! column_name c)) →
  (key, value) ∈ md_items (form request) →
  entry_fails (generate_model table t) (make_col_dict (columns t)) key value msg →
  ∃ ctx,
    table_update table pk request w
    = (Ok (Render "table_update.html" ctx),
       flash "One or more errors prevented the row being updated." "danger"
         (update_cache table w))
    ∧ executed (snd (table_update table pk request w)) = executed w
    ∧ database (snd (table_update table pk request w)) = database w
    ∧ (∀ k v m, (k, v) ∈ md_items (form request) →
                entry_fails (generate_model table t) (make_col_dict (columns t)) k v m →
                ctx_errors ctx !! k = Some m)
    ∧ (∀ k text, (k, text) ∈ md_items (form request) →
                 k ∈ map column_name (columns t) →
                 ctx_row ctx !! k = Some (PStr text) ∧ k ∈ ctx_edited ctx)
    ∧ (∀ k, k ∉ map fst (md_items (form request)) → ctx_row ctx !! k = row !! k).
Proof.
  intros Hpost Ht Hkey Hpk Hdec Hget Hrow Hfields Hin Hfail.
  set (model := generate_model table t) in *.
  set (col_dict := make_col_dict (columns t)) in *.
  set (st0 := {| st_edited := ∅; st_row := row; st_errors := ∅; st_values := ∅ |}).
  destruct (form_loop_returns model col_dict (md_items (form request)) st0) as [st Hloop].
  { intros k c Hk. apply make_col_dict_lookup in Hk as [Hc _]. by apply Hfields. }
  destruct (form_loop_errors model col_dict _ _ _ (md_items_NoDup _) Hloop) as [_ Herr].
  destruct (form_loop_row model col_dict (make_col_dict_keyed (columns t))
              _ _ _ (md_items_NoDup _) Hloop) as (Hkeep & _ & Htyped).
  assert (table_update table pk request w
          = (Ok (Render "table_update.html" (context_of st)),
             flash "One or more errors prevented the row being updated." "danger"
               (update_cache table w))) as Hview.
  { unfold table_update, require_table. rewrite Ht. cbv zeta.
    rewrite (getitem_models_fresh table w t Ht), update_cache_database.
    fold model. unfold str_eqb. rewrite bool_decide_eq_false_2 by done.
    rewrite Hdec, Hget.
    assert (table_update_fetched table model expr obj request (update_cache table w)
            = (Ok (Render "table_update.html" (context_of st)),
               flash "One or more errors prevented the row being updated." "danger"
                 (update_cache table w))) as ->.
    { unfold table_update_fetched. rewrite get_columns_update_cache.
      unfold get_columns. rewrite Ht, Hrow, Hpost. fold col_dict st0. rewrite Hloop.
      cbv zeta. rewrite bool_decide_eq_false_2; [reflexivity|].
      intros Hempty. specialize (Herr _ _ _ Hin Hfail).
      rewrite Hempty, lookup_empty in Herr. discriminate Herr. }
    by destruct (meta_primary_key model). }
  exists (context_of st). rewrite Hview. cbn [snd].
  split; [reflexivity|]. split; [apply update_cache_executed|].
  split; [apply update_cache_database|]. split; [exact Herr|]. split.
  - intros k text Hk Hcol. apply Htyped; [done|].
    apply elem_of_dom. unfold col_dict.
    rewrite make_col_dict_dom. by apply elem_of_list_to_set.
  - exact Hkeep.
Qed.

Lemma table_update_rejects_invalid_witness :
  ∃ ctx,
    fst (@table_update reference_engine reference_adapters "t" "2"
           (post [("a", "hello"); ("b", "oops")]) example_world)
    = Ok (Render "table_update.html" ctx)
    ∧ ctx_errors ctx !! "b" = Some "Value is not a number."
    ∧ ctx_row ctx !! "b" = Some (PStr "oops")
    ∧ ctx_row ctx !! "a" = Some (PStr "hello")
    ∧ ctx_row ctx !! "id" = Some (PInt 2).
Proof.
  assert (@entry_fails reference_adapters (reference_model "t" example_table)
            (make_col_dict (columns example_table)) "b" "oops" "Value is not a number.")
    as Hfail.
  { exists column_b, (field_of_column column_b), (PStr "oops").
    split; [reflexivity|]. split; [reflexivity|]. split; [reflexivity|discriminate]. }
  assert (("b", "oops") ∈ md_items (form (post [("a", "hello"); ("b", "oops")]))) as Hinb.
  { apply elem_of_cons. right. apply elem_of_cons. by left. }
  assert (("a", "hello") ∈ md_items (form (post [("a", "hello"); ("b", "oops")]))) as Hina.
  { apply elem_of_cons. by left. }
  destruct (@table_update_rejects_invalid reference_engine reference_adapters "t" "2"
              (post [("a", "hello"); ("b", "oops")]) example_world example_table
              (ExprEq (field_of_column column_id) (PStr "2"))
              {[ "id" := PInt 2; "a" := PStr "y"; "b" := PInt 20 ]}
              {[ "id" := PInt 2; "a" := PStr "y"; "b" := PInt 20 ]}
              "b" "oops" "Value is not a number.")
    as (ctx & Hview & _ & _ & Herrors & Htyped & Hkeep).
  - reflexivity.
  - reflexivity.
  - discriminate.
  - discriminate.
  - reflexivity.
  - vm_compute. reflexivity.
  - vm_compute. reflexivity.
  - intros c Hc.
    apply elem_of_cons in Hc as [->|Hc]; [by eexists|].
    apply elem_of_cons in Hc as [->|Hc]; [by eexists|].
    apply elem_of_cons in Hc as [->|Hc]; [by eexists|].
    by apply elem_of_nil in Hc.
  - exact Hinb.
  - exact Hfail.
  - exists ctx. rewrite Hview. split; [reflexivity|].
    split; [exact (Herrors _ _ _ Hinb Hfail)|].
    split; [apply (Htyped _ _ Hinb); vm_compute; set_solver|].
    split; [apply (Htyped _ _ Hina); vm_compute; set_solver|].
    rewrite Hkeep; [reflexivity|]. vm_compute. set_solver.
Defined.
